(** * The IR printer of the Zig stage-1 compiler ([src/ir_print.cpp])

    A shallow embedding of the debug printer of the intermediate
    representation, and the properties of its text output.

    The printer writes to one [FILE *] and aborts the process on an
    internal invariant violation.  Both effects are explicit here: a
    printing function returns the text it appended to the sink together
    with its outcome. *)

From Stdlib Require Import String Ascii List NArith ZArith Bool Lia.
From Stdlib Require Import DecimalString.
From Stdlib Require Import DecimalN.
Import ListNotations.

Local Open Scope string_scope.
Local Open Scope N_scope.

(** ** Text *)

(** [n] copies of the blank, as [fprintf(f, " ")] repeated [n] times
    writes them. *)
Fixpoint spaces (n : nat) : string :=
  match n with
  | O => ""
  | S k => " " ++ spaces k
  end.

(** The conversions [%zu] and [%llu]: an unsigned integer in decimal. *)
Definition dec (n : N) : string := NilEmpty.string_of_uint (N.to_uint n).

(** The conversions [%-3zu], [%-12s] and [%-2s]: the text is left-justified
    in a field of at least [width] characters; a longer text is written
    whole. *)
Definition pad_right (width : nat) (s : string) : string :=
  s ++ spaces (width - String.length s).

(** The line feed written after each instruction and each block label. *)
Definition newline : string := String (ascii_of_nat 10) "".

(** [size_t] is 64 bits wide. *)
Definition SIZE_MAX : N := 2 ^ 64 - 1.
Definition size_t_wrap (n : N) : N := n mod 2 ^ 64.

(** ** The printing monad *)

(** The ways the process stops: [zig_unreachable()], a failed [assert]
    (with the asserted expression, as the diagnostic names it), and a read
    through a null pointer.  [InvalidAccess] also marks the reads C++
    gives no meaning to, past the end of an array or of a member of a
    union that is not the active one: there the compiled printer reads
    whatever bytes it finds, and may as well go on. *)
Inductive Fatal : Type :=
| Unreachable
| AssertionFailed (expr : string)
| InvalidAccess.

Inductive Outcome (A : Type) : Type :=
| Done (a : A)
| Abort (e : Fatal).
Arguments Done {A} a.
Arguments Abort {A} e.

(** The text passed to [fprintf] on [irp->f], in order, and how the call
    ended.  The text passed before an abort is kept: it is what the
    stream was given.  The printer never flushes the stream, so what a
    buffered stream holds of it when the process dies is not its doing. *)
Definition M (A : Type) : Type := (string * Outcome A)%type.

Definition ret {A} (a : A) : M A := ("", Done a).

Definition bind {A B} (m : M A) (k : A -> M B) : M B :=
  match m with
  | (s, Done a) => let (s', r) := k a in (s ++ s', r)
  | (s, Abort e) => (s, Abort e)
  end.

Definition fprintf (s : string) : M unit := (s, Done tt).
Definition abort {A} (e : Fatal) : M A := ("", Abort e).
Definition zig_unreachable {A} : M A := abort Unreachable.
Definition assert (b : bool) (expr : string) : M unit :=
  if b then ret tt else abort (AssertionFailed expr).

Declare Scope print_scope.
Delimit Scope print_scope with print.
Notation "x <- m ;; k" := (bind m (fun x => k))
  (at level 61, m at next level, right associativity) : print_scope.
Notation "m ;; k" := (bind m (fun _ => k))
  (at level 61, right associativity) : print_scope.
Local Open Scope print_scope.

Definition text {A} (m : M A) : string := fst m.
Definition outcome {A} (m : M A) : Outcome A := snd m.

(** [for (size_t i = 0; i < count; i += 1) body(i)], left at the first
    abort. *)
Fixpoint for_loop_from (fuel : nat) (i : N) (body : N -> M unit) : M unit :=
  match fuel with
  | O => ret tt
  | S fuel' => body i ;; for_loop_from fuel' (i + 1) body
  end.

Definition for_loop (count : N) (body : N -> M unit) : M unit :=
  for_loop_from (N.to_nat count) 0 body.

(** [array[i]] of a C array, given as the list of its elements. *)
Definition at_index {A} (array : list A) (i : N) : M A :=
  match nth_error array (N.to_nat i) with
  | Some a => ret a
  | None => abort InvalidAccess
  end.

(** [pointer-> ...] of a pointer that may be null. *)
Definition deref {A} (pointer : option A) : M A :=
  match pointer with
  | Some a => ret a
  | None => abort InvalidAccess
  end.

(** ** The data the printer reads *)

Inductive TypeTableEntryId : Type :=
| TypeTableEntryIdInvalid
| TypeTableEntryIdVar
| TypeTableEntryIdMetaType
| TypeTableEntryIdVoid
| TypeTableEntryIdBool
| TypeTableEntryIdUnreachable
| TypeTableEntryIdInt
| TypeTableEntryIdFloat
| TypeTableEntryIdPointer
| TypeTableEntryIdArray
| TypeTableEntryIdStruct
| TypeTableEntryIdNumLitFloat
| TypeTableEntryIdNumLitInt
| TypeTableEntryIdUndefLit
| TypeTableEntryIdNullLit
| TypeTableEntryIdMaybe
| TypeTableEntryIdErrorUnion
| TypeTableEntryIdPureError
| TypeTableEntryIdEnum
| TypeTableEntryIdUnion
| TypeTableEntryIdFn
| TypeTableEntryIdTypeDecl
| TypeTableEntryIdNamespace
| TypeTableEntryIdBlock
| TypeTableEntryIdBoundFn.

(** A type of the type table: its kind, its name, and the member of the
    union [data] that is active. *)
Inductive TypeTableEntry : Type :=
| Build_TypeTableEntry (id : TypeTableEntryId) (name : string)
                       (data : TypeTableEntryData)
with TypeTableEntryData : Type :=
| data_none
| data_type_decl (canonical_type : TypeTableEntry)
| data_pointer (child_type : TypeTableEntry)
| data_array (child_type : TypeTableEntry) (len : N)
| data_maybe (child_type : TypeTableEntry).

Definition type_id (t : TypeTableEntry) : TypeTableEntryId :=
  let (id, _, _) := t in id.
Definition type_name (t : TypeTableEntry) : string :=
  let (_, name, _) := t in name.
Definition type_data (t : TypeTableEntry) : TypeTableEntryData :=
  let (_, _, data) := t in data.

Inductive BigNumKind : Type := BigNumKindInt | BigNumKindFloat.

(** A [double], known here by the text [%f] writes for it. *)
Record double : Type := { printf_f : string }.

(** [BigNum]: the union of [x_uint] and [x_float] holds numbers only, so
    either member can be read whatever [kind] says. *)
Record BigNum : Type := {
  kind : BigNumKind;
  is_negative : bool;
  x_uint : N;
  x_float : double
}.

Record FnTableEntry : Type := { symbol_name : string }.

Record ImportTableEntry : Type := { path : string }.

Inductive NodeType : Type :=
| NodeTypeAsmExpr
| NodeTypeOther.

Record AsmOutput : Type := {
  output_asm_symbolic_name : string;
  output_constraint : string;
  variable_name : string;
  (** whether [return_type] is not null *)
  return_type : bool
}.

Record AsmInput : Type := {
  input_asm_symbolic_name : string;
  input_constraint : string
}.

Record AstNodeAsmExpr : Type := {
  asm_template : string;
  output_list : list AsmOutput;
  input_list : list AsmInput;
  clobber_list : list string
}.

Record AstNode : Type := {
  type : NodeType;
  line : N;
  column : N;
  asm_expr : AstNodeAsmExpr
}.

Record BlockContext : Type := { node : AstNode }.

Inductive ConstValSpecial : Type :=
| ConstValSpecialRuntime
| ConstValSpecialStatic
| ConstValSpecialUndef
| ConstValSpecialZeroes.

(** A constant value, the member of its union [data] that is active, and
    the base of an instruction, which embeds a constant value and is what
    an [IrInstruction *] operand gives access to. *)
Inductive ConstExprValue : Type :=
| Build_ConstExprValue (special : ConstValSpecial) (data : ConstExprValueData)
with ConstExprValueData : Type :=
| x_bignum (bignum : BigNum)
| x_bool (b : bool)
| x_type (t : TypeTableEntry)
| x_fn (fn : FnTableEntry)
| x_block (block : BlockContext)
| x_ptr (pointee : ConstExprValue)
| x_array (elements : list ConstExprValue)
| x_maybe (child : option ConstExprValue)
| x_import (import : ImportTableEntry)
| x_bound_fn (fn : FnTableEntry) (first_arg : IrInstruction)
with IrInstruction : Type :=
| Build_IrInstruction (debug_id : N) (type_entry : option TypeTableEntry)
                      (static_value : ConstExprValue) (ref_count : N)
                      (has_side_effects : bool) (source_node : AstNode).

Definition special (v : ConstExprValue) : ConstValSpecial :=
  let (special, _) := v in special.
Definition data (v : ConstExprValue) : ConstExprValueData :=
  let (_, data) := v in data.

Definition debug_id (i : IrInstruction) : N :=
  let (debug_id, _, _, _, _, _) := i in debug_id.
Definition type_entry (i : IrInstruction) : option TypeTableEntry :=
  let (_, type_entry, _, _, _, _) := i in type_entry.
Definition static_value (i : IrInstruction) : ConstExprValue :=
  let (_, _, static_value, _, _, _) := i in static_value.
Definition ref_count (i : IrInstruction) : N :=
  let (_, _, _, ref_count, _, _) := i in ref_count.
Definition source_node (i : IrInstruction) : AstNode :=
  let (_, _, _, _, _, source_node) := i in source_node.

(** Modelled from the spec: [ir_has_side_effects] is defined in [ir.cpp];
    the specification gives every instruction a has-side-effects flag,
    which is what this function reads. *)
Definition ir_has_side_effects (i : IrInstruction) : bool :=
  let (_, _, _, _, has_side_effects, _) := i in has_side_effects.

(** Modelled from the spec: [const_ptr_pointee] is defined outside this
    file; a pointer value owns or aliases the value it points to, and the
    function gives that value. *)
Definition const_ptr_pointee (const_val : ConstExprValue) : option ConstExprValue :=
  match data const_val with
  | x_ptr pointee => Some pointee
  | _ => None
  end.

Definition is_runtime (s : ConstValSpecial) : bool :=
  match s with
  | ConstValSpecialRuntime => true
  | _ => false
  end.

Record IrPrint : Type := {
  indent : Z;
  indent_size : Z
}.

(** ** Constant values and operands *)

Definition ir_print_var_instruction (irp : IrPrint) (instruction : IrInstruction)
  : M unit :=
  fprintf ("#" ++ dec (debug_id instruction)).

(** [ir_print_const_value] is written in three parts, for the recursion
    to be seen as structural on the value:
    - [ir_print_array_elements] is the loop of the array case;
    - [ir_print_static_value] is the second [switch], the one on
      [type_entry->id].  The call for [TypeTableEntryIdTypeDecl] keeps the
      value, whose [special] was just seen to be [ConstValSpecialStatic],
      so it arrives at this [switch] again, with the canonical type;
    - [ir_print_const_value] is the first [switch], on
      [const_val->special], and falls through to the second.
    The first two take the calls of [ir_print_const_value] and of
    [ir_print_other_instruction] as [print_value] and [print_operand].
    [ir_print_const_value_TypeDecl] below states the call for a declared
    alias as the source writes it.

    The unions [const_val->data] and [type_entry->data] carry no tag in
    the source.  Here a value and a type say which member is active, and
    a read of another member ends in [InvalidAccess], as does a read of
    an array element that is not there.  Which values are rendered to the
    end, and at which reads the renderer stops, is stated below of the
    values that are read at their active members ([readable]). *)
Section ir_print_const_value_parts.
Variable print_value : option TypeTableEntry -> ConstExprValue -> M unit.
Variable print_operand : IrInstruction -> M unit.

(** [for (uint64_t i = 0; i < len; i += 1)], from [i] on; [rest] is what
    [elements] holds from index [i] on. *)
Fixpoint ir_print_array_elements (child_type : TypeTableEntry) (len : N) (i : N)
    (rest : list ConstExprValue) {struct rest} : M unit :=
  if i <? len then
    (if negb (i =? 0) then fprintf "," else ret tt) ;;
    match rest with
    | child_value :: rest' =>
        print_value (Some child_type) child_value ;;
        ir_print_array_elements child_type len (i + 1) rest'
    | [] => abort InvalidAccess
    end
  else ret tt.

Fixpoint ir_print_static_value (data : ConstExprValueData)
    (type_entry : TypeTableEntry) {struct type_entry} : M unit :=
  match type_entry with
  | Build_TypeTableEntry id name type_data =>
    match id with
    | TypeTableEntryIdTypeDecl =>
        match type_data with
        | data_type_decl canonical_type =>
            ir_print_static_value data canonical_type
        | _ => abort InvalidAccess
        end
    | TypeTableEntryIdInvalid => fprintf "(invalid)"
    | TypeTableEntryIdVar => fprintf "(var)"
    | TypeTableEntryIdVoid => fprintf "{}"
    | TypeTableEntryIdNumLitFloat =>
        match data with
        | x_bignum bignum => fprintf (printf_f (x_float bignum))
        | _ => abort InvalidAccess
        end
    | TypeTableEntryIdNumLitInt =>
        match data with
        | x_bignum bignum =>
            let negative_str := if is_negative bignum then "-" else "" in
            fprintf (negative_str ++ dec (x_uint bignum))
        | _ => abort InvalidAccess
        end
    | TypeTableEntryIdMetaType =>
        match data with
        | x_type t => fprintf (type_name t)
        | _ => abort InvalidAccess
        end
    | TypeTableEntryIdInt =>
        match data with
        | x_bignum bignum =>
            assert (match kind bignum with BigNumKindInt => true | _ => false end)
                   "bignum->kind == BigNumKindInt" ;;
            let negative_str := if is_negative bignum then "-" else "" in
            fprintf (negative_str ++ dec (x_uint bignum))
        | _ => abort InvalidAccess
        end
    | TypeTableEntryIdFloat =>
        match data with
        | x_bignum bignum =>
            assert (match kind bignum with BigNumKindFloat => true | _ => false end)
                   "bignum->kind == BigNumKindFloat" ;;
            fprintf (printf_f (x_float bignum))
        | _ => abort InvalidAccess
        end
    | TypeTableEntryIdUnreachable => fprintf "@unreachable()"
    | TypeTableEntryIdBool =>
        match data with
        | x_bool b =>
            let value := if b then "true" else "false" in
            fprintf value
        | _ => abort InvalidAccess
        end
    | TypeTableEntryIdPointer =>
        fprintf "&" ;;
        match type_data, data with
        | data_pointer child_type, x_ptr pointee =>
            print_value (Some child_type) pointee
        | _, _ => abort InvalidAccess
        end
    | TypeTableEntryIdFn =>
        match data with
        | x_fn fn_entry => fprintf (symbol_name fn_entry)
        | _ => abort InvalidAccess
        end
    | TypeTableEntryIdBlock =>
        match data with
        | x_block block =>
            let node := node block in
            fprintf ("(scope:" ++ dec (size_t_wrap (line node + 1)) ++ ":"
                     ++ dec (size_t_wrap (column node + 1)) ++ ")")
        | _ => abort InvalidAccess
        end
    | TypeTableEntryIdArray =>
        match type_data with
        | data_array child_type len =>
            fprintf (name ++ "{") ;;
            match data with
            | x_array elements =>
                ir_print_array_elements child_type len 0 elements
            | _ =>
                (* the array member of the union is not the active one:
                   there is no element to read *)
                if 0 <? len then abort InvalidAccess else ret tt
            end ;;
            fprintf "}"
        | _ => abort InvalidAccess
        end
    | TypeTableEntryIdNullLit => fprintf "null"
    | TypeTableEntryIdUndefLit => fprintf "undefined"
    | TypeTableEntryIdMaybe =>
        match data with
        | x_maybe (Some child) =>
            match type_data with
            | data_maybe child_type => print_value (Some child_type) child
            | _ => abort InvalidAccess
            end
        | x_maybe None => fprintf "null"
        | _ => abort InvalidAccess
        end
    | TypeTableEntryIdNamespace =>
        match data with
        | x_import import => fprintf ("(namespace: " ++ path import ++ ")")
        | _ => abort InvalidAccess
        end
    | TypeTableEntryIdBoundFn =>
        match data with
        | x_bound_fn fn_entry first_arg =>
            fprintf ("bound " ++ symbol_name fn_entry ++ " to ") ;;
            print_operand first_arg
        | _ => abort InvalidAccess
        end
    | TypeTableEntryIdStruct => fprintf ("(struct " ++ name ++ " constant)")
    | TypeTableEntryIdEnum => fprintf ("(enum " ++ name ++ " constant)")
    | TypeTableEntryIdErrorUnion =>
        fprintf ("(error union " ++ name ++ " constant)")
    | TypeTableEntryIdUnion => fprintf ("(union " ++ name ++ " constant)")
    | TypeTableEntryIdPureError => fprintf "(pure error constant)"
    end
  end.

End ir_print_const_value_parts.

(** In [ir_print_other_instruction] the call of
    [ir_print_const_instruction] is unfolded;
    [ir_print_other_instruction_eq] below states it as the source writes
    it. *)
Fixpoint ir_print_const_value (irp : IrPrint) (type_entry : option TypeTableEntry)
    (const_val : ConstExprValue) {struct const_val} : M unit :=
  match const_val with
  | Build_ConstExprValue special data =>
    match special with
    | ConstValSpecialRuntime => zig_unreachable
    | ConstValSpecialUndef => fprintf "undefined"
    | ConstValSpecialZeroes => fprintf "zeroes"
    | ConstValSpecialStatic =>
        type_entry <- deref type_entry ;;
        ir_print_static_value (ir_print_const_value irp)
          (ir_print_other_instruction irp) data type_entry
    end
  end
with ir_print_other_instruction (irp : IrPrint) (instruction : IrInstruction)
    {struct instruction} : M unit :=
  match instruction with
  | Build_IrInstruction debug_id type_entry static_value _ _ _ =>
      if negb (is_runtime (special static_value)) then
        ir_print_const_value irp type_entry static_value
      else
        fprintf ("#" ++ dec debug_id)
  end.

Definition ir_print_const_instruction (irp : IrPrint) (instruction : IrInstruction)
  : M unit :=
  let type_entry := type_entry instruction in
  let const_val := static_value instruction in
  ir_print_const_value irp type_entry const_val.

(** ** Instructions *)

(** What the printer reads of the target of an [IrBasicBlock *].  Blocks
    refer to each other through their branch instructions, so the target's
    own instructions are left out of a reference. *)
Record IrBasicBlockRef : Type := {
  name_hint : string;
  block_debug_id : N
}.

Inductive IrBinOp : Type :=
| IrBinOpInvalid | IrBinOpBoolOr | IrBinOpBoolAnd | IrBinOpCmpEq
| IrBinOpCmpNotEq | IrBinOpCmpLessThan | IrBinOpCmpGreaterThan
| IrBinOpCmpLessOrEq | IrBinOpCmpGreaterOrEq | IrBinOpBinOr | IrBinOpBinXor
| IrBinOpBinAnd | IrBinOpBitShiftLeft | IrBinOpBitShiftLeftWrap
| IrBinOpBitShiftRight | IrBinOpAdd | IrBinOpAddWrap | IrBinOpSub
| IrBinOpSubWrap | IrBinOpMult | IrBinOpMultWrap | IrBinOpDiv | IrBinOpMod
| IrBinOpArrayCat | IrBinOpArrayMult.

Inductive IrUnOp : Type :=
| IrUnOpInvalid | IrUnOpBoolNot | IrUnOpBinNot | IrUnOpNegation
| IrUnOpNegationWrap | IrUnOpAddressOf | IrUnOpConstAddressOf
| IrUnOpDereference | IrUnOpMaybe | IrUnOpError | IrUnOpUnwrapError
| IrUnOpUnwrapMaybe | IrUnOpMaybeReturn | IrUnOpErrorReturn.

Record VariableTableEntry : Type := {
  var_name : string;
  is_inline : bool;
  gen_is_const : bool
}.

Record TypeStructField : Type := { struct_field_name : string }.
Record TypeEnumField : Type := { enum_field_name : string }.

(** Each instruction struct starts with its [base]; an operand is an
    [IrInstruction *], which gives the base of the instruction it points
    to. *)
Record IrInstructionReturn : Type := {
  return_base : IrInstruction;
  return_value : option IrInstruction
}.
Record IrInstructionConst : Type := { const_base : IrInstruction }.
Record IrInstructionBinOp : Type := {
  bin_op_base : IrInstruction;
  bin_op_op1 : IrInstruction;
  bin_op_op_id : IrBinOp;
  bin_op_op2 : IrInstruction
}.
Record IrInstructionDeclVar : Type := {
  decl_var_base : IrInstruction;
  decl_var_var : VariableTableEntry;
  decl_var_var_type : option IrInstruction;
  decl_var_init_value : IrInstruction
}.
Record IrInstructionCast : Type := {
  cast_base : IrInstruction;
  cast_value : IrInstruction;
  cast_dest_type : TypeTableEntry
}.
Record IrInstructionCall : Type := {
  call_base : IrInstruction;
  call_fn_ref : option IrInstruction;
  call_fn_entry : option FnTableEntry;
  call_arg_count : N;
  call_args : list IrInstruction
}.
Record IrInstructionUnOp : Type := {
  un_op_base : IrInstruction;
  un_op_op_id : IrUnOp;
  un_op_value : IrInstruction
}.
Record IrInstructionCondBr : Type := {
  cond_br_base : IrInstruction;
  cond_br_condition : IrInstruction;
  cond_br_then_block : IrBasicBlockRef;
  cond_br_else_block : IrBasicBlockRef;
  cond_br_is_inline : bool
}.
Record IrInstructionBr : Type := {
  br_base : IrInstruction;
  br_dest_block : IrBasicBlockRef;
  br_is_inline : bool
}.
Record IrInstructionPhi : Type := {
  phi_base : IrInstruction;
  incoming_count : N;
  incoming_blocks : list IrBasicBlockRef;
  incoming_values : list IrInstruction
}.
Record IrInstructionContainerInitList : Type := {
  init_list_base : IrInstruction;
  init_list_container_type : IrInstruction;
  item_count : N;
  items : list IrInstruction
}.
Record IrInstructionContainerInitFieldsField : Type := {
  init_field_name : string;
  init_field_value : IrInstruction
}.
Record IrInstructionContainerInitFields : Type := {
  init_fields_base : IrInstruction;
  init_fields_container_type : IrInstruction;
  init_fields_field_count : N;
  init_fields_fields : list IrInstructionContainerInitFieldsField
}.
Record IrInstructionStructInitField : Type := {
  struct_init_field_value : IrInstruction;
  type_struct_field : TypeStructField
}.
Record IrInstructionStructInit : Type := {
  struct_init_base : IrInstruction;
  struct_init_struct_type : TypeTableEntry;
  struct_init_field_count : N;
  struct_init_fields : list IrInstructionStructInitField
}.
Record IrInstructionUnreachable : Type := { unreachable_base : IrInstruction }.
Record IrInstructionElemPtr : Type := {
  elem_ptr_base : IrInstruction;
  elem_ptr_array_ptr : IrInstruction;
  elem_ptr_elem_index : IrInstruction;
  elem_ptr_safety_check_on : bool
}.
Record IrInstructionVarPtr : Type := {
  var_ptr_base : IrInstruction;
  var_ptr_var : VariableTableEntry
}.
Record IrInstructionLoadPtr : Type := {
  load_ptr_base : IrInstruction;
  load_ptr_ptr : IrInstruction
}.
Record IrInstructionStorePtr : Type := {
  store_ptr_base : IrInstruction;
  store_ptr_ptr : IrInstruction;
  store_ptr_value : IrInstruction
}.
Record IrInstructionTypeOf : Type := {
  typeof_base : IrInstruction;
  typeof_value : IrInstruction
}.
Record IrInstructionToPtrType : Type := {
  to_ptr_type_base : IrInstruction;
  to_ptr_type_value : IrInstruction
}.
Record IrInstructionPtrTypeChild : Type := {
  ptr_type_child_base : IrInstruction;
  ptr_type_child_value : IrInstruction
}.
Record IrInstructionFieldPtr : Type := {
  field_ptr_base : IrInstruction;
  field_ptr_container_ptr : IrInstruction;
  field_ptr_field_name : string
}.
Record IrInstructionStructFieldPtr : Type := {
  struct_field_ptr_base : IrInstruction;
  struct_field_ptr_struct_ptr : IrInstruction;
  struct_field_ptr_field : TypeStructField
}.
Record IrInstructionEnumFieldPtr : Type := {
  enum_field_ptr_base : IrInstruction;
  enum_field_ptr_enum_ptr : IrInstruction;
  enum_field_ptr_field : TypeEnumField
}.
Record IrInstructionSetFnTest : Type := {
  set_fn_test_base : IrInstruction;
  set_fn_test_fn_value : IrInstruction;
  set_fn_test_is_test : IrInstruction
}.
Record IrInstructionSetFnVisible : Type := {
  set_fn_visible_base : IrInstruction;
  set_fn_visible_fn_value : IrInstruction;
  set_fn_visible_is_visible : IrInstruction
}.
Record IrInstructionSetDebugSafety : Type := {
  set_debug_safety_base : IrInstruction;
  set_debug_safety_scope_value : IrInstruction;
  set_debug_safety_debug_safety_on : IrInstruction
}.
Record IrInstructionArrayType : Type := {
  array_type_base : IrInstruction;
  array_type_size : IrInstruction;
  array_type_child_type : IrInstruction
}.
Record IrInstructionSliceType : Type := {
  slice_type_base : IrInstruction;
  slice_type_is_const : bool;
  slice_type_child_type : IrInstruction
}.
Record IrInstructionAsm : Type := {
  asm_base : IrInstruction;
  asm_input_list : list IrInstruction;
  (** an output with no return type has a null entry *)
  asm_output_types : list (option IrInstruction);
  asm_has_side_effects : bool
}.
Record IrInstructionCompileVar : Type := {
  compile_var_base : IrInstruction;
  compile_var_name : IrInstruction
}.
Record IrInstructionSizeOf : Type := {
  size_of_base : IrInstruction;
  size_of_type_value : IrInstruction
}.
Record IrInstructionTestNull : Type := {
  test_null_base : IrInstruction;
  test_null_value : IrInstruction
}.
Record IrInstructionUnwrapMaybe : Type := {
  unwrap_maybe_base : IrInstruction;
  unwrap_maybe_value : IrInstruction;
  unwrap_maybe_safety_check_on : bool
}.
Record IrInstructionCtz : Type := {
  ctz_base : IrInstruction;
  ctz_value : IrInstruction
}.
Record IrInstructionClz : Type := {
  clz_base : IrInstruction;
  clz_value : IrInstruction
}.
Record IrInstructionSwitchBrCase : Type := {
  case_value : IrInstruction;
  case_block : IrBasicBlockRef
}.
Record IrInstructionSwitchBr : Type := {
  switch_br_base : IrInstruction;
  switch_br_target_value : IrInstruction;
  switch_br_else_block : IrBasicBlockRef;
  switch_br_case_count : N;
  switch_br_cases : list IrInstructionSwitchBrCase;
  switch_br_is_inline : bool
}.
Record IrInstructionSwitchVar : Type := {
  switch_var_base : IrInstruction;
  switch_var_target_value_ptr : IrInstruction;
  switch_var_prong_value : IrInstruction
}.
Record IrInstructionSwitchTarget : Type := {
  switch_target_base : IrInstruction;
  switch_target_target_value_ptr : IrInstruction
}.
Record IrInstructionEnumTag : Type := {
  enum_tag_base : IrInstruction;
  enum_tag_value : IrInstruction
}.
Record IrInstructionStaticEval : Type := {
  static_eval_base : IrInstruction;
  static_eval_value : IrInstruction
}.
Record IrInstructionImport : Type := {
  import_base : IrInstruction;
  import_name : IrInstruction
}.
Record IrInstructionArrayLen : Type := {
  array_len_base : IrInstruction;
  array_len_array_value : IrInstruction
}.
Record IrInstructionRef : Type := {
  ref_base : IrInstruction;
  ref_value : IrInstruction
}.

(** An instruction of a block: the [id] of its base says which struct it
    is the base of, and [ir_print_instruction] casts accordingly. *)
Inductive IrInstructionNode : Type :=
| IrInstructionIdInvalid (base : IrInstruction)
| IrInstructionIdReturn (i : IrInstructionReturn)
| IrInstructionIdConst (i : IrInstructionConst)
| IrInstructionIdBinOp (i : IrInstructionBinOp)
| IrInstructionIdDeclVar (i : IrInstructionDeclVar)
| IrInstructionIdCast (i : IrInstructionCast)
| IrInstructionIdCall (i : IrInstructionCall)
| IrInstructionIdUnOp (i : IrInstructionUnOp)
| IrInstructionIdCondBr (i : IrInstructionCondBr)
| IrInstructionIdBr (i : IrInstructionBr)
| IrInstructionIdPhi (i : IrInstructionPhi)
| IrInstructionIdContainerInitList (i : IrInstructionContainerInitList)
| IrInstructionIdContainerInitFields (i : IrInstructionContainerInitFields)
| IrInstructionIdStructInit (i : IrInstructionStructInit)
| IrInstructionIdUnreachable (i : IrInstructionUnreachable)
| IrInstructionIdElemPtr (i : IrInstructionElemPtr)
| IrInstructionIdVarPtr (i : IrInstructionVarPtr)
| IrInstructionIdLoadPtr (i : IrInstructionLoadPtr)
| IrInstructionIdStorePtr (i : IrInstructionStorePtr)
| IrInstructionIdTypeOf (i : IrInstructionTypeOf)
| IrInstructionIdToPtrType (i : IrInstructionToPtrType)
| IrInstructionIdPtrTypeChild (i : IrInstructionPtrTypeChild)
| IrInstructionIdFieldPtr (i : IrInstructionFieldPtr)
| IrInstructionIdStructFieldPtr (i : IrInstructionStructFieldPtr)
| IrInstructionIdEnumFieldPtr (i : IrInstructionEnumFieldPtr)
| IrInstructionIdSetFnTest (i : IrInstructionSetFnTest)
| IrInstructionIdSetFnVisible (i : IrInstructionSetFnVisible)
| IrInstructionIdSetDebugSafety (i : IrInstructionSetDebugSafety)
| IrInstructionIdArrayType (i : IrInstructionArrayType)
| IrInstructionIdSliceType (i : IrInstructionSliceType)
| IrInstructionIdAsm (i : IrInstructionAsm)
| IrInstructionIdCompileVar (i : IrInstructionCompileVar)
| IrInstructionIdSizeOf (i : IrInstructionSizeOf)
| IrInstructionIdTestNull (i : IrInstructionTestNull)
| IrInstructionIdUnwrapMaybe (i : IrInstructionUnwrapMaybe)
| IrInstructionIdCtz (i : IrInstructionCtz)
| IrInstructionIdClz (i : IrInstructionClz)
| IrInstructionIdSwitchBr (i : IrInstructionSwitchBr)
| IrInstructionIdSwitchVar (i : IrInstructionSwitchVar)
| IrInstructionIdSwitchTarget (i : IrInstructionSwitchTarget)
| IrInstructionIdEnumTag (i : IrInstructionEnumTag)
| IrInstructionIdStaticEval (i : IrInstructionStaticEval)
| IrInstructionIdImport (i : IrInstructionImport)
| IrInstructionIdArrayLen (i : IrInstructionArrayLen)
| IrInstructionIdRef (i : IrInstructionRef).

(** The [IrInstruction *] an instruction of a block is reached by. *)
Definition base_of (instruction : IrInstructionNode) : IrInstruction :=
  match instruction with
  | IrInstructionIdInvalid base => base
  | IrInstructionIdReturn i => return_base i
  | IrInstructionIdConst i => const_base i
  | IrInstructionIdBinOp i => bin_op_base i
  | IrInstructionIdDeclVar i => decl_var_base i
  | IrInstructionIdCast i => cast_base i
  | IrInstructionIdCall i => call_base i
  | IrInstructionIdUnOp i => un_op_base i
  | IrInstructionIdCondBr i => cond_br_base i
  | IrInstructionIdBr i => br_base i
  | IrInstructionIdPhi i => phi_base i
  | IrInstructionIdContainerInitList i => init_list_base i
  | IrInstructionIdContainerInitFields i => init_fields_base i
  | IrInstructionIdStructInit i => struct_init_base i
  | IrInstructionIdUnreachable i => unreachable_base i
  | IrInstructionIdElemPtr i => elem_ptr_base i
  | IrInstructionIdVarPtr i => var_ptr_base i
  | IrInstructionIdLoadPtr i => load_ptr_base i
  | IrInstructionIdStorePtr i => store_ptr_base i
  | IrInstructionIdTypeOf i => typeof_base i
  | IrInstructionIdToPtrType i => to_ptr_type_base i
  | IrInstructionIdPtrTypeChild i => ptr_type_child_base i
  | IrInstructionIdFieldPtr i => field_ptr_base i
  | IrInstructionIdStructFieldPtr i => struct_field_ptr_base i
  | IrInstructionIdEnumFieldPtr i => enum_field_ptr_base i
  | IrInstructionIdSetFnTest i => set_fn_test_base i
  | IrInstructionIdSetFnVisible i => set_fn_visible_base i
  | IrInstructionIdSetDebugSafety i => set_debug_safety_base i
  | IrInstructionIdArrayType i => array_type_base i
  | IrInstructionIdSliceType i => slice_type_base i
  | IrInstructionIdAsm i => asm_base i
  | IrInstructionIdCompileVar i => compile_var_base i
  | IrInstructionIdSizeOf i => size_of_base i
  | IrInstructionIdTestNull i => test_null_base i
  | IrInstructionIdUnwrapMaybe i => unwrap_maybe_base i
  | IrInstructionIdCtz i => ctz_base i
  | IrInstructionIdClz i => clz_base i
  | IrInstructionIdSwitchBr i => switch_br_base i
  | IrInstructionIdSwitchVar i => switch_var_base i
  | IrInstructionIdSwitchTarget i => switch_target_base i
  | IrInstructionIdEnumTag i => enum_tag_base i
  | IrInstructionIdStaticEval i => static_eval_base i
  | IrInstructionIdImport i => import_base i
  | IrInstructionIdArrayLen i => array_len_base i
  | IrInstructionIdRef i => ref_base i
  end.

Record IrBasicBlock : Type := {
  block_ref : IrBasicBlockRef;
  instruction_list : list IrInstructionNode
}.

Record IrExecutable : Type := { basic_block_list : list IrBasicBlock }.

(** ** The printer *)

Definition ir_print_indent (irp : IrPrint) : M unit :=
  for_loop (Z.to_N (indent irp)) (fun _ => fprintf " ").

Definition ir_print_prefix (irp : IrPrint) (instruction : IrInstruction) : M unit :=
  ir_print_indent irp ;;
  let type_name :=
    match type_entry instruction with
    | Some type_entry => type_name type_entry
    | None => "(unknown)"
    end in
  let ref_count :=
    if ir_has_side_effects instruction then "-" else dec (ref_count instruction) in
  fprintf ("#" ++ pad_right 3 (dec (debug_id instruction)) ++ "| "
           ++ pad_right 12 type_name ++ "| " ++ pad_right 2 ref_count ++ "| ").

Definition ir_print_other_block (irp : IrPrint) (bb : IrBasicBlockRef) : M unit :=
  fprintf ("$" ++ name_hint bb ++ "_" ++ dec (block_debug_id bb)).

Definition is_some {A} (pointer : option A) : bool :=
  match pointer with
  | Some _ => true
  | None => false
  end.

Definition ir_print_return (irp : IrPrint) (return_instruction : IrInstructionReturn)
  : M unit :=
  assert (is_some (return_value return_instruction)) "return_instruction->value" ;;
  fprintf "return " ;;
  value <- deref (return_value return_instruction) ;;
  ir_print_other_instruction irp value.

Definition ir_print_const (irp : IrPrint) (const_instruction : IrInstructionConst)
  : M unit :=
  ir_print_const_instruction irp (const_base const_instruction).

Definition ir_bin_op_id_str (op_id : IrBinOp) : M string :=
  match op_id with
  | IrBinOpInvalid => zig_unreachable
  | IrBinOpBoolOr => ret "BoolOr"
  | IrBinOpBoolAnd => ret "BoolAnd"
  | IrBinOpCmpEq => ret "=="
  | IrBinOpCmpNotEq => ret "!="
  | IrBinOpCmpLessThan => ret "<"
  | IrBinOpCmpGreaterThan => ret ">"
  | IrBinOpCmpLessOrEq => ret "<="
  | IrBinOpCmpGreaterOrEq => ret ">="
  | IrBinOpBinOr => ret "|"
  | IrBinOpBinXor => ret "^"
  | IrBinOpBinAnd => ret "&"
  | IrBinOpBitShiftLeft => ret "<<"
  | IrBinOpBitShiftLeftWrap => ret "<<%"
  | IrBinOpBitShiftRight => ret ">>"
  | IrBinOpAdd => ret "+"
  | IrBinOpAddWrap => ret "+%"
  | IrBinOpSub => ret "-"
  | IrBinOpSubWrap => ret "-%"
  | IrBinOpMult => ret "*"
  | IrBinOpMultWrap => ret "*%"
  | IrBinOpDiv => ret "/"
  | IrBinOpMod => ret "%"
  | IrBinOpArrayCat => ret "++"
  | IrBinOpArrayMult => ret "**"
  end.

Definition ir_un_op_id_str (op_id : IrUnOp) : M string :=
  match op_id with
  | IrUnOpInvalid => zig_unreachable
  | IrUnOpBoolNot => ret "!"
  | IrUnOpBinNot => ret "~"
  | IrUnOpNegation => ret "-"
  | IrUnOpNegationWrap => ret "-%"
  | IrUnOpAddressOf => ret "&"
  | IrUnOpConstAddressOf => ret "&const"
  | IrUnOpDereference => ret "*"
  | IrUnOpMaybe => ret "?"
  | IrUnOpError => ret "%"
  | IrUnOpUnwrapError => ret "%%"
  | IrUnOpUnwrapMaybe => ret "??"
  | IrUnOpMaybeReturn => ret "?return"
  | IrUnOpErrorReturn => ret "%return"
  end.

Definition ir_print_un_op (irp : IrPrint) (un_op_instruction : IrInstructionUnOp)
  : M unit :=
  op <- ir_un_op_id_str (un_op_op_id un_op_instruction) ;;
  fprintf (op ++ " ") ;;
  ir_print_other_instruction irp (un_op_value un_op_instruction).

Definition ir_print_bin_op (irp : IrPrint) (bin_op_instruction : IrInstructionBinOp)
  : M unit :=
  ir_print_other_instruction irp (bin_op_op1 bin_op_instruction) ;;
  op <- ir_bin_op_id_str (bin_op_op_id bin_op_instruction) ;;
  fprintf (" " ++ op ++ " ") ;;
  ir_print_other_instruction irp (bin_op_op2 bin_op_instruction).

Definition ir_print_decl_var (irp : IrPrint)
    (decl_var_instruction : IrInstructionDeclVar) : M unit :=
  let var := decl_var_var decl_var_instruction in
  let inline_kw := if is_inline var then "inline " else "" in
  let var_or_const := if gen_is_const var then "const" else "var" in
  let name := var_name var in
  match decl_var_var_type decl_var_instruction with
  | Some var_type =>
      fprintf (inline_kw ++ var_or_const ++ " " ++ name ++ ": ") ;;
      ir_print_other_instruction irp var_type ;;
      fprintf " = "
  | None =>
      fprintf (inline_kw ++ var_or_const ++ " " ++ name ++ " = ")
  end ;;
  ir_print_other_instruction irp (decl_var_init_value decl_var_instruction).

Definition ir_print_cast (irp : IrPrint) (cast_instruction : IrInstructionCast)
  : M unit :=
  fprintf "cast " ;;
  ir_print_other_instruction irp (cast_value cast_instruction) ;;
  fprintf (" to " ++ type_name (cast_dest_type cast_instruction)).

Definition ir_print_call (irp : IrPrint) (call_instruction : IrInstructionCall)
  : M unit :=
  match call_fn_entry call_instruction with
  | Some fn_entry => fprintf (symbol_name fn_entry)
  | None =>
      assert (is_some (call_fn_ref call_instruction)) "call_instruction->fn_ref" ;;
      fn_ref <- deref (call_fn_ref call_instruction) ;;
      ir_print_other_instruction irp fn_ref
  end ;;
  fprintf "(" ;;
  for_loop (call_arg_count call_instruction) (fun i =>
    arg <- at_index (call_args call_instruction) i ;;
    (if negb (i =? 0) then fprintf ", " else ret tt) ;;
    ir_print_other_instruction irp arg) ;;
  fprintf ")".

Definition ir_print_cond_br (irp : IrPrint)
    (cond_br_instruction : IrInstructionCondBr) : M unit :=
  let inline_kw := if cond_br_is_inline cond_br_instruction then "inline " else "" in
  fprintf (inline_kw ++ "if (") ;;
  ir_print_other_instruction irp (cond_br_condition cond_br_instruction) ;;
  fprintf ") " ;;
  ir_print_other_block irp (cond_br_then_block cond_br_instruction) ;;
  fprintf " else " ;;
  ir_print_other_block irp (cond_br_else_block cond_br_instruction).

Definition ir_print_br (irp : IrPrint) (br_instruction : IrInstructionBr) : M unit :=
  let inline_kw := if br_is_inline br_instruction then "inline " else "" in
  fprintf (inline_kw ++ "goto ") ;;
  ir_print_other_block irp (br_dest_block br_instruction).

Definition ir_print_phi (irp : IrPrint) (phi_instruction : IrInstructionPhi)
  : M unit :=
  assert (negb (incoming_count phi_instruction =? 0))
         "phi_instruction->incoming_count != 0" ;;
  assert (negb (incoming_count phi_instruction =? SIZE_MAX))
         "phi_instruction->incoming_count != SIZE_MAX" ;;
  for_loop (incoming_count phi_instruction) (fun i =>
    incoming_block <- at_index (incoming_blocks phi_instruction) i ;;
    incoming_value <- at_index (incoming_values phi_instruction) i ;;
    (if negb (i =? 0) then fprintf " " else ret tt) ;;
    ir_print_other_block irp incoming_block ;;
    fprintf ":" ;;
    ir_print_other_instruction irp incoming_value).

Definition ir_print_container_init_list (irp : IrPrint)
    (instruction : IrInstructionContainerInitList) : M unit :=
  ir_print_other_instruction irp (init_list_container_type instruction) ;;
  fprintf "{" ;;
  for_loop (item_count instruction) (fun i =>
    item <- at_index (items instruction) i ;;
    (if negb (i =? 0) then fprintf ", " else ret tt) ;;
    ir_print_other_instruction irp item) ;;
  fprintf "}".

Definition ir_print_container_init_fields (irp : IrPrint)
    (instruction : IrInstructionContainerInitFields) : M unit :=
  ir_print_other_instruction irp (init_fields_container_type instruction) ;;
  fprintf "{" ;;
  for_loop (init_fields_field_count instruction) (fun i =>
    field <- at_index (init_fields_fields instruction) i ;;
    let comma := if i =? 0 then "" else ", " in
    fprintf (comma ++ "." ++ init_field_name field ++ " = ") ;;
    ir_print_other_instruction irp (init_field_value field)) ;;
  fprintf "} // container init".

Definition ir_print_struct_init (irp : IrPrint)
    (instruction : IrInstructionStructInit) : M unit :=
  fprintf (type_name (struct_init_struct_type instruction) ++ " {") ;;
  for_loop (struct_init_field_count instruction) (fun i =>
    field <- at_index (struct_init_fields instruction) i ;;
    let field_name := struct_field_name (type_struct_field field) in
    let comma := if i =? 0 then "" else ", " in
    fprintf (comma ++ "." ++ field_name ++ " = ") ;;
    ir_print_other_instruction irp (struct_init_field_value field)) ;;
  fprintf "} // struct init".

Definition ir_print_unreachable (irp : IrPrint)
    (instruction : IrInstructionUnreachable) : M unit :=
  fprintf "unreachable".

Definition ir_print_elem_ptr (irp : IrPrint) (instruction : IrInstructionElemPtr)
  : M unit :=
  fprintf "&" ;;
  ir_print_other_instruction irp (elem_ptr_array_ptr instruction) ;;
  fprintf "[" ;;
  ir_print_other_instruction irp (elem_ptr_elem_index instruction) ;;
  fprintf "]" ;;
  if negb (elem_ptr_safety_check_on instruction) then fprintf " // no safety"
  else ret tt.

Definition ir_print_var_ptr (irp : IrPrint) (instruction : IrInstructionVarPtr)
  : M unit :=
  fprintf ("&" ++ var_name (var_ptr_var instruction)).

Definition ir_print_load_ptr (irp : IrPrint) (instruction : IrInstructionLoadPtr)
  : M unit :=
  fprintf "*" ;;
  ir_print_other_instruction irp (load_ptr_ptr instruction).

Definition ir_print_store_ptr (irp : IrPrint) (instruction : IrInstructionStorePtr)
  : M unit :=
  fprintf "*" ;;
  ir_print_var_instruction irp (store_ptr_ptr instruction) ;;
  fprintf " = " ;;
  ir_print_other_instruction irp (store_ptr_value instruction).

Definition ir_print_typeof (irp : IrPrint) (instruction : IrInstructionTypeOf)
  : M unit :=
  fprintf "@typeOf(" ;;
  ir_print_other_instruction irp (typeof_value instruction) ;;
  fprintf ")".

Definition ir_print_to_ptr_type (irp : IrPrint)
    (instruction : IrInstructionToPtrType) : M unit :=
  fprintf "@toPtrType(" ;;
  ir_print_other_instruction irp (to_ptr_type_value instruction) ;;
  fprintf ")".

Definition ir_print_ptr_type_child (irp : IrPrint)
    (instruction : IrInstructionPtrTypeChild) : M unit :=
  fprintf "@ptrTypeChild(" ;;
  ir_print_other_instruction irp (ptr_type_child_value instruction) ;;
  fprintf ")".

Definition ir_print_field_ptr (irp : IrPrint) (instruction : IrInstructionFieldPtr)
  : M unit :=
  fprintf "fieldptr " ;;
  ir_print_other_instruction irp (field_ptr_container_ptr instruction) ;;
  fprintf ("." ++ field_ptr_field_name instruction).

Definition ir_print_struct_field_ptr (irp : IrPrint)
    (instruction : IrInstructionStructFieldPtr) : M unit :=
  fprintf "@StructFieldPtr(&" ;;
  ir_print_other_instruction irp (struct_field_ptr_struct_ptr instruction) ;;
  fprintf ("." ++ struct_field_name (struct_field_ptr_field instruction)) ;;
  fprintf ")".

Definition ir_print_enum_field_ptr (irp : IrPrint)
    (instruction : IrInstructionEnumFieldPtr) : M unit :=
  fprintf "@EnumFieldPtr(&" ;;
  ir_print_other_instruction irp (enum_field_ptr_enum_ptr instruction) ;;
  fprintf ("." ++ enum_field_name (enum_field_ptr_field instruction)) ;;
  fprintf ")".

Definition ir_print_set_fn_test (irp : IrPrint)
    (instruction : IrInstructionSetFnTest) : M unit :=
  fprintf "@setFnTest(" ;;
  ir_print_other_instruction irp (set_fn_test_fn_value instruction) ;;
  fprintf ", " ;;
  ir_print_other_instruction irp (set_fn_test_is_test instruction) ;;
  fprintf ")".

Definition ir_print_set_fn_visible (irp : IrPrint)
    (instruction : IrInstructionSetFnVisible) : M unit :=
  fprintf "@setFnVisible(" ;;
  ir_print_other_instruction irp (set_fn_visible_fn_value instruction) ;;
  fprintf ", " ;;
  ir_print_other_instruction irp (set_fn_visible_is_visible instruction) ;;
  fprintf ")".

Definition ir_print_set_debug_safety (irp : IrPrint)
    (instruction : IrInstructionSetDebugSafety) : M unit :=
  fprintf "@setDebugSafety(" ;;
  ir_print_other_instruction irp (set_debug_safety_scope_value instruction) ;;
  fprintf ", " ;;
  ir_print_other_instruction irp (set_debug_safety_debug_safety_on instruction) ;;
  fprintf ")".

Definition ir_print_array_type (irp : IrPrint)
    (instruction : IrInstructionArrayType) : M unit :=
  fprintf "[" ;;
  ir_print_other_instruction irp (array_type_size instruction) ;;
  fprintf "]" ;;
  ir_print_other_instruction irp (array_type_child_type instruction).

Definition ir_print_slice_type (irp : IrPrint)
    (instruction : IrInstructionSliceType) : M unit :=
  let const_kw := if slice_type_is_const instruction then "const " else "" in
  fprintf ("[]" ++ const_kw) ;;
  ir_print_other_instruction irp (slice_type_child_type instruction).

Definition quote : string := String (ascii_of_nat 34) "".

Definition ir_print_asm (irp : IrPrint) (instruction : IrInstructionAsm) : M unit :=
  assert (match type (source_node (asm_base instruction)) with
          | NodeTypeAsmExpr => true
          | _ => false
          end)
         "instruction->base.source_node->type == NodeTypeAsmExpr" ;;
  let asm_expr := asm_expr (source_node (asm_base instruction)) in
  let volatile_kw := if asm_has_side_effects instruction then " volatile" else "" in
  fprintf ("asm" ++ volatile_kw ++ " (" ++ quote ++ asm_template asm_expr ++ quote
           ++ ") : ") ;;
  for_loop (N.of_nat (length (output_list asm_expr))) (fun i =>
    asm_output <- at_index (output_list asm_expr) i ;;
    (if negb (i =? 0) then fprintf ", " else ret tt) ;;
    fprintf ("[" ++ output_asm_symbolic_name asm_output ++ "] " ++ quote
             ++ output_constraint asm_output ++ quote ++ " (") ;;
    (if return_type asm_output then
       fprintf "-> " ;;
       output_type <- at_index (asm_output_types instruction) i ;;
       output_type <- deref output_type ;;
       ir_print_other_instruction irp output_type
     else
       fprintf (variable_name asm_output)) ;;
    fprintf ")") ;;
  fprintf " : " ;;
  for_loop (N.of_nat (length (input_list asm_expr))) (fun i =>
    asm_input <- at_index (input_list asm_expr) i ;;
    (if negb (i =? 0) then fprintf ", " else ret tt) ;;
    fprintf ("[" ++ input_asm_symbolic_name asm_input ++ "] " ++ quote
             ++ input_constraint asm_input ++ quote ++ " (") ;;
    input <- at_index (asm_input_list instruction) i ;;
    ir_print_other_instruction irp input ;;
    fprintf ")") ;;
  fprintf " : " ;;
  for_loop (N.of_nat (length (clobber_list asm_expr))) (fun i =>
    reg_name <- at_index (clobber_list asm_expr) i ;;
    (if negb (i =? 0) then fprintf ", " else ret tt) ;;
    fprintf (quote ++ reg_name ++ quote)) ;;
  fprintf ")".

Definition ir_print_compile_var (irp : IrPrint)
    (instruction : IrInstructionCompileVar) : M unit :=
  fprintf "@compileVar(" ;;
  ir_print_other_instruction irp (compile_var_name instruction) ;;
  fprintf ")".

Definition ir_print_size_of (irp : IrPrint) (instruction : IrInstructionSizeOf)
  : M unit :=
  fprintf "@sizeOf(" ;;
  ir_print_other_instruction irp (size_of_type_value instruction) ;;
  fprintf ")".

Definition ir_print_test_null (irp : IrPrint) (instruction : IrInstructionTestNull)
  : M unit :=
  fprintf "*" ;;
  ir_print_other_instruction irp (test_null_value instruction) ;;
  fprintf " == null".

Definition ir_print_unwrap_maybe (irp : IrPrint)
    (instruction : IrInstructionUnwrapMaybe) : M unit :=
  fprintf "&??*" ;;
  ir_print_other_instruction irp (unwrap_maybe_value instruction) ;;
  if negb (unwrap_maybe_safety_check_on instruction) then fprintf " // no safety"
  else ret tt.

Definition ir_print_clz (irp : IrPrint) (instruction : IrInstructionClz) : M unit :=
  fprintf "@clz(" ;;
  ir_print_other_instruction irp (clz_value instruction) ;;
  fprintf ")".

Definition ir_print_ctz (irp : IrPrint) (instruction : IrInstructionCtz) : M unit :=
  fprintf "@ctz(" ;;
  ir_print_other_instruction irp (ctz_value instruction) ;;
  fprintf ")".

Definition ir_print_switch_br (irp : IrPrint) (instruction : IrInstructionSwitchBr)
  : M unit :=
  let inline_kw := if switch_br_is_inline instruction then "inline " else "" in
  fprintf (inline_kw ++ "switch (") ;;
  ir_print_other_instruction irp (switch_br_target_value instruction) ;;
  fprintf ") " ;;
  for_loop (switch_br_case_count instruction) (fun i =>
    this_case <- at_index (switch_br_cases instruction) i ;;
    ir_print_other_instruction irp (case_value this_case) ;;
    fprintf " => " ;;
    ir_print_other_block irp (case_block this_case) ;;
    fprintf ", ") ;;
  fprintf "else => " ;;
  ir_print_other_block irp (switch_br_else_block instruction).

Definition ir_print_switch_var (irp : IrPrint)
    (instruction : IrInstructionSwitchVar) : M unit :=
  fprintf "switchvar " ;;
  ir_print_other_instruction irp (switch_var_target_value_ptr instruction) ;;
  fprintf ", " ;;
  ir_print_other_instruction irp (switch_var_prong_value instruction).

Definition ir_print_switch_target (irp : IrPrint)
    (instruction : IrInstructionSwitchTarget) : M unit :=
  fprintf "switchtarget " ;;
  ir_print_other_instruction irp (switch_target_target_value_ptr instruction).

Definition ir_print_enum_tag (irp : IrPrint) (instruction : IrInstructionEnumTag)
  : M unit :=
  fprintf "enumtag " ;;
  ir_print_other_instruction irp (enum_tag_value instruction).

Definition ir_print_static_eval (irp : IrPrint)
    (instruction : IrInstructionStaticEval) : M unit :=
  fprintf "@staticEval(" ;;
  ir_print_other_instruction irp (static_eval_value instruction) ;;
  fprintf ")".

Definition ir_print_import (irp : IrPrint) (instruction : IrInstructionImport)
  : M unit :=
  fprintf "@import(" ;;
  ir_print_other_instruction irp (import_name instruction) ;;
  fprintf ")".

Definition ir_print_array_len (irp : IrPrint) (instruction : IrInstructionArrayLen)
  : M unit :=
  ir_print_other_instruction irp (array_len_array_value instruction) ;;
  fprintf ".len".

Definition ir_print_ref (irp : IrPrint) (instruction : IrInstructionRef) : M unit :=
  fprintf "ref " ;;
  ir_print_other_instruction irp (ref_value instruction).

Definition ir_print_instruction (irp : IrPrint) (instruction : IrInstructionNode)
  : M unit :=
  ir_print_prefix irp (base_of instruction) ;;
  match instruction with
  | IrInstructionIdInvalid _ => zig_unreachable
  | IrInstructionIdReturn i => ir_print_return irp i
  | IrInstructionIdConst i => ir_print_const irp i
  | IrInstructionIdBinOp i => ir_print_bin_op irp i
  | IrInstructionIdDeclVar i => ir_print_decl_var irp i
  | IrInstructionIdCast i => ir_print_cast irp i
  | IrInstructionIdCall i => ir_print_call irp i
  | IrInstructionIdUnOp i => ir_print_un_op irp i
  | IrInstructionIdCondBr i => ir_print_cond_br irp i
  | IrInstructionIdBr i => ir_print_br irp i
  | IrInstructionIdPhi i => ir_print_phi irp i
  | IrInstructionIdContainerInitList i => ir_print_container_init_list irp i
  | IrInstructionIdContainerInitFields i => ir_print_container_init_fields irp i
  | IrInstructionIdStructInit i => ir_print_struct_init irp i
  | IrInstructionIdUnreachable i => ir_print_unreachable irp i
  | IrInstructionIdElemPtr i => ir_print_elem_ptr irp i
  | IrInstructionIdVarPtr i => ir_print_var_ptr irp i
  | IrInstructionIdLoadPtr i => ir_print_load_ptr irp i
  | IrInstructionIdStorePtr i => ir_print_store_ptr irp i
  | IrInstructionIdTypeOf i => ir_print_typeof irp i
  | IrInstructionIdToPtrType i => ir_print_to_ptr_type irp i
  | IrInstructionIdPtrTypeChild i => ir_print_ptr_type_child irp i
  | IrInstructionIdFieldPtr i => ir_print_field_ptr irp i
  | IrInstructionIdStructFieldPtr i => ir_print_struct_field_ptr irp i
  | IrInstructionIdEnumFieldPtr i => ir_print_enum_field_ptr irp i
  | IrInstructionIdSetFnTest i => ir_print_set_fn_test irp i
  | IrInstructionIdSetFnVisible i => ir_print_set_fn_visible irp i
  | IrInstructionIdSetDebugSafety i => ir_print_set_debug_safety irp i
  | IrInstructionIdArrayType i => ir_print_array_type irp i
  | IrInstructionIdSliceType i => ir_print_slice_type irp i
  | IrInstructionIdAsm i => ir_print_asm irp i
  | IrInstructionIdCompileVar i => ir_print_compile_var irp i
  | IrInstructionIdSizeOf i => ir_print_size_of irp i
  | IrInstructionIdTestNull i => ir_print_test_null irp i
  | IrInstructionIdUnwrapMaybe i => ir_print_unwrap_maybe irp i
  | IrInstructionIdCtz i => ir_print_ctz irp i
  | IrInstructionIdClz i => ir_print_clz irp i
  | IrInstructionIdSwitchBr i => ir_print_switch_br irp i
  | IrInstructionIdSwitchVar i => ir_print_switch_var irp i
  | IrInstructionIdSwitchTarget i => ir_print_switch_target irp i
  | IrInstructionIdEnumTag i => ir_print_enum_tag irp i
  | IrInstructionIdStaticEval i => ir_print_static_eval irp i
  | IrInstructionIdImport i => ir_print_import irp i
  | IrInstructionIdArrayLen i => ir_print_array_len irp i
  | IrInstructionIdRef i => ir_print_ref irp i
  end ;;
  fprintf newline.

(** [ir_print(f, executable, indent_size)]: the text written to [f]. *)
Definition ir_print (executable : IrExecutable) (indent_size : Z) : M unit :=
  let irp := {| indent := indent_size; indent_size := indent_size |} in
  for_loop (N.of_nat (length (basic_block_list executable))) (fun bb_i =>
    current_block <- at_index (basic_block_list executable) bb_i ;;
    fprintf (name_hint (block_ref current_block) ++ "_"
             ++ dec (block_debug_id (block_ref current_block)) ++ ":" ++ newline) ;;
    for_loop (N.of_nat (length (instruction_list current_block))) (fun instr_i =>
      instruction <- at_index (instruction_list current_block) instr_i ;;
      ir_print_instruction irp instruction)).

(** ** Reading the output *)

(** [t] occurs in [s]; [s] ends with [suffix]. *)
Definition occurs_in (t s : string) : Prop :=
  exists before after, s = before ++ t ++ after.

Definition ends_with (suffix s : string) : Prop :=
  exists before, s = before ++ suffix.

(** The type column with the placeholder of an unresolved type spelled
    [unknown], without the parentheses the printer writes. *)
Definition type_column_unknown (instruction : IrInstruction) : string :=
  pad_right 12 match type_entry instruction with
               | Some type_entry => type_name type_entry
               | None => "unknown"
               end.

(** The aborts the constant-value renderer can end in. *)
Definition value_fatal (e : Fatal) : Prop :=
  e = Unreachable \/ e = InvalidAccess
  \/ e = AssertionFailed "bignum->kind == BigNumKindInt"
  \/ e = AssertionFailed "bignum->kind == BigNumKindFloat".

(** One incoming edge of a phi whose incoming value is a runtime
    instruction: the block, a colon, the reference to the value. *)
Definition phi_edge_text (edge : IrBasicBlockRef * IrInstruction) : string :=
  "$" ++ name_hint (fst edge) ++ "_" ++ dec (block_debug_id (fst edge))
  ++ ":" ++ "#" ++ dec (debug_id (snd edge)).

Definition is_runtime_instruction (instruction : IrInstruction) : Prop :=
  special (static_value instruction) = ConstValSpecialRuntime.

(** The last character of a text. *)
Fixpoint last_char (s : string) : option ascii :=
  match s with
  | "" => None
  | String c "" => Some c
  | String _ s' => last_char s'
  end.

(** The line of an instruction, without indent. *)
Definition instruction_line (instruction : IrInstructionNode) : string :=
  text (ir_print_instruction {| indent := 0; indent_size := 0 |} instruction).

(** The label of a block and the lines of its instructions, each behind
    [n] blanks. *)
Definition block_text (n : nat) (block : IrBasicBlock) : string :=
  name_hint (block_ref block) ++ "_" ++ dec (block_debug_id (block_ref block))
  ++ ":" ++ newline
  ++ String.concat ""
       (map (fun instruction => spaces n ++ instruction_line instruction)
          (instruction_list block)).

(** ** Loops, by their elements *)

(** A loop whose body only writes. *)
Fixpoint texts_from (fuel : nat) (i : N) (piece : N -> string) : string :=
  match fuel with
  | O => ""
  | S fuel' => piece i ++ texts_from fuel' (i + 1) piece
  end.

(** The traversal of a [ZigList]: one call of [f] per element, in order. *)
Fixpoint for_each {A} (l : list A) (f : A -> M unit) : M unit :=
  match l with
  | [] => ret tt
  | x :: l' => f x ;; for_each l' f
  end.

(** The traversal of two arrays of the same length by one index. *)
Fixpoint for_each2_from {A B} (i : N) (la : list A) (lb : list B)
    (f : N -> A -> B -> M unit) : M unit :=
  match la, lb with
  | a :: la', b :: lb' => f i a b ;; for_each2_from (i + 1) la' lb' f
  | _, _ => ret tt
  end.

(** ** The operands of an instruction *)

(** [map_operands f instruction] is the instruction with [f operand] in
    the place of every operand [operand]: of every [IrInstruction *] the
    instruction struct holds, its own [base] apart. *)
Definition map_operands (f : IrInstruction -> IrInstruction)
    (instruction : IrInstructionNode) : IrInstructionNode :=
  match instruction with
  | IrInstructionIdInvalid base => IrInstructionIdInvalid base
  | IrInstructionIdReturn i =>
      IrInstructionIdReturn
        {| return_base := return_base i;
           return_value := option_map f (return_value i) |}
  | IrInstructionIdConst i => IrInstructionIdConst i
  | IrInstructionIdBinOp i =>
      IrInstructionIdBinOp
        {| bin_op_base := bin_op_base i;
           bin_op_op1 := f (bin_op_op1 i);
           bin_op_op_id := bin_op_op_id i;
           bin_op_op2 := f (bin_op_op2 i) |}
  | IrInstructionIdDeclVar i =>
      IrInstructionIdDeclVar
        {| decl_var_base := decl_var_base i;
           decl_var_var := decl_var_var i;
           decl_var_var_type := option_map f (decl_var_var_type i);
           decl_var_init_value := f (decl_var_init_value i) |}
  | IrInstructionIdCast i =>
      IrInstructionIdCast
        {| cast_base := cast_base i;
           cast_value := f (cast_value i);
           cast_dest_type := cast_dest_type i |}
  | IrInstructionIdCall i =>
      IrInstructionIdCall
        {| call_base := call_base i;
           call_fn_ref := option_map f (call_fn_ref i);
           call_fn_entry := call_fn_entry i;
           call_arg_count := call_arg_count i;
           call_args := map f (call_args i) |}
  | IrInstructionIdUnOp i =>
      IrInstructionIdUnOp
        {| un_op_base := un_op_base i;
           un_op_op_id := un_op_op_id i;
           un_op_value := f (un_op_value i) |}
  | IrInstructionIdCondBr i =>
      IrInstructionIdCondBr
        {| cond_br_base := cond_br_base i;
           cond_br_condition := f (cond_br_condition i);
           cond_br_then_block := cond_br_then_block i;
           cond_br_else_block := cond_br_else_block i;
           cond_br_is_inline := cond_br_is_inline i |}
  | IrInstructionIdBr i => IrInstructionIdBr i
  | IrInstructionIdPhi i =>
      IrInstructionIdPhi
        {| phi_base := phi_base i;
           incoming_count := incoming_count i;
           incoming_blocks := incoming_blocks i;
           incoming_values := map f (incoming_values i) |}
  | IrInstructionIdContainerInitList i =>
      IrInstructionIdContainerInitList
        {| init_list_base := init_list_base i;
           init_list_container_type := f (init_list_container_type i);
           item_count := item_count i;
           items := map f (items i) |}
  | IrInstructionIdContainerInitFields i =>
      IrInstructionIdContainerInitFields
        {| init_fields_base := init_fields_base i;
           init_fields_container_type := f (init_fields_container_type i);
           init_fields_field_count := init_fields_field_count i;
           init_fields_fields :=
             map (fun field =>
                    {| init_field_name := init_field_name field;
                       init_field_value := f (init_field_value field) |})
               (init_fields_fields i) |}
  | IrInstructionIdStructInit i =>
      IrInstructionIdStructInit
        {| struct_init_base := struct_init_base i;
           struct_init_struct_type := struct_init_struct_type i;
           struct_init_field_count := struct_init_field_count i;
           struct_init_fields :=
             map (fun field =>
                    {| struct_init_field_value := f (struct_init_field_value field);
                       type_struct_field := type_struct_field field |})
               (struct_init_fields i) |}
  | IrInstructionIdUnreachable i => IrInstructionIdUnreachable i
  | IrInstructionIdElemPtr i =>
      IrInstructionIdElemPtr
        {| elem_ptr_base := elem_ptr_base i;
           elem_ptr_array_ptr := f (elem_ptr_array_ptr i);
           elem_ptr_elem_index := f (elem_ptr_elem_index i);
           elem_ptr_safety_check_on := elem_ptr_safety_check_on i |}
  | IrInstructionIdVarPtr i => IrInstructionIdVarPtr i
  | IrInstructionIdLoadPtr i =>
      IrInstructionIdLoadPtr
        {| load_ptr_base := load_ptr_base i;
           load_ptr_ptr := f (load_ptr_ptr i) |}
  | IrInstructionIdStorePtr i =>
      IrInstructionIdStorePtr
        {| store_ptr_base := store_ptr_base i;
           store_ptr_ptr := f (store_ptr_ptr i);
           store_ptr_value := f (store_ptr_value i) |}
  | IrInstructionIdTypeOf i =>
      IrInstructionIdTypeOf
        {| typeof_base := typeof_base i; typeof_value := f (typeof_value i) |}
  | IrInstructionIdToPtrType i =>
      IrInstructionIdToPtrType
        {| to_ptr_type_base := to_ptr_type_base i;
           to_ptr_type_value := f (to_ptr_type_value i) |}
  | IrInstructionIdPtrTypeChild i =>
      IrInstructionIdPtrTypeChild
        {| ptr_type_child_base := ptr_type_child_base i;
           ptr_type_child_value := f (ptr_type_child_value i) |}
  | IrInstructionIdFieldPtr i =>
      IrInstructionIdFieldPtr
        {| field_ptr_base := field_ptr_base i;
           field_ptr_container_ptr := f (field_ptr_container_ptr i);
           field_ptr_field_name := field_ptr_field_name i |}
  | IrInstructionIdStructFieldPtr i =>
      IrInstructionIdStructFieldPtr
        {| struct_field_ptr_base := struct_field_ptr_base i;
           struct_field_ptr_struct_ptr := f (struct_field_ptr_struct_ptr i);
           struct_field_ptr_field := struct_field_ptr_field i |}
  | IrInstructionIdEnumFieldPtr i =>
      IrInstructionIdEnumFieldPtr
        {| enum_field_ptr_base := enum_field_ptr_base i;
           enum_field_ptr_enum_ptr := f (enum_field_ptr_enum_ptr i);
           enum_field_ptr_field := enum_field_ptr_field i |}
  | IrInstructionIdSetFnTest i =>
      IrInstructionIdSetFnTest
        {| set_fn_test_base := set_fn_test_base i;
           set_fn_test_fn_value := f (set_fn_test_fn_value i);
           set_fn_test_is_test := f (set_fn_test_is_test i) |}
  | IrInstructionIdSetFnVisible i =>
      IrInstructionIdSetFnVisible
        {| set_fn_visible_base := set_fn_visible_base i;
           set_fn_visible_fn_value := f (set_fn_visible_fn_value i);
           set_fn_visible_is_visible := f (set_fn_visible_is_visible i) |}
  | IrInstructionIdSetDebugSafety i =>
      IrInstructionIdSetDebugSafety
        {| set_debug_safety_base := set_debug_safety_base i;
           set_debug_safety_scope_value := f (set_debug_safety_scope_value i);
           set_debug_safety_debug_safety_on :=
             f (set_debug_safety_debug_safety_on i) |}
  | IrInstructionIdArrayType i =>
      IrInstructionIdArrayType
        {| array_type_base := array_type_base i;
           array_type_size := f (array_type_size i);
           array_type_child_type := f (array_type_child_type i) |}
  | IrInstructionIdSliceType i =>
      IrInstructionIdSliceType
        {| slice_type_base := slice_type_base i;
           slice_type_is_const := slice_type_is_const i;
           slice_type_child_type := f (slice_type_child_type i) |}
  | IrInstructionIdAsm i =>
      IrInstructionIdAsm
        {| asm_base := asm_base i;
           asm_input_list := map f (asm_input_list i);
           asm_output_types := map (option_map f) (asm_output_types i);
           asm_has_side_effects := asm_has_side_effects i |}
  | IrInstructionIdCompileVar i =>
      IrInstructionIdCompileVar
        {| compile_var_base := compile_var_base i;
           compile_var_name := f (compile_var_name i) |}
  | IrInstructionIdSizeOf i =>
      IrInstructionIdSizeOf
        {| size_of_base := size_of_base i;
           size_of_type_value := f (size_of_type_value i) |}
  | IrInstructionIdTestNull i =>
      IrInstructionIdTestNull
        {| test_null_base := test_null_base i;
           test_null_value := f (test_null_value i) |}
  | IrInstructionIdUnwrapMaybe i =>
      IrInstructionIdUnwrapMaybe
        {| unwrap_maybe_base := unwrap_maybe_base i;
           unwrap_maybe_value := f (unwrap_maybe_value i);
           unwrap_maybe_safety_check_on := unwrap_maybe_safety_check_on i |}
  | IrInstructionIdCtz i =>
      IrInstructionIdCtz {| ctz_base := ctz_base i; ctz_value := f (ctz_value i) |}
  | IrInstructionIdClz i =>
      IrInstructionIdClz {| clz_base := clz_base i; clz_value := f (clz_value i) |}
  | IrInstructionIdSwitchBr i =>
      IrInstructionIdSwitchBr
        {| switch_br_base := switch_br_base i;
           switch_br_target_value := f (switch_br_target_value i);
           switch_br_else_block := switch_br_else_block i;
           switch_br_case_count := switch_br_case_count i;
           switch_br_cases :=
             map (fun this_case =>
                    {| case_value := f (case_value this_case);
                       case_block := case_block this_case |})
               (switch_br_cases i);
           switch_br_is_inline := switch_br_is_inline i |}
  | IrInstructionIdSwitchVar i =>
      IrInstructionIdSwitchVar
        {| switch_var_base := switch_var_base i;
           switch_var_target_value_ptr := f (switch_var_target_value_ptr i);
           switch_var_prong_value := f (switch_var_prong_value i) |}
  | IrInstructionIdSwitchTarget i =>
      IrInstructionIdSwitchTarget
        {| switch_target_base := switch_target_base i;
           switch_target_target_value_ptr :=
             f (switch_target_target_value_ptr i) |}
  | IrInstructionIdEnumTag i =>
      IrInstructionIdEnumTag
        {| enum_tag_base := enum_tag_base i;
           enum_tag_value := f (enum_tag_value i) |}
  | IrInstructionIdStaticEval i =>
      IrInstructionIdStaticEval
        {| static_eval_base := static_eval_base i;
           static_eval_value := f (static_eval_value i) |}
  | IrInstructionIdImport i =>
      IrInstructionIdImport
        {| import_base := import_base i; import_name := f (import_name i) |}
  | IrInstructionIdArrayLen i =>
      IrInstructionIdArrayLen
        {| array_len_base := array_len_base i;
           array_len_array_value := f (array_len_array_value i) |}
  | IrInstructionIdRef i =>
      IrInstructionIdRef {| ref_base := ref_base i; ref_value := f (ref_value i) |}
  end.

(** ** Sample data *)

Definition sample_asm_expr : AstNodeAsmExpr :=
  {| asm_template := ""; output_list := []; input_list := []; clobber_list := [] |}.

Definition sample_node : AstNode :=
  {| type := NodeTypeOther; line := 0; column := 0; asm_expr := sample_asm_expr |}.

Definition bignum_zero : BigNum :=
  {| kind := BigNumKindInt; is_negative := false; x_uint := 0;
     x_float := {| printf_f := "0.000000" |} |}.

Definition runtime_instruction (debug_id : N) : IrInstruction :=
  Build_IrInstruction debug_id None
    (Build_ConstExprValue ConstValSpecialRuntime (x_bignum bignum_zero))
    1 false sample_node.

Definition zeroed_instruction (debug_id : N) : IrInstruction :=
  Build_IrInstruction debug_id None
    (Build_ConstExprValue ConstValSpecialZeroes (x_bignum bignum_zero))
    1 false sample_node.

Definition type_u8 : TypeTableEntry :=
  Build_TypeTableEntry TypeTableEntryIdInt "u8" data_none.

Definition sample_irp : IrPrint := {| indent := 2; indent_size := 2 |}.

(** An instruction of unresolved type, used nowhere, without side
    effects. *)
Definition untyped_instruction : IrInstruction :=
  Build_IrInstruction 5 None
    (Build_ConstExprValue ConstValSpecialRuntime (x_bignum bignum_zero))
    0 false sample_node.

(** An instruction of type [u8] with a given reference count and
    side-effects flag. *)
Definition counted_instruction (ref_count : N) (has_side_effects : bool)
  : IrInstruction :=
  Build_IrInstruction 7 (Some type_u8)
    (Build_ConstExprValue ConstValSpecialRuntime (x_bignum bignum_zero))
    ref_count has_side_effects sample_node.

(** [return 42] at type [i32]; a return has side effects. *)
Definition return_42 : IrInstructionReturn :=
  let type_i32 := Build_TypeTableEntry TypeTableEntryIdInt "i32" data_none in
  let forty_two :=
    {| kind := BigNumKindInt; is_negative := false; x_uint := 42;
       x_float := {| printf_f := "" |} |} in
  {| return_base :=
       Build_IrInstruction 1 (Some type_i32)
         (Build_ConstExprValue ConstValSpecialRuntime (x_bignum bignum_zero))
         0 true sample_node;
     return_value :=
       Some (Build_IrInstruction 0 (Some type_i32)
               (Build_ConstExprValue ConstValSpecialStatic (x_bignum forty_two))
               1 false sample_node) |}.

(** A store through a pointer that is a zeroed constant. *)
Definition store_to_zeroed : IrInstructionStorePtr :=
  {| store_ptr_base := runtime_instruction 9;
     store_ptr_ptr := zeroed_instruction 5;
     store_ptr_value := runtime_instruction 6 |}.

Definition block_then : IrBasicBlockRef :=
  {| name_hint := "then"; block_debug_id := 0 |}.
Definition block_else : IrBasicBlockRef :=
  {| name_hint := "else"; block_debug_id := 1 |}.

Definition phi_then_else : IrInstructionPhi :=
  {| phi_base := runtime_instruction 5;
     incoming_count := 2;
     incoming_blocks := [block_then; block_else];
     incoming_values := [runtime_instruction 3; runtime_instruction 4] |}.

Definition type_array_3_u8 : TypeTableEntry :=
  Build_TypeTableEntry TypeTableEntryIdArray "[3]u8" (data_array type_u8 3).

(** A positional container initialisation [#1{#2, #3}]. *)
Definition init_list_of_two : IrInstructionContainerInitList :=
  {| init_list_base := runtime_instruction 4;
     init_list_container_type := runtime_instruction 1;
     item_count := 2;
     items := [runtime_instruction 2; runtime_instruction 3] |}.

Definition init_fields_of_one : IrInstructionContainerInitFields :=
  {| init_fields_base := runtime_instruction 4;
     init_fields_container_type := runtime_instruction 1;
     init_fields_field_count := 1;
     init_fields_fields :=
       [{| init_field_name := "x"; init_field_value := runtime_instruction 2 |}] |}.

Definition sample_executable : IrExecutable :=
  {| basic_block_list :=
       [{| block_ref := {| name_hint := "Entry"; block_debug_id := 0 |};
           instruction_list :=
             [IrInstructionIdPhi phi_then_else;
              IrInstructionIdStorePtr store_to_zeroed] |};
        {| block_ref := block_then;
           instruction_list :=
             [IrInstructionIdContainerInitList init_list_of_two] |}] |}.

(** An operand with all that a reference does not show, or all that a
    value does not show, replaced: a runtime instruction keeps its debug
    id and gets the type and the value data of [other]; an instruction
    that is not a runtime one keeps its type and its value and gets the
    debug id of [other].  The reference count, the side-effects flag and
    the source node are those of [other]. *)
Definition disguise (other : IrInstruction) (operand : IrInstruction)
  : IrInstruction :=
  match operand, other with
  | Build_IrInstruction debug_id type_entry static_value _ _ _,
    Build_IrInstruction debug_id' type_entry' static_value' ref_count'
      has_side_effects' source_node' =>
      if is_runtime (special static_value) then
        Build_IrInstruction debug_id type_entry'
          (Build_ConstExprValue ConstValSpecialRuntime (data static_value'))
          ref_count' has_side_effects' source_node'
      else
        Build_IrInstruction debug_id' type_entry static_value
          ref_count' has_side_effects' source_node'
  end.

(** A load through a pointer that is a zeroed constant. *)
Definition load_from_zeroed : IrInstructionLoadPtr :=
  {| load_ptr_base := runtime_instruction 9;
     load_ptr_ptr := zeroed_instruction 5 |}.

(** * Further definitions *)

(** ** Digits *)

(** A decimal digit; a text made of decimal digits only; a text that
    starts with a character that is not a digit. *)
Definition is_digit (c : ascii) : bool :=
  (48 <=? N_of_ascii c) && (N_of_ascii c <=? 57).

Fixpoint all_digits (s : string) : bool :=
  match s with
  | "" => true
  | String c s' => is_digit c && all_digits s'
  end.

Definition starts_without_digit (s : string) : Prop :=
  match s with
  | "" => False
  | String c _ => is_digit c = false
  end.

(** The aborts the printer of an instruction can end in: those of the
    constant-value renderer and the assertions of the instruction
    printers. *)
Definition instruction_fatal (e : Fatal) : Prop :=
  value_fatal e
  \/ e = AssertionFailed "return_instruction->value"
  \/ e = AssertionFailed "call_instruction->fn_ref"
  \/ e = AssertionFailed "phi_instruction->incoming_count != 0"
  \/ e = AssertionFailed "phi_instruction->incoming_count != SIZE_MAX"
  \/ e = AssertionFailed "instruction->base.source_node->type == NodeTypeAsmExpr".

(** ** Values that fit their type *)


(** The traversal of an array by its index, from index [i] on. *)
Fixpoint for_each_from {A} (i : N) (l : list A) (f : N -> A -> M unit) : M unit :=
  match l with
  | [] => ret tt
  | x :: l' => f i x ;; for_each_from (i + 1) l' f
  end.

(** The separator written before every element but the first. *)
Definition separator (sep : string) (i : N) : string :=
  if i =? 0 then "" else sep.

(** What a named field of an initialisation is written as, given the
    text of its value. *)
Definition field_text (name value : string) : string :=
  "." ++ name ++ " = " ++ value.

(** What a case of a switch is written as, given the text of its value. *)
Definition case_text (value : string) (block : IrBasicBlockRef) : string :=
  value ++ " => " ++ "$" ++ name_hint block ++ "_" ++ dec (block_debug_id block)
  ++ ", ".

(** The label line of a block. *)
Definition label_text (block : IrBasicBlock) : string :=
  name_hint (block_ref block) ++ "_" ++ dec (block_debug_id (block_ref block))
  ++ ":" ++ newline.

(** The instruction with other output types. *)
Definition with_output_types (instruction : IrInstructionAsm)
    (output_types : list (option IrInstruction)) : IrInstructionAsm :=
  {| asm_base := asm_base instruction;
     asm_input_list := asm_input_list instruction;
     asm_output_types := output_types;
     asm_has_side_effects := asm_has_side_effects instruction |}.

(** [asm volatile ("nop")] with one output, held in the variable [x],
    and one clobber. *)
Definition sample_asm : IrInstructionAsm :=
  {| asm_base :=
       Build_IrInstruction 4 None
         (Build_ConstExprValue ConstValSpecialRuntime (x_bool true)) 0 true
         {| type := NodeTypeAsmExpr; line := 0; column := 0;
            asm_expr :=
              {| asm_template := "nop";
                 output_list :=
                   [{| output_asm_symbolic_name := "ret";
                       output_constraint := "=r";
                       variable_name := "x";
                       return_type := false |}];
                 input_list := [];
                 clobber_list := ["memory"] |} |};
     asm_input_list := [];
     asm_output_types := [];
     asm_has_side_effects := true |}.

(** ** Values the renderer can read *)

(** [readable type_entry const_val]: every read the constant-value
    renderer makes on the way through the value is a read of what is
    there.  Where the renderer reads the type, the type is not null;
    where it reads a member of the union [data] of the value or of the
    type, that member is the active one; and an array holds the elements
    its type counts.  The kind of a number and the evaluation state of
    the nested values are left open: they are what the assertions and
    [zig_unreachable()] look at. *)
Inductive readable : option TypeTableEntry -> ConstExprValue -> Prop :=
| readable_runtime type_entry data :
    readable type_entry (Build_ConstExprValue ConstValSpecialRuntime data)
| readable_undef type_entry data :
    readable type_entry (Build_ConstExprValue ConstValSpecialUndef data)
| readable_zeroes type_entry data :
    readable type_entry (Build_ConstExprValue ConstValSpecialZeroes data)
| readable_static type_entry data :
    readable_data type_entry data ->
    readable (Some type_entry) (Build_ConstExprValue ConstValSpecialStatic data)
with readable_data : TypeTableEntry -> ConstExprValueData -> Prop :=
| read_type_decl name canonical_type data :
    readable_data canonical_type data ->
    readable_data (Build_TypeTableEntry TypeTableEntryIdTypeDecl name
                     (data_type_decl canonical_type)) data
| read_invalid name type_data data :
    readable_data (Build_TypeTableEntry TypeTableEntryIdInvalid name type_data) data
| read_var name type_data data :
    readable_data (Build_TypeTableEntry TypeTableEntryIdVar name type_data) data
| read_void name type_data data :
    readable_data (Build_TypeTableEntry TypeTableEntryIdVoid name type_data) data
| read_num_lit_float name type_data bignum :
    readable_data (Build_TypeTableEntry TypeTableEntryIdNumLitFloat name type_data)
      (x_bignum bignum)
| read_num_lit_int name type_data bignum :
    readable_data (Build_TypeTableEntry TypeTableEntryIdNumLitInt name type_data)
      (x_bignum bignum)
| read_meta_type name type_data t :
    readable_data (Build_TypeTableEntry TypeTableEntryIdMetaType name type_data)
      (x_type t)
| read_int name type_data bignum :
    readable_data (Build_TypeTableEntry TypeTableEntryIdInt name type_data)
      (x_bignum bignum)
| read_float name type_data bignum :
    readable_data (Build_TypeTableEntry TypeTableEntryIdFloat name type_data)
      (x_bignum bignum)
| read_unreachable name type_data data :
    readable_data (Build_TypeTableEntry TypeTableEntryIdUnreachable name type_data)
      data
| read_bool name type_data b :
    readable_data (Build_TypeTableEntry TypeTableEntryIdBool name type_data)
      (x_bool b)
| read_pointer name child_type pointee :
    readable (Some child_type) pointee ->
    readable_data (Build_TypeTableEntry TypeTableEntryIdPointer name
                     (data_pointer child_type)) (x_ptr pointee)
| read_fn name type_data fn :
    readable_data (Build_TypeTableEntry TypeTableEntryIdFn name type_data) (x_fn fn)
| read_block name type_data block :
    readable_data (Build_TypeTableEntry TypeTableEntryIdBlock name type_data)
      (x_block block)
| read_array name child_type len elements :
    len <= N.of_nat (length elements) ->
    Forall (readable (Some child_type)) (firstn (N.to_nat len) elements) ->
    readable_data (Build_TypeTableEntry TypeTableEntryIdArray name
                     (data_array child_type len)) (x_array elements)
| read_array_empty name child_type data :
    readable_data (Build_TypeTableEntry TypeTableEntryIdArray name
                     (data_array child_type 0)) data
| read_null_lit name type_data data :
    readable_data (Build_TypeTableEntry TypeTableEntryIdNullLit name type_data) data
| read_undef_lit name type_data data :
    readable_data (Build_TypeTableEntry TypeTableEntryIdUndefLit name type_data)
      data
| read_maybe_null name type_data :
    readable_data (Build_TypeTableEntry TypeTableEntryIdMaybe name type_data)
      (x_maybe None)
| read_maybe_child name child_type child :
    readable (Some child_type) child ->
    readable_data (Build_TypeTableEntry TypeTableEntryIdMaybe name
                     (data_maybe child_type)) (x_maybe (Some child))
| read_namespace name type_data import :
    readable_data (Build_TypeTableEntry TypeTableEntryIdNamespace name type_data)
      (x_import import)
| read_bound_fn name type_data fn first_arg :
    readable (type_entry first_arg) (static_value first_arg) ->
    readable_data (Build_TypeTableEntry TypeTableEntryIdBoundFn name type_data)
      (x_bound_fn fn first_arg)
| read_struct name type_data data :
    readable_data (Build_TypeTableEntry TypeTableEntryIdStruct name type_data) data
| read_enum name type_data data :
    readable_data (Build_TypeTableEntry TypeTableEntryIdEnum name type_data) data
| read_error_union name type_data data :
    readable_data (Build_TypeTableEntry TypeTableEntryIdErrorUnion name type_data)
      data
| read_union name type_data data :
    readable_data (Build_TypeTableEntry TypeTableEntryIdUnion name type_data) data
| read_pure_error name type_data data :
    readable_data (Build_TypeTableEntry TypeTableEntryIdPureError name type_data)
      data.

(** The aborts of the constant-value renderer on a value it can read. *)
Definition readable_value_fatal (e : Fatal) : Prop :=
  e = Unreachable
  \/ e = AssertionFailed "bignum->kind == BigNumKindInt"
  \/ e = AssertionFailed "bignum->kind == BigNumKindFloat".



(** The integer zero with the sign flag set. *)
Definition bignum_negative_zero : BigNum :=
  {| kind := BigNumKindInt; is_negative := true; x_uint := 0;
     x_float := {| printf_f := "-0.000000" |} |}.

(** The block with other instructions. *)
Definition with_instruction_list (block : IrBasicBlock)
    (instructions : list IrInstructionNode) : IrBasicBlock :=
  {| block_ref := block_ref block; instruction_list := instructions |}.

(** * Properties *)

(** ** Text *)

Lemma append_assoc (a b c : string) : (a ++ b) ++ c = a ++ (b ++ c).
Proof. induction a as [|ch a IH]; simpl; [reflexivity | now rewrite IH]. Qed.

Lemma append_nil_r (a : string) : a ++ "" = a.
Proof. induction a as [|ch a IH]; simpl; [reflexivity | now rewrite IH]. Qed.

Lemma append_inv_head (a b c : string) : a ++ b = a ++ c -> b = c.
Proof. induction a as [|ch a IH]; simpl; intros H; [exact H | injection H; auto]. Qed.

Lemma append_length (a b : string) :
  String.length (a ++ b) = (String.length a + String.length b)%nat.
Proof. induction a as [|ch a IH]; simpl; [reflexivity | now rewrite IH]. Qed.

(** ** The monad *)

Lemma bind_ret_l {A B} (a : A) (k : A -> M B) : (x <- ret a ;; k x) = k a.
Proof. unfold bind, ret. now destruct (k a). Qed.

Lemma bind_ret_r {A} (m : M A) : (x <- m ;; ret x) = m.
Proof.
  destruct m as [s [a | e]]; simpl; [ | reflexivity].
  now rewrite append_nil_r.
Qed.

Lemma bind_assoc {A B C} (m : M A) (k : A -> M B) (h : B -> M C) :
  (y <- (x <- m ;; k x) ;; h y) = (x <- m ;; y <- k x ;; h y).
Proof.
  destruct m as [s [a | e]]; simpl; [ | reflexivity].
  destruct (k a) as [s1 [b | e]]; simpl; [ | reflexivity].
  destruct (h b) as [s2 r]. now rewrite append_assoc.
Qed.

Lemma bind_abort {A B} (e : Fatal) (k : A -> M B) : (x <- abort e ;; k x) = abort e.
Proof. reflexivity. Qed.

Lemma fprintf_bind {B} (s : string) (k : unit -> M B) :
  (x <- fprintf s ;; k x) = (s ++ text (k tt), outcome (k tt)).
Proof. unfold bind, fprintf, text, outcome. now destruct (k tt). Qed.

Lemma fprintf_fprintf (s1 s2 : string) :
  (fprintf s1 ;; fprintf s2) = fprintf (s1 ++ s2).
Proof. reflexivity. Qed.

Lemma fprintf_empty_bind {B} (m : M B) : (fprintf "" ;; m) = m.
Proof. unfold bind, fprintf. now destruct m. Qed.

Lemma text_bind {A B} (m : M A) (k : A -> M B) (a : A) :
  outcome m = Done a -> text (x <- m ;; k x) = text m ++ text (k a).
Proof.
  destruct m as [s r]; simpl; intros ->. unfold text. simpl.
  now destruct (k a).
Qed.

Lemma outcome_bind {A B} (m : M A) (k : A -> M B) (a : A) :
  outcome m = Done a -> outcome (x <- m ;; k x) = outcome (k a).
Proof.
  destruct m as [s r]; simpl; intros ->. unfold outcome. simpl.
  now destruct (k a).
Qed.

Lemma outcome_bind_abort {A B} (m : M A) (k : A -> M B) (e : Fatal) :
  outcome m = Abort e -> outcome (x <- m ;; k x) = Abort e.
Proof. destruct m as [s r]; simpl; now intros ->. Qed.

(** A sequence that ends well went well in both parts. *)
Lemma bind_done {A B} (m : M A) (k : A -> M B) (b : B) :
  outcome (x <- m ;; k x) = Done b ->
  exists a, outcome m = Done a /\ outcome (k a) = Done b.
Proof.
  destruct m as [s [a | e]]; simpl; [ | discriminate].
  intros H. exists a. split; [reflexivity | ].
  unfold outcome in *. simpl in H. now destruct (k a).
Qed.

(** The text of a sequence starts with the text of its first part. *)
Lemma text_bind_prefix {A B} (m : M A) (k : A -> M B) :
  exists rest, text (x <- m ;; k x) = text m ++ rest.
Proof.
  destruct m as [s [a | e]]; unfold text; simpl.
  - destruct (k a) as [s' r]. now exists s'.
  - exists "". now rewrite append_nil_r.
Qed.

Lemma bind_abort_inv {A B} (m : M A) (k : A -> M B) (e : Fatal) :
  outcome (x <- m ;; k x) = Abort e ->
  outcome m = Abort e \/ exists a, outcome m = Done a /\ outcome (k a) = Abort e.
Proof.
  destruct m as [s [a | e']]; unfold outcome; simpl; intros H.
  - right. exists a. split; [reflexivity | ]. now destruct (k a).
  - left. now injection H as ->.
Qed.

#[global] Arguments bind {A B} m k : simpl never.

(** ** Loops *)

Lemma for_loop_from_S (fuel : nat) (i : N) (body : N -> M unit) :
  for_loop_from (S fuel) i body = (body i ;; for_loop_from fuel (i + 1) body).
Proof. reflexivity. Qed.

Lemma for_loop_from_ext (fuel : nat) (i : N) (body body' : N -> M unit) :
  (forall j, i <= j < i + N.of_nat fuel -> body j = body' j) ->
  for_loop_from fuel i body = for_loop_from fuel i body'.
Proof.
  revert i. induction fuel as [|fuel IH]; intros i H; [reflexivity | ].
  simpl. rewrite (H i) by lia. rewrite (IH (i + 1)); [reflexivity | ].
  intros j Hj. apply H. lia.
Qed.

Lemma for_loop_from_fprintf (fuel : nat) (i : N) (piece : N -> string) :
  for_loop_from fuel i (fun j => fprintf (piece j))
  = fprintf (texts_from fuel i piece).
Proof.
  revert i. induction fuel as [|fuel IH]; intros i; [reflexivity | ].
  simpl. now rewrite IH.
Qed.

Lemma spaces_texts_from (fuel : nat) (i : N) :
  texts_from fuel i (fun _ => " ") = spaces fuel.
Proof.
  revert i. induction fuel as [|fuel IH]; intros i; [reflexivity | ].
  simpl. now rewrite IH.
Qed.

Lemma at_index_app {A} (before : list A) (x : A) (after : list A) :
  at_index (before ++ x :: after)%list (N.of_nat (length before)) = ret x.
Proof.
  unfold at_index. rewrite Nat2N.id, nth_error_app2 by lia.
  now rewrite Nat.sub_diag.
Qed.

Lemma for_loop_from_at_index {A} (before l : list A) (f : A -> M unit) :
  for_loop_from (length l) (N.of_nat (length before))
    (fun i => x <- at_index (before ++ l)%list i ;; f x)
  = for_each l f.
Proof.
  revert before. induction l as [|x l IH]; intros before; [reflexivity | ].
  simpl. rewrite at_index_app, bind_ret_l.
  replace (N.of_nat (length before) + 1)
    with (N.of_nat (length (before ++ [x])%list))
    by (rewrite length_app; simpl; lia).
  replace (before ++ x :: l)%list with ((before ++ [x]) ++ l)%list
    by (now rewrite <- app_assoc).
  now rewrite IH.
Qed.

Lemma for_loop_at_index {A} (l : list A) (f : A -> M unit) :
  for_loop (N.of_nat (length l)) (fun i => x <- at_index l i ;; f x)
  = for_each l f.
Proof.
  unfold for_loop. rewrite Nat2N.id.
  exact (for_loop_from_at_index [] l f).
Qed.

Lemma for_each_done {A} (l : list A) (f : A -> M unit) :
  outcome (for_each l f) = Done tt ->
  Forall (fun x => outcome (f x) = Done tt) l
  /\ text (for_each l f) = String.concat "" (map (fun x => text (f x)) l).
Proof.
  induction l as [|x l IH]; simpl; intros H.
  - split; [constructor | reflexivity].
  - destruct (bind_done _ _ _ H) as [[] [Hx Hl]].
    destruct (IH Hl) as [Hall Htext].
    split; [now constructor | ].
    rewrite (text_bind _ _ tt Hx), Htext.
    destruct l; simpl; [ | reflexivity].
    now rewrite append_nil_r.
Qed.

(** ** Occurrences *)

Lemma substring_prefix (t after : string) :
  substring 0 (String.length t) (t ++ after) = t.
Proof.
  induction t as [|c t IH]; simpl; [now destruct after | now rewrite IH].
Qed.

Lemma substring_append (before t after : string) :
  substring (String.length before) (String.length t) (before ++ t ++ after) = t.
Proof.
  induction before as [|c before IH]; simpl; [apply substring_prefix | exact IH].
Qed.

(** A computed search that finds nothing shows there is no occurrence. *)
Lemma index_None_not_occurs (t s : string) :
  index 0 t s = None -> t <> "" -> ~ occurs_in t s.
Proof.
  intros Hindex Ht (before & after & ->).
  apply (index_correct3 0 (String.length before) t _ Hindex Ht (Nat.le_0_l _)).
  apply substring_append.
Qed.

Lemma ends_with_substring (suffix s : string) :
  ends_with suffix s ->
  substring (String.length s - String.length suffix) (String.length suffix) s
  = suffix.
Proof.
  intros (before & ->). rewrite append_length.
  replace (String.length before + String.length suffix - String.length suffix)%nat
    with (String.length before) by lia.
  pose proof (substring_append before suffix "") as H.
  now rewrite append_nil_r in H.
Qed.

Lemma ends_with_append (suffix a b : string) :
  ends_with suffix b -> ends_with suffix (a ++ b).
Proof.
  intros (before & ->). exists (a ++ before). now rewrite append_assoc.
Qed.

(** ** Constant values and operands *)

(** The call for a declared alias, as the source writes it: the same
    value, printed at the canonical type. *)
Lemma ir_print_const_value_TypeDecl (irp : IrPrint) (name : string)
    (canonical_type : TypeTableEntry) (const_val : ConstExprValue) :
  ir_print_const_value irp
    (Some (Build_TypeTableEntry TypeTableEntryIdTypeDecl name
             (data_type_decl canonical_type)))
    const_val
  = ir_print_const_value irp (Some canonical_type) const_val.
Proof.
  now destruct const_val as [[] data].
Qed.

(** [ir_print_other_instruction], as the source writes it. *)
Lemma ir_print_other_instruction_eq (irp : IrPrint) (instruction : IrInstruction) :
  ir_print_other_instruction irp instruction
  = if negb (is_runtime (special (static_value instruction))) then
      ir_print_const_instruction irp instruction
    else
      ir_print_var_instruction irp instruction.
Proof. now destruct instruction. Qed.

Lemma spaces_length (n : nat) : String.length (spaces n) = n.
Proof. induction n as [|n IH]; simpl; [reflexivity | now rewrite IH]. Qed.

Lemma pad_right_length (width : nat) (s : string) :
  String.length (pad_right width s) = Nat.max width (String.length s).
Proof. unfold pad_right. rewrite append_length, spaces_length. lia. Qed.

(** The call for a pointer, as the source writes it, with
    [const_ptr_pointee]. *)
Lemma ir_print_const_value_Pointer (irp : IrPrint) (name : string)
    (child_type : TypeTableEntry) (const_val : ConstExprValue) :
  special const_val = ConstValSpecialStatic ->
  ir_print_const_value irp
    (Some (Build_TypeTableEntry TypeTableEntryIdPointer name
             (data_pointer child_type)))
    const_val
  = (fprintf "&" ;;
     match const_ptr_pointee const_val with
     | Some pointee => ir_print_const_value irp (Some child_type) pointee
     | None => abort InvalidAccess
     end).
Proof.
  destruct const_val as [special data]. simpl. intros ->.
  rewrite bind_ret_l. now destruct data.
Qed.

Lemma ir_print_indent_eq (irp : IrPrint) :
  ir_print_indent irp = fprintf (spaces (Z.to_nat (indent irp))).
Proof.
  unfold ir_print_indent, for_loop.
  rewrite for_loop_from_fprintf, spaces_texts_from.
  now rewrite Z_N_nat.
Qed.

Lemma ir_print_prefix_text (irp : IrPrint) (instruction : IrInstruction) :
  ir_print_prefix irp instruction
  = fprintf (spaces (Z.to_nat (indent irp))
             ++ "#" ++ pad_right 3 (dec (debug_id instruction)) ++ "| "
             ++ pad_right 12 match type_entry instruction with
                             | Some type_entry => type_name type_entry
                             | None => "(unknown)"
                             end ++ "| "
             ++ pad_right 2 (if ir_has_side_effects instruction then "-"
                             else dec (ref_count instruction)) ++ "| ").
Proof.
  unfold ir_print_prefix. rewrite ir_print_indent_eq. apply fprintf_fprintf.
Qed.

(** C3.  In the constant-value renderer the evaluation state is looked at
    first, whatever the type (a null type included) and whatever the
    union holds: an undefined value is written [undefined], a zeroed value
    [zeroes], and a runtime value stops the process at
    [zig_unreachable()] with nothing written. *)
Theorem const_value_special_first (irp : IrPrint)
    (type_entry : option TypeTableEntry) (data : ConstExprValueData) :
  ir_print_const_value irp type_entry
    (Build_ConstExprValue ConstValSpecialUndef data) = ("undefined", Done tt)
  /\ ir_print_const_value irp type_entry
       (Build_ConstExprValue ConstValSpecialZeroes data) = ("zeroes", Done tt)
  /\ ir_print_const_value irp type_entry
       (Build_ConstExprValue ConstValSpecialRuntime data) = ("", Abort Unreachable).
Proof. repeat split. Qed.

(** C4 (as amended).  The prefix of an instruction line is the indent,
    then [#] and the debug id left-justified in 3 columns, then the name
    of the resolved type, or the placeholder [(unknown)], in parentheses,
    when the type is null, left-justified in 12 columns, then the
    use-count column; each column is followed by a bar and a blank.  A
    column is filled up with blanks to its width, and a longer text is
    written whole. *)
Theorem ir_print_prefix_columns (irp : IrPrint) (instruction : IrInstruction) :
  let id_column := pad_right 3 (dec (debug_id instruction)) in
  let type_name :=
    match type_entry instruction with
    | Some type_entry => type_name type_entry
    | None => "(unknown)"
    end in
  let use_count :=
    if ir_has_side_effects instruction then "-"
    else dec (ref_count instruction) in
  ir_print_prefix irp instruction
  = fprintf (spaces (Z.to_nat (indent irp))
             ++ "#" ++ id_column ++ "| "
             ++ pad_right 12 type_name ++ "| "
             ++ pad_right 2 use_count ++ "| ")
  /\ String.length id_column
     = Nat.max 3 (String.length (dec (debug_id instruction)))
  /\ String.length (pad_right 12 type_name)
     = Nat.max 12 (String.length type_name)
  /\ (type_entry instruction = None ->
      pad_right 12 type_name = "(unknown)   ").
Proof.
  intros id_column type_name use_count.
  split; [apply ir_print_prefix_text | ].
  split; [apply pad_right_length | ].
  split; [apply pad_right_length | ].
  unfold type_name. now intros ->.
Qed.

(** C4, the claim as stated, fails: the prefix of an instruction of
    unresolved type is [  #5  | (unknown)   | 0 | ], in which the
    placeholder [unknown] padded to 12 columns does not occur. *)
Lemma ir_print_prefix_unknown_counterexample :
  type_entry untyped_instruction = None
  /\ text (ir_print_prefix sample_irp untyped_instruction)
     = "  #5  | (unknown)   | 0 | "
  /\ ~ occurs_in (type_column_unknown untyped_instruction)
         (text (ir_print_prefix sample_irp untyped_instruction)).
Proof.
  repeat split.
  apply index_None_not_occurs; [reflexivity | discriminate].
Qed.

(** C5.  The use-count column of the prefix, a field of 2 columns that
    follows the type column, holds [-] when the instruction has side
    effects, whatever its reference count, and the reference count in
    decimal otherwise. *)
Theorem ir_print_prefix_use_count (irp : IrPrint) (instruction : IrInstruction) :
  let before_use_count :=
    spaces (Z.to_nat (indent irp))
    ++ "#" ++ pad_right 3 (dec (debug_id instruction)) ++ "| "
    ++ pad_right 12 match type_entry instruction with
                    | Some type_entry => type_name type_entry
                    | None => "(unknown)"
                    end ++ "| " in
  (ir_has_side_effects instruction = true ->
   ir_print_prefix irp instruction
   = fprintf (before_use_count ++ pad_right 2 "-" ++ "| "))
  /\ (ir_has_side_effects instruction = false ->
      ir_print_prefix irp instruction
      = fprintf (before_use_count
                 ++ pad_right 2 (dec (ref_count instruction)) ++ "| ")).
Proof.
  intros before_use_count. unfold before_use_count.
  rewrite ir_print_prefix_text.
  split; intros ->; now rewrite !append_assoc.
Qed.

Lemma ir_print_prefix_use_count_witness :
  text (ir_print_prefix sample_irp (counted_instruction 0 true))
  = "  #7  | u8          | - | "
  /\ text (ir_print_prefix sample_irp (counted_instruction 5 true))
     = "  #7  | u8          | - | "
  /\ text (ir_print_prefix sample_irp (counted_instruction 5 false))
     = "  #7  | u8          | 5 | ".
Proof.
  split; [ | split].
  - rewrite (proj1 (ir_print_prefix_use_count sample_irp _)); reflexivity.
  - rewrite (proj1 (ir_print_prefix_use_count sample_irp _)); reflexivity.
  - rewrite (proj2 (ir_print_prefix_use_count sample_irp _)); reflexivity.
Defined.

(** C6.  A statically known value of bound-function type is written
    [bound <symbol> to ] followed by the first argument as
    [ir_print_other_instruction] writes an operand; with symbol [foo] and
    a runtime first argument of debug id 7 the text is
    [bound foo to #7]. *)
Theorem const_value_bound_fn (irp : IrPrint) (name : string)
    (type_data : TypeTableEntryData) (fn_entry : FnTableEntry) :
  (forall first_arg : IrInstruction,
     ir_print_const_value irp
       (Some (Build_TypeTableEntry TypeTableEntryIdBoundFn name type_data))
       (Build_ConstExprValue ConstValSpecialStatic (x_bound_fn fn_entry first_arg))
     = (fprintf ("bound " ++ symbol_name fn_entry ++ " to ") ;;
        ir_print_other_instruction irp first_arg))
  /\ (forall type_entry data ref_count has_side_effects source_node,
        symbol_name fn_entry = "foo" ->
        ir_print_const_value irp
          (Some (Build_TypeTableEntry TypeTableEntryIdBoundFn name type_data))
          (Build_ConstExprValue ConstValSpecialStatic
             (x_bound_fn fn_entry
                (Build_IrInstruction 7 type_entry
                   (Build_ConstExprValue ConstValSpecialRuntime data)
                   ref_count has_side_effects source_node)))
        = ("bound foo to #7", Done tt)).
Proof.
  split.
  - intros first_arg. simpl. now rewrite bind_ret_l.
  - intros type_entry data ref_count has_side_effects source_node Hname.
    simpl. rewrite bind_ret_l. simpl. now rewrite Hname.
Qed.

Lemma const_value_bound_fn_witness :
  ir_print_const_value sample_irp
    (Some (Build_TypeTableEntry TypeTableEntryIdBoundFn "(bound fn)" data_none))
    (Build_ConstExprValue ConstValSpecialStatic
       (x_bound_fn {| symbol_name := "foo" |} (runtime_instruction 7)))
  = ("bound foo to #7", Done tt).
Proof.
  apply (proj2 (const_value_bound_fn sample_irp "(bound fn)" data_none
                  {| symbol_name := "foo" |})).
  reflexivity.
Defined.

(** ** Induction on constant values *)

(** Induction along the chain of declared aliases of a type. *)
Lemma TypeTableEntry_alias_ind (P : TypeTableEntry -> Prop) :
  (forall id name data,
     (forall canonical_type, data = data_type_decl canonical_type ->
                             P canonical_type) ->
     P (Build_TypeTableEntry id name data)) ->
  forall t, P t.
Proof.
  intros step. fix IH 1. intros [id name data]. apply step.
  destruct data as [ | canonical_type | | | ]; intros c Heq;
    try discriminate Heq.
  injection Heq as <-. apply IH.
Qed.

(** Induction on a constant value and the values nested in it: the
    pointee, the elements, the child of an optional, and the value of the
    first argument of a bound function. *)
Section ConstExprValue_nested_ind.
Variable P : ConstExprValue -> Prop.
Variable Q : IrInstruction -> Prop.
Hypothesis value_step : forall special data,
  (forall pointee, data = x_ptr pointee -> P pointee) ->
  (forall elements, data = x_array elements -> Forall P elements) ->
  (forall child, data = x_maybe (Some child) -> P child) ->
  (forall fn first_arg, data = x_bound_fn fn first_arg -> Q first_arg) ->
  P (Build_ConstExprValue special data).
Hypothesis instruction_step : forall instruction,
  P (static_value instruction) -> Q instruction.

Lemma ConstExprValue_nested_ind : forall v : ConstExprValue, P v
with IrInstruction_nested_ind : forall i : IrInstruction, Q i.
Proof.
  - intros v. destruct v as [special data]. apply value_step.
    + destruct data; intros p Heq; try discriminate Heq.
      injection Heq as <-. apply ConstExprValue_nested_ind.
    + destruct data; intros l Heq; try discriminate Heq.
      injection Heq as <-.
      induction elements as [|x elements IH]; constructor.
      * apply ConstExprValue_nested_ind.
      * exact IH.
    + destruct data as [ | | | | | | | [child|] | | ]; intros c Heq;
        try discriminate Heq.
      injection Heq as <-. apply ConstExprValue_nested_ind.
    + destruct data; intros fn' i Heq; try discriminate Heq.
      injection Heq as <- <-. apply IrInstruction_nested_ind.
  - intros i. destruct i as [debug_id type_entry static_value ref_count se sn].
    apply instruction_step. apply ConstExprValue_nested_ind.
Qed.
End ConstExprValue_nested_ind.

(** ** The aborts of the constant-value renderer *)

Lemma outcome_assert_abort (b : bool) (expr : string) (e : Fatal) :
  outcome (assert b expr) = Abort e -> e = AssertionFailed expr.
Proof. destruct b; simpl; [discriminate | now intros [= <-]]. Qed.

Ltac fatal_step :=
  match goal with
  | H : Done _ = Abort _ |- _ => discriminate H
  | H : Abort _ = Abort _ |- _ => injection H as <-; unfold value_fatal; tauto
  | H : outcome (fprintf _) = Abort _ |- _ => discriminate H
  | H : outcome (ret _) = Abort _ |- _ => discriminate H
  | H : outcome (abort _) = Abort _ |- _ =>
      injection H as <-; unfold value_fatal; tauto
  | H : outcome (assert _ _) = Abort _ |- _ =>
      apply outcome_assert_abort in H; subst; unfold value_fatal; tauto
  | H : outcome (_ <- _ ;; _) = Abort _ |- _ =>
      apply bind_abort_inv in H as [H | (? & _ & H)]
  | H : outcome (if ?b then _ else _) = Abort _ |- _ => destruct b
  | H : outcome zig_unreachable = Abort _ |- _ =>
      injection H as <-; unfold value_fatal; tauto
  end.

Section value_fatal.
Variable print_value : option TypeTableEntry -> ConstExprValue -> M unit.
Variable print_operand : IrInstruction -> M unit.

Let value_ok (v : ConstExprValue) : Prop :=
  forall type_entry e, outcome (print_value type_entry v) = Abort e -> value_fatal e.

Lemma ir_print_array_elements_fatal (child_type : TypeTableEntry) (len : N)
    (elements : list ConstExprValue) :
  Forall value_ok elements ->
  forall i e,
    outcome (ir_print_array_elements print_value child_type len i elements)
    = Abort e ->
    value_fatal e.
Proof.
  induction 1 as [|v elements Hv _ IH]; intros i e H; simpl in H;
    repeat fatal_step; eauto.
Qed.

Lemma ir_print_static_value_fatal (data : ConstExprValueData) :
  (forall pointee, data = x_ptr pointee -> value_ok pointee) ->
  (forall elements, data = x_array elements -> Forall value_ok elements) ->
  (forall child, data = x_maybe (Some child) -> value_ok child) ->
  (forall fn first_arg, data = x_bound_fn fn first_arg ->
     forall e, outcome (print_operand first_arg) = Abort e -> value_fatal e) ->
  forall type_entry e,
    outcome (ir_print_static_value print_value print_operand data type_entry)
    = Abort e ->
    value_fatal e.
Proof.
  intros Hptr Harray Hmaybe Hbound type_entry.
  induction type_entry as [id name type_data IH] using TypeTableEntry_alias_ind.
  intros e H. unfold value_ok in *.
  destruct id; simpl in H;
    repeat first
      [ fatal_step
      | match goal with
        | H : outcome (match ?d with _ => _ end) = Abort _ |- _ => destruct d
        end ];
    eauto using ir_print_array_elements_fatal.
Qed.

End value_fatal.

Lemma ir_print_const_value_fatal :
  (forall v irp type_entry e,
     outcome (ir_print_const_value irp type_entry v) = Abort e -> value_fatal e)
  /\ (forall i irp e,
        outcome (ir_print_other_instruction irp i) = Abort e -> value_fatal e).
Proof.
  pose (P := fun v => forall irp type_entry e,
               outcome (ir_print_const_value irp type_entry v) = Abort e ->
               value_fatal e).
  pose (Q := fun i => forall irp e,
               outcome (ir_print_other_instruction irp i) = Abort e ->
               value_fatal e).
  assert (value_step : forall special data,
    (forall pointee, data = x_ptr pointee -> P pointee) ->
    (forall elements, data = x_array elements -> Forall P elements) ->
    (forall child, data = x_maybe (Some child) -> P child) ->
    (forall fn first_arg, data = x_bound_fn fn first_arg -> Q first_arg) ->
    P (Build_ConstExprValue special data)).
  { intros special data Hptr Harray Hmaybe Hbound irp type_entry e H.
    destruct special; simpl in H; repeat fatal_step.
    - destruct type_entry; simpl in H; repeat fatal_step.
    - revert H. apply ir_print_static_value_fatal.
      + intros p Hp ty e'. apply (Hptr p Hp).
      + intros l Hl. specialize (Harray l Hl).
        eapply Forall_impl; [ | exact Harray]. intros v Hv ty e'. apply Hv.
      + intros c Hc ty e'. apply (Hmaybe c Hc).
      + intros fn i Hi e'. apply (Hbound fn i Hi). }
  assert (instruction_step : forall i, P (static_value i) -> Q i).
  { intros [debug_id type_entry static_value ref_count se sn] Hv irp e H.
    simpl in H, Hv. repeat fatal_step. eapply Hv; eauto. }
  split.
  - exact (ConstExprValue_nested_ind P Q value_step instruction_step).
  - exact (IrInstruction_nested_ind P Q value_step instruction_step).
Qed.

(** ** Loops over two arrays *)

Lemma for_loop_from_at_index2 {A B} (la : list A) (lb : list B)
    (f : N -> A -> B -> M unit) :
  length la = length lb ->
  forall before_a before_b,
    length before_a = length before_b ->
    for_loop_from (length la) (N.of_nat (length before_a))
      (fun i => a <- at_index (before_a ++ la)%list i ;;
                b <- at_index (before_b ++ lb)%list i ;;
                f i a b)
    = for_each2_from (N.of_nat (length before_a)) la lb f.
Proof.
  revert lb. induction la as [|a la IH]; intros [|b lb] Hlen; try discriminate;
    intros before_a before_b Hbefore; [reflexivity | ].
  simpl. rewrite at_index_app, bind_ret_l.
  rewrite Hbefore at 1. rewrite at_index_app, bind_ret_l.
  replace (N.of_nat (length before_a) + 1)
    with (N.of_nat (length (before_a ++ [a])%list))
    by (rewrite length_app; simpl; lia).
  replace (before_a ++ a :: la)%list with ((before_a ++ [a]) ++ la)%list
    by (now rewrite <- app_assoc).
  replace (before_b ++ b :: lb)%list with ((before_b ++ [b]) ++ lb)%list
    by (now rewrite <- app_assoc).
  rewrite IH; [reflexivity | now injection Hlen | ].
  rewrite !length_app. simpl. lia.
Qed.

Lemma concat_empty_cons (x : string) (l : list string) :
  String.concat "" (x :: l) = x ++ String.concat "" l.
Proof. destruct l; simpl; [now rewrite append_nil_r | reflexivity]. Qed.

Lemma concat_separator (sep x : string) (l : list string) :
  String.concat sep (x :: l)
  = x ++ String.concat "" (map (fun y => sep ++ y) l).
Proof.
  revert x. induction l as [|y l IH]; intros x.
  - simpl. now rewrite append_nil_r.
  - change (String.concat sep (x :: y :: l))
      with (x ++ sep ++ String.concat sep (y :: l)).
    rewrite IH. simpl map. rewrite concat_empty_cons.
    now rewrite append_assoc.
Qed.

(** ** Phi *)

Lemma ir_print_other_instruction_runtime (irp : IrPrint)
    (instruction : IrInstruction) :
  is_runtime_instruction instruction ->
  ir_print_other_instruction irp instruction
  = fprintf ("#" ++ dec (debug_id instruction)).
Proof.
  unfold is_runtime_instruction.
  destruct instruction as [debug_id type_entry static_value ? ? ?]; simpl.
  now intros ->.
Qed.

(** The edges after the first, each behind its blank. *)
Lemma phi_edges_from (irp : IrPrint) (blocks : list IrBasicBlockRef)
    (values : list IrInstruction) :
  length blocks = length values ->
  Forall is_runtime_instruction values ->
  forall i, i <> 0 ->
    for_each2_from i blocks values (fun i incoming_block incoming_value =>
      (if negb (i =? 0) then fprintf " " else ret tt) ;;
      ir_print_other_block irp incoming_block ;;
      fprintf ":" ;;
      ir_print_other_instruction irp incoming_value)
    = fprintf (String.concat ""
                 (map (fun edge => " " ++ phi_edge_text edge)
                    (combine blocks values))).
Proof.
  revert values. induction blocks as [|b blocks IH]; intros [|v values] Hlen Hrun;
    try discriminate; intros i Hi; [reflexivity | ].
  inversion Hrun as [|? ? Hv Hvalues]; subst.
  simpl for_each2_from. rewrite IH; [ | now injection Hlen | assumption | lia].
  rewrite (ir_print_other_instruction_runtime _ _ Hv).
  apply N.eqb_neq in Hi. rewrite Hi. simpl negb. unfold ir_print_other_block.
  rewrite !fprintf_fprintf. f_equal. simpl combine. simpl map.
  rewrite concat_empty_cons. unfold phi_edge_text. cbn [fst snd].
  repeat (simpl; rewrite ?append_assoc). reflexivity.
Qed.

Lemma ir_print_phi_edges (irp : IrPrint) (blocks : list IrBasicBlockRef)
    (values : list IrInstruction) :
  length blocks = length values ->
  Forall is_runtime_instruction values ->
  for_loop (N.of_nat (length blocks)) (fun i =>
    incoming_block <- at_index blocks i ;;
    incoming_value <- at_index values i ;;
    (if negb (i =? 0) then fprintf " " else ret tt) ;;
    ir_print_other_block irp incoming_block ;;
    fprintf ":" ;;
    ir_print_other_instruction irp incoming_value)
  = fprintf (String.concat " " (map phi_edge_text (combine blocks values))).
Proof.
  intros Hlen Hrun. unfold for_loop. rewrite Nat2N.id.
  pose proof (for_loop_from_at_index2 blocks values
                (fun i incoming_block incoming_value =>
                   (if negb (i =? 0) then fprintf " " else ret tt) ;;
                   ir_print_other_block irp incoming_block ;;
                   fprintf ":" ;;
                   ir_print_other_instruction irp incoming_value)
                Hlen [] [] eq_refl) as Hloop.
  simpl in Hloop. rewrite Hloop. clear Hloop.
  destruct blocks as [|b blocks], values as [|v values]; try discriminate;
    [reflexivity | ].
  inversion Hrun as [|? ? Hv Hvalues]; subst.
  simpl for_each2_from.
  rewrite phi_edges_from; [ | now injection Hlen | assumption | discriminate].
  rewrite (ir_print_other_instruction_runtime _ _ Hv).
  simpl combine. simpl map. rewrite concat_separator, map_map.
  unfold ir_print_other_block. simpl negb.
  rewrite bind_ret_l, !fprintf_fprintf. f_equal.
  unfold phi_edge_text at 2. cbn [fst snd].
  repeat (simpl; rewrite ?append_assoc). reflexivity.
Qed.

Lemma ir_print_phi_asserts_pass (irp : IrPrint) (phi_instruction : IrInstructionPhi) :
  incoming_count phi_instruction <> 0 ->
  incoming_count phi_instruction <> SIZE_MAX ->
  ir_print_phi irp phi_instruction
  = for_loop (incoming_count phi_instruction) (fun i =>
      incoming_block <- at_index (incoming_blocks phi_instruction) i ;;
      incoming_value <- at_index (incoming_values phi_instruction) i ;;
      (if negb (i =? 0) then fprintf " " else ret tt) ;;
      ir_print_other_block irp incoming_block ;;
      fprintf ":" ;;
      ir_print_other_instruction irp incoming_value).
Proof.
  intros H0 Hmax. unfold ir_print_phi.
  apply N.eqb_neq in H0, Hmax. rewrite H0, Hmax. simpl.
  now rewrite !bind_ret_l.
Qed.

(** C2 (as amended).  A phi writes its incoming edges in order, one blank
    between two edges, each edge as the block reference, a colon and the
    incoming value; a block reference starts with a dollar sign.  With
    runtime incoming values every edge is [$<name>_<id>:#<id>], and the
    two edges from [then] (block 0, value 3) and [else] (block 1, value 4)
    give [$then_0:#3 $else_1:#4]. *)
Theorem ir_print_phi_edges_text (irp : IrPrint) (base : IrInstruction) :
  (forall blocks values,
     length blocks = length values ->
     blocks <> [] ->
     N.of_nat (length blocks) <> SIZE_MAX ->
     Forall is_runtime_instruction values ->
     ir_print_phi irp
       {| phi_base := base;
          incoming_count := N.of_nat (length blocks);
          incoming_blocks := blocks;
          incoming_values := values |}
     = fprintf (String.concat " " (map phi_edge_text (combine blocks values))))
  /\ (forall value_3 value_4,
        is_runtime_instruction value_3 -> debug_id value_3 = 3 ->
        is_runtime_instruction value_4 -> debug_id value_4 = 4 ->
        ir_print_phi irp
          {| phi_base := base;
             incoming_count := 2;
             incoming_blocks := [block_then; block_else];
             incoming_values := [value_3; value_4] |}
        = ("$then_0:#3 $else_1:#4", Done tt)).
Proof.
  assert (general : forall blocks values,
     length blocks = length values ->
     blocks <> [] ->
     N.of_nat (length blocks) <> SIZE_MAX ->
     Forall is_runtime_instruction values ->
     ir_print_phi irp
       {| phi_base := base;
          incoming_count := N.of_nat (length blocks);
          incoming_blocks := blocks;
          incoming_values := values |}
     = fprintf (String.concat " " (map phi_edge_text (combine blocks values)))).
  { intros blocks values Hlen Hne Hmax Hrun.
    rewrite ir_print_phi_asserts_pass; simpl; [ | | exact Hmax].
    - now apply ir_print_phi_edges.
    - destruct blocks; [contradiction | discriminate]. }
  split; [exact general | ].
  intros value_3 value_4 H3 Hid3 H4 Hid4.
  pose proof (general [block_then; block_else] [value_3; value_4] eq_refl)
    as Hedges.
  simpl in Hedges. rewrite Hedges;
    [ | discriminate | discriminate | now repeat constructor].
  unfold phi_edge_text. simpl. now rewrite Hid3, Hid4.
Qed.

Lemma ir_print_phi_edges_text_witness :
  ir_print_phi sample_irp phi_then_else = ("$then_0:#3 $else_1:#4", Done tt).
Proof.
  apply (proj2 (ir_print_phi_edges_text sample_irp (runtime_instruction 5)));
    reflexivity.
Defined.

(** C2, the claim as stated, fails: the text of the phi with the edges
    [then]/3 and [else]/4 is [$then_0:#3 $else_1:#4], not
    [then_0:#3 else_1:#4]. *)
Lemma ir_print_phi_no_sigil_counterexample :
  text (ir_print_phi sample_irp phi_then_else) = "$then_0:#3 $else_1:#4"
  /\ text (ir_print_phi sample_irp phi_then_else) <> "then_0:#3 else_1:#4".
Proof. split; [reflexivity | discriminate]. Qed.

Lemma for_loop_from_abort (fuel : nat) (i : N) (body : N -> M unit) (e : Fatal) :
  outcome (for_loop_from fuel i body) = Abort e ->
  exists j, outcome (body j) = Abort e.
Proof.
  revert i. induction fuel as [|fuel IH]; intros i H; simpl in H;
    [discriminate | ].
  apply bind_abort_inv in H as [H | (_ & _ & H)]; eauto.
Qed.

Lemma outcome_at_index_abort {A} (array : list A) (i : N) (e : Fatal) :
  outcome (at_index array i) = Abort e -> e = InvalidAccess.
Proof.
  unfold at_index. destruct (nth_error array (N.to_nat i)); simpl;
    [discriminate | now intros [= <-]].
Qed.

(** Past its two assertions a phi stops only where the rendering of an
    operand does. *)
Lemma ir_print_phi_fatal (irp : IrPrint) (phi_instruction : IrInstructionPhi)
    (e : Fatal) :
  incoming_count phi_instruction <> 0 ->
  incoming_count phi_instruction <> SIZE_MAX ->
  outcome (ir_print_phi irp phi_instruction) = Abort e ->
  value_fatal e.
Proof.
  intros H0 Hmax. rewrite ir_print_phi_asserts_pass by assumption.
  intros H. apply for_loop_from_abort in H as (j & H).
  apply bind_abort_inv in H as [H | (b & _ & H)].
  { apply outcome_at_index_abort in H as ->. right. now left. }
  apply bind_abort_inv in H as [H | (v & _ & H)].
  { apply outcome_at_index_abort in H as ->. right. now left. }
  repeat fatal_step.
  - discriminate H.
  - exact (proj2 ir_print_const_value_fatal _ _ _ H).
Qed.

(** C9.  A phi with no incoming edge, or with [SIZE_MAX] as its number
    of incoming edges, stops the process at the assertion on
    [incoming_count], with nothing written.  A phi with at least one
    incoming edge and a count other than [SIZE_MAX] fails neither
    assertion, and with runtime incoming values it is rendered to the
    end. *)
Theorem ir_print_phi_incoming_count (irp : IrPrint)
    (phi_instruction : IrInstructionPhi) :
  (incoming_count phi_instruction = 0 ->
   ir_print_phi irp phi_instruction
   = ("", Abort (AssertionFailed "phi_instruction->incoming_count != 0")))
  /\ (incoming_count phi_instruction = SIZE_MAX ->
      ir_print_phi irp phi_instruction
      = ("", Abort (AssertionFailed "phi_instruction->incoming_count != SIZE_MAX")))
  /\ (1 <= incoming_count phi_instruction ->
      incoming_count phi_instruction <> SIZE_MAX ->
      outcome (ir_print_phi irp phi_instruction)
      <> Abort (AssertionFailed "phi_instruction->incoming_count != 0")
      /\ outcome (ir_print_phi irp phi_instruction)
         <> Abort (AssertionFailed "phi_instruction->incoming_count != SIZE_MAX")
      /\ (incoming_count phi_instruction
          = N.of_nat (length (incoming_blocks phi_instruction)) ->
          length (incoming_blocks phi_instruction)
          = length (incoming_values phi_instruction) ->
          Forall is_runtime_instruction (incoming_values phi_instruction) ->
          outcome (ir_print_phi irp phi_instruction) = Done tt)).
Proof.
  repeat split.
  - intros H. unfold ir_print_phi. now rewrite H.
  - intros H. unfold ir_print_phi. now rewrite H.
  - intros Habort. apply ir_print_phi_fatal in Habort; [ | lia | assumption].
    destruct Habort as [? | [? | [? | ?]]]; discriminate.
  - intros Habort. apply ir_print_phi_fatal in Habort; [ | lia | assumption].
    destruct Habort as [? | [? | [? | ?]]]; discriminate.
  - intros Hcount Hlen Hrun.
    rewrite ir_print_phi_asserts_pass; [ | lia | assumption].
    rewrite Hcount, ir_print_phi_edges by assumption. reflexivity.
Qed.

Lemma ir_print_phi_incoming_count_witness :
  outcome (ir_print_phi sample_irp phi_then_else) = Done tt
  /\ ir_print_phi sample_irp
       {| phi_base := runtime_instruction 5; incoming_count := 0;
          incoming_blocks := []; incoming_values := [] |}
     = ("", Abort (AssertionFailed "phi_instruction->incoming_count != 0"))
  /\ ir_print_phi sample_irp
       {| phi_base := runtime_instruction 5; incoming_count := SIZE_MAX;
          incoming_blocks := []; incoming_values := [] |}
     = ("", Abort (AssertionFailed "phi_instruction->incoming_count != SIZE_MAX")).
Proof.
  split; [ | split].
  - apply (ir_print_phi_incoming_count sample_irp phi_then_else);
      try reflexivity; try discriminate.
    repeat constructor.
  - now apply (ir_print_phi_incoming_count sample_irp).
  - now apply (ir_print_phi_incoming_count sample_irp).
Defined.

(** ** Arrays *)

(** The first [switch] of [ir_print_const_value] falls through to the
    second for a statically known value. *)
Lemma ir_print_const_value_static (irp : IrPrint) (type_entry : TypeTableEntry)
    (data : ConstExprValueData) :
  ir_print_const_value irp (Some type_entry)
    (Build_ConstExprValue ConstValSpecialStatic data)
  = ir_print_static_value (ir_print_const_value irp)
      (ir_print_other_instruction irp) data type_entry.
Proof. simpl. now rewrite bind_ret_l. Qed.

Lemma ir_print_static_value_array
    (print_value : option TypeTableEntry -> ConstExprValue -> M unit)
    (print_operand : IrInstruction -> M unit) (name : string)
    (child_type : TypeTableEntry) (len : N) (elements : list ConstExprValue) :
  ir_print_static_value print_value print_operand (x_array elements)
    (Build_TypeTableEntry TypeTableEntryIdArray name (data_array child_type len))
  = (fprintf (name ++ "{") ;;
     ir_print_array_elements print_value child_type len 0 elements ;;
     fprintf "}").
Proof. reflexivity. Qed.

Section array_elements.
Variable print_value : option TypeTableEntry -> ConstExprValue -> M unit.
Variable child_type : TypeTableEntry.

Let rendered (v : ConstExprValue) (t : string) : Prop :=
  print_value (Some child_type) v = fprintf t.

(** The elements after the first, each behind its comma. *)
Lemma ir_print_array_elements_from (len : N) (elements : list ConstExprValue)
    (texts : list string) :
  Forall2 rendered elements texts ->
  forall i, i <> 0 -> len = i + N.of_nat (length elements) ->
    ir_print_array_elements print_value child_type len i elements
    = fprintf (String.concat "" (map (fun t => "," ++ t) texts)).
Proof.
  induction 1 as [|v t elements texts Hv _ IH]; intros i Hi Hlen.
  - simpl in *. replace (i <? len) with false; [reflexivity | ].
    symmetry. apply N.ltb_ge. lia.
  - simpl ir_print_array_elements.
    replace (i <? len) with true
      by (symmetry; apply N.ltb_lt; simpl length in Hlen; lia).
    apply N.eqb_neq in Hi. rewrite Hi. simpl negb.
    rewrite Hv, IH by (simpl length in Hlen; lia).
    rewrite !fprintf_fprintf. simpl map. rewrite concat_empty_cons.
    now rewrite ?append_assoc.
Qed.

Lemma ir_print_array_elements_text (elements : list ConstExprValue)
    (texts : list string) :
  Forall2 rendered elements texts ->
  ir_print_array_elements print_value child_type
    (N.of_nat (length elements)) 0 elements
  = fprintf (String.concat "," texts).
Proof.
  intros [|v t elements' texts' Hv Hrest]; [reflexivity | ].
  generalize (eq_refl (N.of_nat (length (v :: elements')))).
  generalize (N.of_nat (length (v :: elements'))) at 1 3. intros len Hlen.
  simpl ir_print_array_elements.
  replace (0 <? len) with true
    by (symmetry; apply N.ltb_lt; simpl length in Hlen; lia).
  simpl negb. rewrite bind_ret_l, Hv.
  rewrite (ir_print_array_elements_from len _ _ Hrest 1)
    by (simpl length in Hlen; lia || discriminate).
  now rewrite fprintf_fprintf, concat_separator.
Qed.

End array_elements.

(** C7.  A statically known value of array type is written as the name of
    the array type, an opening brace, the elements, each as the
    constant-value renderer writes it at the element type, with a comma
    between two elements and none after the last, and a closing brace.
    Three zeroed elements at type [[3]u8] give
    [[3]u8{zeroes,zeroes,zeroes}]; three statically known elements that
    are the integer zero give [[3]u8{0,0,0}]. *)
Theorem const_value_array (irp : IrPrint) :
  (forall name child_type elements texts,
     Forall2 (fun v t => ir_print_const_value irp (Some child_type) v = fprintf t)
       elements texts ->
     ir_print_const_value irp
       (Some (Build_TypeTableEntry TypeTableEntryIdArray name
                (data_array child_type (N.of_nat (length elements)))))
       (Build_ConstExprValue ConstValSpecialStatic (x_array elements))
     = fprintf (name ++ "{" ++ String.concat "," texts ++ "}"))
  /\ (forall data_0 data_1 data_2,
        ir_print_const_value irp (Some type_array_3_u8)
          (Build_ConstExprValue ConstValSpecialStatic
             (x_array [Build_ConstExprValue ConstValSpecialZeroes data_0;
                       Build_ConstExprValue ConstValSpecialZeroes data_1;
                       Build_ConstExprValue ConstValSpecialZeroes data_2]))
        = ("[3]u8{zeroes,zeroes,zeroes}", Done tt))
  /\ (forall float_0 float_1 float_2,
        let zero x_float :=
          Build_ConstExprValue ConstValSpecialStatic
            (x_bignum {| kind := BigNumKindInt; is_negative := false;
                         x_uint := 0; x_float := x_float |}) in
        ir_print_const_value irp (Some type_array_3_u8)
          (Build_ConstExprValue ConstValSpecialStatic
             (x_array [zero float_0; zero float_1; zero float_2]))
        = ("[3]u8{0,0,0}", Done tt)).
Proof.
  split; [ | split; reflexivity].
  intros name child_type elements texts Htexts.
  rewrite ir_print_const_value_static, ir_print_static_value_array.
  rewrite (ir_print_array_elements_text _ _ _ _ Htexts).
  rewrite <- bind_assoc, !fprintf_fprintf. now rewrite !append_assoc.
Qed.

Lemma const_value_array_witness :
  ir_print_const_value sample_irp
    (Some (Build_TypeTableEntry TypeTableEntryIdArray "[2]bool"
             (data_array (Build_TypeTableEntry TypeTableEntryIdBool "bool" data_none)
                2)))
    (Build_ConstExprValue ConstValSpecialStatic
       (x_array [Build_ConstExprValue ConstValSpecialStatic (x_bool true);
                 Build_ConstExprValue ConstValSpecialUndef (x_bool false)]))
  = ("[2]bool{true,undefined}", Done tt).
Proof.
  apply (proj1 (const_value_array sample_irp) "[2]bool" _
           [Build_ConstExprValue ConstValSpecialStatic (x_bool true);
            Build_ConstExprValue ConstValSpecialUndef (x_bool false)]
           ["true"; "undefined"]).
  repeat constructor.
Defined.

(** ** Container and struct initialisation *)

Lemma ends_with_refl (s : string) : ends_with s s.
Proof. now exists "". Qed.

(** What a sequence that ends well ends with is what its last part ends
    with. *)
Lemma ends_with_bind {A B} (m : M A) (k : A -> M B) (suffix : string) (b : B) :
  (forall a, outcome (k a) = Done b -> ends_with suffix (text (k a))) ->
  outcome (x <- m ;; k x) = Done b ->
  ends_with suffix (text (x <- m ;; k x)).
Proof.
  intros Hk H. destruct (bind_done _ _ _ H) as (a & Hm & Ha).
  rewrite (text_bind _ _ a Hm). apply ends_with_append. now apply Hk.
Qed.

Lemma last_char_append (a b : string) :
  b <> "" -> last_char (a ++ b) = last_char b.
Proof.
  intros Hb. induction a as [|c a IH]; [reflexivity | ].
  simpl. rewrite IH. destruct (a ++ b) eqn:Hab; [ | reflexivity].
  destruct a; [now subst | discriminate].
Qed.

Lemma ends_with_last_char (suffix s : string) :
  suffix <> "" -> ends_with suffix s -> last_char s = last_char suffix.
Proof. intros Hsuffix (before & ->). now apply last_char_append. Qed.

(** C8 (as amended).  A container initialisation with named fields that
    is rendered to the end ends with [} // container init], and a struct
    initialisation with [} // struct init].  A container initialisation
    with a positional list ends with its closing brace: no comment
    follows it. *)
Theorem init_trailing_comment (irp : IrPrint) :
  (forall instruction : IrInstructionContainerInitFields,
     outcome (ir_print_container_init_fields irp instruction) = Done tt ->
     ends_with "} // container init"
       (text (ir_print_container_init_fields irp instruction)))
  /\ (forall instruction : IrInstructionStructInit,
        outcome (ir_print_struct_init irp instruction) = Done tt ->
        ends_with "} // struct init"
          (text (ir_print_struct_init irp instruction)))
  /\ (forall instruction : IrInstructionContainerInitList,
        outcome (ir_print_container_init_list irp instruction) = Done tt ->
        ends_with "}" (text (ir_print_container_init_list irp instruction))
        /\ ~ ends_with "// container init"
               (text (ir_print_container_init_list irp instruction))).
Proof.
  assert (Hlist : forall instruction : IrInstructionContainerInitList,
            outcome (ir_print_container_init_list irp instruction) = Done tt ->
            ends_with "}" (text (ir_print_container_init_list irp instruction))).
  { intros instruction. unfold ir_print_container_init_list.
    repeat (apply ends_with_bind; intros ?). intros _. apply ends_with_refl. }
  split; [ | split].
  - intros instruction. unfold ir_print_container_init_fields.
    repeat (apply ends_with_bind; intros ?). intros _. apply ends_with_refl.
  - intros instruction. unfold ir_print_struct_init.
    repeat (apply ends_with_bind; intros ?). intros _. apply ends_with_refl.
  - intros instruction Hdone. split; [now apply Hlist | ].
    intros Hcomment.
    apply ends_with_last_char in Hcomment; [ | discriminate].
    apply Hlist, ends_with_last_char in Hdone; [ | discriminate].
    rewrite Hdone in Hcomment. discriminate Hcomment.
Qed.

Lemma init_trailing_comment_witness :
  ends_with "} // container init"
    (text (ir_print_container_init_fields sample_irp init_fields_of_one))
  /\ ~ ends_with "// container init"
         (text (ir_print_container_init_list sample_irp init_list_of_two)).
Proof.
  split.
  - now apply (proj1 (init_trailing_comment sample_irp) init_fields_of_one).
  - now apply (proj2 (proj2 (init_trailing_comment sample_irp)) init_list_of_two).
Defined.

(** C8, the claim as stated, fails for the positional list form: the
    instruction is written [#1{#2, #3}], and the comment
    [// container init] does not occur in it. *)
Lemma init_list_no_comment_counterexample :
  ir_print_container_init_list sample_irp init_list_of_two
  = ("#1{#2, #3}", Done tt)
  /\ ~ occurs_in "// container init"
         (text (ir_print_container_init_list sample_irp init_list_of_two)).
Proof.
  split; [reflexivity | ].
  apply index_None_not_occurs; [reflexivity | discriminate].
Qed.

(** ** The indent and the rest of the line *)

Lemma for_each_ext {A} (l : list A) (f g : A -> M unit) :
  (forall x, f x = g x) -> for_each l f = for_each l g.
Proof.
  intros Hfg. induction l as [|x l IH]; [reflexivity | ].
  simpl. now rewrite Hfg, IH.
Qed.

Lemma bind_ext {A B} (m m' : M A) (k k' : A -> M B) :
  m = m' -> (forall a, k a = k' a) -> (x <- m ;; k x) = (x <- m' ;; k' x).
Proof.
  intros <- Hk. destruct m as [s [a | e]]; [ | reflexivity].
  unfold bind. now rewrite Hk.
Qed.

Lemma fprintf_append_bind {B} (a b : string) (m : M B) :
  (fprintf (a ++ b) ;; m) = (fprintf a ;; fprintf b ;; m).
Proof. now rewrite <- bind_assoc, fprintf_fprintf. Qed.

Lemma for_loop_ext (count : N) (body body' : N -> M unit) :
  (forall j, body j = body' j) -> for_loop count body = for_loop count body'.
Proof. intros H. apply for_loop_from_ext. intros j _. apply H. Qed.

Section print_value_ext.
Variables print_value print_value'
  : option TypeTableEntry -> ConstExprValue -> M unit.
Variables print_operand print_operand' : IrInstruction -> M unit.

Let same_value (v : ConstExprValue) : Prop :=
  forall type_entry, print_value type_entry v = print_value' type_entry v.

Lemma ir_print_array_elements_ext (child_type : TypeTableEntry) (len : N)
    (elements : list ConstExprValue) :
  Forall same_value elements ->
  forall i,
    ir_print_array_elements print_value child_type len i elements
    = ir_print_array_elements print_value' child_type len i elements.
Proof.
  induction 1 as [|v elements Hv _ IH]; intros i; [reflexivity | ].
  simpl. now rewrite Hv, IH.
Qed.

Lemma ir_print_static_value_ext (data : ConstExprValueData) :
  (forall pointee, data = x_ptr pointee -> same_value pointee) ->
  (forall elements, data = x_array elements -> Forall same_value elements) ->
  (forall child, data = x_maybe (Some child) -> same_value child) ->
  (forall fn first_arg, data = x_bound_fn fn first_arg ->
     print_operand first_arg = print_operand' first_arg) ->
  forall type_entry,
    ir_print_static_value print_value print_operand data type_entry
    = ir_print_static_value print_value' print_operand' data type_entry.
Proof.
  intros Hptr Harray Hmaybe Hbound type_entry. unfold same_value in *.
  induction type_entry as [id name type_data IH] using TypeTableEntry_alias_ind.
  destruct id; simpl; try reflexivity.
  - destruct type_data, data; try reflexivity. now rewrite (Hptr _ eq_refl).
  - destruct type_data, data; try reflexivity.
    now rewrite (ir_print_array_elements_ext _ _ _ (Harray _ eq_refl)).
  - destruct data as [ | | | | | | | [child|] | | ], type_data; try reflexivity.
    now rewrite (Hmaybe _ eq_refl).
  - destruct type_data; try reflexivity. now apply IH.
  - destruct data; try reflexivity. now rewrite (Hbound _ _ eq_refl).
Qed.

End print_value_ext.

(** Constant values and operands are written the same whatever the
    indent. *)
Lemma ir_print_const_value_any_irp (irp irp' : IrPrint) :
  (forall v type_entry,
     ir_print_const_value irp type_entry v = ir_print_const_value irp' type_entry v)
  /\ (forall i, ir_print_other_instruction irp i = ir_print_other_instruction irp' i).
Proof.
  pose (P := fun v => forall type_entry,
               ir_print_const_value irp type_entry v
               = ir_print_const_value irp' type_entry v).
  pose (Q := fun i => ir_print_other_instruction irp i
                      = ir_print_other_instruction irp' i).
  assert (value_step : forall special data,
    (forall pointee, data = x_ptr pointee -> P pointee) ->
    (forall elements, data = x_array elements -> Forall P elements) ->
    (forall child, data = x_maybe (Some child) -> P child) ->
    (forall fn first_arg, data = x_bound_fn fn first_arg -> Q first_arg) ->
    P (Build_ConstExprValue special data)).
  { intros special data Hptr Harray Hmaybe Hbound type_entry.
    destruct special; try reflexivity.
    destruct type_entry as [type_entry|]; [ | reflexivity].
    rewrite !ir_print_const_value_static.
    now apply ir_print_static_value_ext. }
  assert (instruction_step : forall i, P (static_value i) -> Q i).
  { intros i Hv. unfold Q. rewrite !ir_print_other_instruction_eq.
    unfold ir_print_const_instruction. now rewrite Hv. }
  split.
  - exact (ConstExprValue_nested_ind P Q value_step instruction_step).
  - exact (IrInstruction_nested_ind P Q value_step instruction_step).
Qed.

Ltac same_text irp irp' :=
  repeat match goal with
         | |- ?x = ?x => reflexivity
         | |- ir_print_other_instruction _ _ = ir_print_other_instruction _ _ =>
             apply (proj2 (ir_print_const_value_any_irp irp irp'))
         | |- ir_print_const_value _ _ _ = ir_print_const_value _ _ _ =>
             apply (proj1 (ir_print_const_value_any_irp irp irp'))
         | |- bind _ _ = bind _ _ => apply bind_ext; [ | intros ?]
         | |- for_loop _ _ = for_loop _ _ => apply for_loop_ext; intros ?
         | |- (if ?b then _ else _) = _ => destruct b
         | |- match ?x with _ => _ end = _ => destruct x
         end.

(** The line of an instruction is the indent followed by a text that
    does not depend on the indent. *)
Lemma ir_print_instruction_indent (irp irp' : IrPrint)
    (instruction : IrInstructionNode) :
  indent irp' = 0%Z ->
  ir_print_instruction irp instruction
  = (fprintf (spaces (Z.to_nat (indent irp))) ;;
     ir_print_instruction irp' instruction).
Proof.
  intros Hindent. unfold ir_print_instruction.
  rewrite !ir_print_prefix_text, Hindent.
  rewrite (fprintf_append_bind (spaces (Z.to_nat (indent irp)))).
  apply bind_ext; [reflexivity | intros _].
  apply bind_ext; [reflexivity | intros _].
  apply bind_ext; [ | reflexivity].
  destruct instruction;
    unfold ir_print_return, ir_print_const, ir_print_const_instruction,
      ir_print_bin_op, ir_print_decl_var, ir_print_cast, ir_print_call,
      ir_print_un_op, ir_print_cond_br, ir_print_br, ir_print_phi,
      ir_print_container_init_list, ir_print_container_init_fields,
      ir_print_struct_init, ir_print_unreachable, ir_print_elem_ptr,
      ir_print_var_ptr, ir_print_load_ptr, ir_print_store_ptr, ir_print_typeof,
      ir_print_to_ptr_type, ir_print_ptr_type_child, ir_print_field_ptr,
      ir_print_struct_field_ptr, ir_print_enum_field_ptr, ir_print_set_fn_test,
      ir_print_set_fn_visible, ir_print_set_debug_safety, ir_print_array_type,
      ir_print_slice_type, ir_print_asm, ir_print_compile_var, ir_print_size_of,
      ir_print_test_null, ir_print_unwrap_maybe, ir_print_ctz, ir_print_clz,
      ir_print_switch_br, ir_print_switch_var, ir_print_switch_target,
      ir_print_enum_tag, ir_print_static_eval, ir_print_import,
      ir_print_array_len, ir_print_ref, ir_print_other_block,
      ir_print_var_instruction;
    same_text irp irp'.
Qed.

Lemma ir_print_blocks (executable : IrExecutable) (indent_size : Z) :
  ir_print executable indent_size
  = for_each (basic_block_list executable) (fun current_block =>
      fprintf (name_hint (block_ref current_block) ++ "_"
               ++ dec (block_debug_id (block_ref current_block)) ++ ":"
               ++ newline) ;;
      for_each (instruction_list current_block) (fun instruction =>
        fprintf (spaces (Z.to_nat indent_size)) ;;
        ir_print_instruction {| indent := 0; indent_size := 0 |} instruction)).
Proof.
  unfold ir_print. rewrite for_loop_at_index.
  apply for_each_ext. intros current_block.
  rewrite for_loop_at_index.
  apply bind_ext; [reflexivity | intros _].
  apply for_each_ext. intros instruction.
  now rewrite (ir_print_instruction_indent _ {| indent := 0; indent_size := 0 |}).
Qed.

Lemma instruction_line_sharp (instruction : IrInstructionNode) :
  exists rest, instruction_line instruction = "#" ++ rest.
Proof.
  unfold instruction_line, ir_print_instruction.
  match goal with
  | |- context [bind ?m ?k] => destruct (text_bind_prefix m k) as [rest Hrest]
  end.
  rewrite Hrest, ir_print_prefix_text. unfold text at 1. simpl.
  eexists. reflexivity.
Qed.

(** C10.  In a dump with indent [indent_size] the indent is written
    before the prefix of each instruction and nowhere else: the dump is,
    block after block, the label of the block, which starts with the name
    hint of the block, and for each instruction of the block
    [indent_size] blanks followed by the line of the instruction, which
    starts with the [#] of its prefix, does not depend on the indent, and
    ends with a line feed when the instruction is rendered to the end. *)
Theorem ir_print_indent_only_before_instructions (executable : IrExecutable)
    (indent_size : Z) :
  (0 <= indent_size)%Z ->
  ir_print executable indent_size
  = for_each (basic_block_list executable) (fun current_block =>
      fprintf (name_hint (block_ref current_block) ++ "_"
               ++ dec (block_debug_id (block_ref current_block)) ++ ":"
               ++ newline) ;;
      for_each (instruction_list current_block) (fun instruction =>
        fprintf (spaces (Z.to_nat indent_size)) ;;
        ir_print_instruction {| indent := 0; indent_size := 0 |} instruction))
  /\ (forall instruction, exists rest, instruction_line instruction = "#" ++ rest)
  /\ (forall instruction,
        outcome (ir_print_instruction {| indent := 0; indent_size := 0 |}
                   instruction) = Done tt ->
        ends_with newline (instruction_line instruction))
  /\ (outcome (ir_print executable indent_size) = Done tt ->
      text (ir_print executable indent_size)
      = String.concat ""
          (map (block_text (Z.to_nat indent_size)) (basic_block_list executable))).
Proof.
  intros _. split; [apply ir_print_blocks | ].
  split; [apply instruction_line_sharp | ]. split.
  - intros instruction. unfold instruction_line, ir_print_instruction.
    repeat (apply ends_with_bind; intros ?). intros _. apply ends_with_refl.
  - rewrite ir_print_blocks. intros Hdone.
    apply for_each_done in Hdone as [Hblocks ->].
    f_equal. apply map_ext_in. intros block Hin.
    rewrite Forall_forall in Hblocks. specialize (Hblocks block Hin).
    apply bind_done in Hblocks as ([] & _ & Hinstructions).
    rewrite fprintf_bind. unfold text at 1. simpl fst.
    apply for_each_done in Hinstructions as [_ ->].
    unfold block_text.
    rewrite (map_ext _ (fun instruction =>
                          spaces (Z.to_nat indent_size)
                          ++ instruction_line instruction)).
    + repeat (simpl; rewrite ?append_assoc). reflexivity.
    + intros instruction. now rewrite fprintf_bind.
Qed.

Lemma ir_print_indent_only_before_instructions_witness :
  text (ir_print sample_executable 2)
  = String.concat "" (map (block_text 2) (basic_block_list sample_executable)).
Proof.
  apply (ir_print_indent_only_before_instructions sample_executable 2);
    [discriminate | reflexivity].
Defined.

(** ** Operands *)

Lemma at_index_map {A A' B} (g : A -> A') (l : list A) (i : N) (k : A' -> M B) :
  (x <- at_index (map g l) i ;; k x) = (x <- at_index l i ;; k (g x)).
Proof.
  unfold at_index. rewrite nth_error_map.
  destruct (nth_error l (N.to_nat i)); simpl; [ | reflexivity].
  now rewrite !bind_ret_l.
Qed.

Lemma deref_option_map {A A' B} (g : A -> A') (pointer : option A) (k : A' -> M B) :
  (x <- deref (option_map g pointer) ;; k x) = (x <- deref pointer ;; k (g x)).
Proof. destruct pointer; simpl; [ | reflexivity]. now rewrite !bind_ret_l. Qed.

Lemma is_some_option_map {A A'} (g : A -> A') (pointer : option A) :
  is_some (option_map g pointer) = is_some pointer.
Proof. now destruct pointer. Qed.

Lemma base_of_map_operands (f : IrInstruction -> IrInstruction)
    (instruction : IrInstructionNode) :
  base_of (map_operands f instruction) = base_of instruction.
Proof. now destruct instruction. Qed.

Ltac same_operands H :=
  repeat match goal with
         | |- ?x = ?x => reflexivity
         | |- ir_print_other_instruction _ (_ _) = ir_print_other_instruction _ _ =>
             apply H
         | |- context [is_some (option_map _ _)] => rewrite is_some_option_map
         | |- context [at_index (map _ _) _] => rewrite at_index_map
         | |- context [deref (option_map _ _)] => rewrite deref_option_map
         | |- bind _ _ = bind _ _ => apply bind_ext; [ | intros ?]
         | |- for_loop _ _ = for_loop _ _ => apply for_loop_ext; intros ?
         | |- context [match option_map _ ?pointer with _ => _ end] =>
             destruct pointer; simpl option_map; cbv iota
         | |- (if ?b then _ else _) = _ => destruct b
         | |- match ?x with _ => _ end = _ => destruct x
         | |- fprintf _ = fprintf _ => solve [simpl; reflexivity]
         end.

Lemma ir_print_instruction_map_operands (irp : IrPrint)
    (f : IrInstruction -> IrInstruction) (instruction : IrInstructionNode) :
  (forall operand,
     ir_print_other_instruction irp (f operand)
     = ir_print_other_instruction irp operand) ->
  (forall store,
     instruction = IrInstructionIdStorePtr store ->
     debug_id (f (store_ptr_ptr store)) = debug_id (store_ptr_ptr store)) ->
  ir_print_instruction irp (map_operands f instruction)
  = ir_print_instruction irp instruction.
Proof.
  intros H Hstore. unfold ir_print_instruction.
  rewrite base_of_map_operands.
  apply bind_ext; [reflexivity | intros _].
  apply bind_ext; [ | reflexivity].
  destruct instruction; simpl map_operands;
    try specialize (Hstore _ eq_refl);
    unfold ir_print_return, ir_print_const, ir_print_const_instruction,
      ir_print_bin_op, ir_print_decl_var, ir_print_cast, ir_print_call,
      ir_print_un_op, ir_print_cond_br, ir_print_br, ir_print_phi,
      ir_print_container_init_list, ir_print_container_init_fields,
      ir_print_struct_init, ir_print_unreachable, ir_print_elem_ptr,
      ir_print_var_ptr, ir_print_load_ptr, ir_print_store_ptr, ir_print_typeof,
      ir_print_to_ptr_type, ir_print_ptr_type_child, ir_print_field_ptr,
      ir_print_struct_field_ptr, ir_print_enum_field_ptr, ir_print_set_fn_test,
      ir_print_set_fn_visible, ir_print_set_debug_safety, ir_print_array_type,
      ir_print_slice_type, ir_print_asm, ir_print_compile_var, ir_print_size_of,
      ir_print_test_null, ir_print_unwrap_maybe, ir_print_ctz, ir_print_clz,
      ir_print_switch_br, ir_print_switch_var, ir_print_switch_target,
      ir_print_enum_tag, ir_print_static_eval, ir_print_import,
      ir_print_array_len, ir_print_ref, ir_print_other_block,
      ir_print_var_instruction;
    simpl;
    try rewrite Hstore;
    same_operands H.
Qed.

Lemma ir_print_other_instruction_disguise (irp : IrPrint)
    (other operand : IrInstruction) :
  ir_print_other_instruction irp (disguise other operand)
  = ir_print_other_instruction irp operand.
Proof.
  destruct operand as [debug_id type_entry [special data] ? ? ?].
  destruct other as [debug_id' type_entry' static_value' ? ? ?].
  now destruct special.
Qed.

(** C1 (as amended).  An operand that is a runtime instruction is written
    as the reference [#<debug id>], and one that is statically known,
    undefined or zeroed is written as its value, as the constant-value
    renderer writes it at the type of the instruction.  This holds at
    every operand of every instruction but the target pointer of a store:
    the line of an instruction is the same when each operand is replaced
    by any instruction that [ir_print_other_instruction] writes the same
    and, in a store, the target pointer keeps its debug id.  So a runtime
    operand shows in the line by its reference only, and never by its
    type or value, and any other operand by its value only, and never by
    its debug id.  The target pointer of a store is always written as the
    reference [#<debug id>], whatever its evaluation state; the value
    stored is written as the other operands are. *)
Theorem operand_reference_or_inline (irp : IrPrint) :
  (forall operand,
     is_runtime_instruction operand ->
     ir_print_other_instruction irp operand
     = fprintf ("#" ++ dec (debug_id operand)))
  /\ (forall operand,
        ~ is_runtime_instruction operand ->
        ir_print_other_instruction irp operand
        = ir_print_const_value irp (type_entry operand) (static_value operand))
  /\ (forall f instruction,
        (forall operand,
           ir_print_other_instruction irp (f operand)
           = ir_print_other_instruction irp operand) ->
        (forall store,
           instruction = IrInstructionIdStorePtr store ->
           debug_id (f (store_ptr_ptr store)) = debug_id (store_ptr_ptr store)) ->
        ir_print_instruction irp (map_operands f instruction)
        = ir_print_instruction irp instruction)
  /\ (forall store,
        ir_print_store_ptr irp store
        = (fprintf ("*#" ++ dec (debug_id (store_ptr_ptr store)) ++ " = ") ;;
           ir_print_other_instruction irp (store_ptr_value store))).
Proof.
  split; [ | split; [ | split]].
  - intros operand. apply ir_print_other_instruction_runtime.
  - intros operand. unfold is_runtime_instruction. intros Hstatic.
    rewrite ir_print_other_instruction_eq.
    destruct (special (static_value operand)); try reflexivity.
    now contradiction Hstatic.
  - intros f instruction. apply ir_print_instruction_map_operands.
  - intros store. unfold ir_print_store_ptr, ir_print_var_instruction.
    rewrite <- !bind_assoc, !fprintf_fprintf.
    now rewrite !append_assoc.
Qed.

Lemma operand_reference_or_inline_witness :
  ir_print_other_instruction sample_irp (runtime_instruction 7) = ("#7", Done tt)
  /\ ir_print_other_instruction sample_irp (zeroed_instruction 5)
     = ("zeroes", Done tt)
  /\ map_operands (disguise (runtime_instruction 7))
       (IrInstructionIdLoadPtr load_from_zeroed)
     = IrInstructionIdLoadPtr
         {| load_ptr_base := runtime_instruction 9;
            load_ptr_ptr := zeroed_instruction 7 |}
  /\ ir_print_instruction sample_irp
       (map_operands (disguise (runtime_instruction 7))
          (IrInstructionIdLoadPtr load_from_zeroed))
     = ir_print_instruction sample_irp (IrInstructionIdLoadPtr load_from_zeroed)
  /\ ir_print_instruction sample_irp (IrInstructionIdLoadPtr load_from_zeroed)
     = ("  #9  | (unknown)   | 1 | *zeroes" ++ newline, Done tt)
  /\ ir_print_instruction sample_irp
       (map_operands (disguise (runtime_instruction 5))
          (IrInstructionIdStorePtr store_to_zeroed))
     = ir_print_instruction sample_irp (IrInstructionIdStorePtr store_to_zeroed).
Proof.
  split; [ | split; [ | split; [ | split; [ | split]]]].
  - now apply (proj1 (operand_reference_or_inline sample_irp)
                 (runtime_instruction 7)).
  - rewrite (proj1 (proj2 (operand_reference_or_inline sample_irp))
               (zeroed_instruction 5)); [reflexivity | discriminate].
  - reflexivity.
  - apply (proj1 (proj2 (proj2 (operand_reference_or_inline sample_irp)))
             (disguise (runtime_instruction 7))
             (IrInstructionIdLoadPtr load_from_zeroed)).
    + intros operand. apply ir_print_other_instruction_disguise.
    + discriminate.
  - reflexivity.
  - apply (proj1 (proj2 (proj2 (operand_reference_or_inline sample_irp)))
             (disguise (runtime_instruction 5))
             (IrInstructionIdStorePtr store_to_zeroed)).
    + intros operand. apply ir_print_other_instruction_disguise.
    + intros store [= <-]. reflexivity.
Defined.

(** C1, the claim as stated, fails at the target of a store: the pointer
    is a zeroed constant, whose value form is [zeroes], and the store is
    written [*#5 = #6], with the reference and without the value. *)
Lemma store_ptr_target_counterexample :
  special (static_value (store_ptr_ptr store_to_zeroed)) = ConstValSpecialZeroes
  /\ ir_print_const_instruction sample_irp (store_ptr_ptr store_to_zeroed)
     = ("zeroes", Done tt)
  /\ ir_print_store_ptr sample_irp store_to_zeroed = ("*#5 = #6", Done tt)
  /\ ~ occurs_in "zeroes" (text (ir_print_store_ptr sample_irp store_to_zeroed)).
Proof.
  repeat split.
  apply index_None_not_occurs; [reflexivity | discriminate].
Qed.

(** The line of a store does change with the debug id of a target that
    is not a runtime instruction, where the line of a load does not. *)
Example store_ptr_target_debug_id_shown :
  ir_print_instruction sample_irp (IrInstructionIdStorePtr store_to_zeroed)
  = ("  #9  | (unknown)   | 1 | *#5 = #6" ++ newline, Done tt)
  /\ ir_print_instruction sample_irp
       (map_operands (disguise (runtime_instruction 7))
          (IrInstructionIdStorePtr store_to_zeroed))
     = ("  #9  | (unknown)   | 1 | *#7 = #6" ++ newline, Done tt).
Proof. split; reflexivity. Qed.

(** ** Sample renderings *)

Example ir_print_return_42 :
  text (ir_print_instruction {| indent := 0; indent_size := 0 |}
          (IrInstructionIdReturn return_42))
  = "#1  | i32         | - | return 42" ++ newline.
Proof. reflexivity. Qed.

Example ir_print_pointer_to_true :
  ir_print_const_value sample_irp
    (Some (Build_TypeTableEntry TypeTableEntryIdPointer "&bool"
             (data_pointer
                (Build_TypeTableEntry TypeTableEntryIdBool "bool" data_none))))
    (Build_ConstExprValue ConstValSpecialStatic
       (x_ptr (Build_ConstExprValue ConstValSpecialStatic (x_bool true))))
  = ("&true", Done tt).
Proof. reflexivity. Qed.

Example ir_print_inline_cond_br :
  ir_print_cond_br sample_irp
    {| cond_br_base := runtime_instruction 3;
       cond_br_condition := runtime_instruction 2;
       cond_br_then_block := block_then;
       cond_br_else_block := block_else;
       cond_br_is_inline := true |}
  = ("inline if (#2) $then_0 else $else_1", Done tt).
Proof. reflexivity. Qed.

(** * Further properties *)

(** ** Decimal numbers *)

Lemma dec_injective (n m : N) : dec n = dec m -> n = m.
Proof.
  unfold dec. intros H. apply Unsigned.to_uint_inj.
  apply (f_equal NilEmpty.uint_of_string) in H.
  rewrite !NilEmpty.usu in H. now injection H.
Qed.

Lemma dec_all_digits (n : N) : all_digits (dec n) = true.
Proof.
  unfold dec. generalize (N.to_uint n). intros d.
  induction d; simpl; auto.
Qed.

Lemma all_digits_append (a b : string) :
  all_digits (a ++ b) = all_digits a && all_digits b.
Proof.
  induction a as [|c a IH]; simpl; [reflexivity | ].
  now rewrite IH, andb_assoc.
Qed.

(** Where the digits of a text stop is determined by the text. *)
Lemma digits_then_other (d d' rest rest' : string) :
  all_digits d = true -> all_digits d' = true ->
  starts_without_digit rest -> starts_without_digit rest' ->
  d ++ rest = d' ++ rest' -> d = d' /\ rest = rest'.
Proof.
  revert d'. induction d as [|c d IH]; intros [|c' d'] Hd Hd' Hr Hr' H;
    simpl in *.
  - now split.
  - subst rest. simpl in Hr. apply andb_prop in Hd' as [Hc _]. congruence.
  - subst rest'. simpl in Hr'. apply andb_prop in Hd as [Hc _]. congruence.
  - injection H as <- H. apply andb_prop in Hd as [_ Hd], Hd' as [_ Hd'].
    destruct (IH d' Hd Hd' Hr Hr' H) as [<- <-]. now split.
Qed.

(** Where a text splits into a name, an underscore and a number is
    determined by the text. *)
Lemma name_underscore_digits (a a' d d' : string) :
  all_digits d = true -> all_digits d' = true ->
  a ++ "_" ++ d = a' ++ "_" ++ d' -> a = a' /\ d = d'.
Proof.
  intros Hd Hd'. revert a'. induction a as [|c a IH]; intros [|c' a'] H;
    simpl in H.
  - injection H as <-. now split.
  - injection H as <- H. subst d.
    rewrite all_digits_append in Hd. simpl in Hd.
    now rewrite andb_false_r in Hd.
  - injection H as -> H. subst d'.
    rewrite all_digits_append in Hd'. simpl in Hd'.
    now rewrite andb_false_r in Hd'.
  - injection H as <- H. destruct (IH a' H) as [<- <-]. now split.
Qed.

Lemma starts_without_digit_pad (n : nat) (rest : string) :
  starts_without_digit (spaces n ++ String "|" rest).
Proof. destruct n; reflexivity. Qed.

(** ** References *)

(** X1.  Two instructions with different debug ids never share a
    token: the references [#<id>] written for them as runtime operands
    differ, and so do the prefixes of their lines, whatever their types
    and use counts. *)
Theorem debug_id_token_injective (irp : IrPrint)
    (instruction instruction' : IrInstruction) :
  (is_runtime_instruction instruction ->
   is_runtime_instruction instruction' ->
   ir_print_other_instruction irp instruction
   = ir_print_other_instruction irp instruction' ->
   debug_id instruction = debug_id instruction')
  /\ (text (ir_print_prefix irp instruction)
      = text (ir_print_prefix irp instruction') ->
      debug_id instruction = debug_id instruction').
Proof.
  split.
  { intros Hrun Hrun'.
    rewrite !ir_print_other_instruction_runtime by assumption.
    unfold fprintf. intros H. injection H as H. now apply dec_injective. }
  rewrite !ir_print_prefix_text. unfold text, fprintf, fst, pad_right.
  intros H. apply append_inv_head in H. simpl in H. injection H as H.
  rewrite !append_assoc in H.
  apply digits_then_other in H as [H _];
    [ now apply dec_injective | apply dec_all_digits | apply dec_all_digits
    | apply starts_without_digit_pad | apply starts_without_digit_pad ].
Qed.

Lemma debug_id_token_injective_witness :
  debug_id (Build_IrInstruction 7 (Some type_u8)
              (Build_ConstExprValue ConstValSpecialZeroes (x_bool true))
              5 true sample_node)
  = debug_id (counted_instruction 5 true).
Proof.
  apply (proj2 (debug_id_token_injective
                  {| indent := 0; indent_size := 0 |}
                  (Build_IrInstruction 7 (Some type_u8)
                     (Build_ConstExprValue ConstValSpecialZeroes (x_bool true))
                     5 true sample_node)
                  (counted_instruction 5 true))).
  reflexivity.
Defined.

(** X2.  The reference to a block, [$<name hint>_<debug id>], names one
    block: two references that are written the same have the same name
    hint and the same debug id, even when a name hint ends with an
    underscore and digits. *)
Theorem block_reference_injective (irp : IrPrint) (bb bb' : IrBasicBlockRef) :
  ir_print_other_block irp bb = ir_print_other_block irp bb' -> bb = bb'.
Proof.
  unfold ir_print_other_block, fprintf. intros H. injection H as H.
  apply name_underscore_digits in H as [Hname Hid]; auto using dec_all_digits.
  apply dec_injective in Hid. destruct bb, bb'. simpl in *. now subst.
Qed.

Lemma block_reference_injective_witness :
  {| name_hint := "then"; block_debug_id := 0 |} = block_then.
Proof.
  apply (block_reference_injective sample_irp). reflexivity.
Defined.

(** ** Integers *)

(** X3.  A statically known integer, at a sized integer type or at the
    type of integer literals, is written as its magnitude in decimal,
    behind a minus sign when its sign flag is set, so that a negative
    zero is written [-0].  The text tells the sign flag and the
    magnitude: two integers that are written the same have the same
    [is_negative] and the same [x_uint]. *)
Theorem ir_print_int_injective (irp : IrPrint) (type_entry : TypeTableEntry)
    (bignum bignum' : BigNum) :
  type_id type_entry = TypeTableEntryIdInt
  \/ type_id type_entry = TypeTableEntryIdNumLitInt ->
  kind bignum = BigNumKindInt -> kind bignum' = BigNumKindInt ->
  ir_print_const_value irp (Some type_entry)
    (Build_ConstExprValue ConstValSpecialStatic (x_bignum bignum))
  = fprintf ((if is_negative bignum then "-" else "") ++ dec (x_uint bignum))
  /\ (is_negative bignum = true -> x_uint bignum = 0 ->
      ir_print_const_value irp (Some type_entry)
        (Build_ConstExprValue ConstValSpecialStatic (x_bignum bignum))
      = fprintf "-0")
  /\ (ir_print_const_value irp (Some type_entry)
        (Build_ConstExprValue ConstValSpecialStatic (x_bignum bignum))
      = ir_print_const_value irp (Some type_entry)
          (Build_ConstExprValue ConstValSpecialStatic (x_bignum bignum')) ->
      is_negative bignum = is_negative bignum' /\ x_uint bignum = x_uint bignum').
Proof.
  intros Hid Hkind Hkind'. rewrite !ir_print_const_value_static.
  destruct type_entry as [id name type_data]. simpl in Hid.
  assert (Htext :
    forall b, kind b = BigNumKindInt ->
      ir_print_static_value (ir_print_const_value irp)
        (ir_print_other_instruction irp) (x_bignum b)
        (Build_TypeTableEntry id name type_data)
      = fprintf ((if is_negative b then "-" else "") ++ dec (x_uint b))).
  { intros b Hb. destruct Hid as [-> | ->]; simpl; [ | reflexivity].
    rewrite Hb. simpl. now rewrite bind_ret_l. }
  rewrite (Htext _ Hkind), (Htext _ Hkind').
  split; [reflexivity | split].
  - now intros -> ->.
  - intros H. injection H as H.
    pose proof (dec_all_digits (x_uint bignum)) as Hd.
    pose proof (dec_all_digits (x_uint bignum')) as Hd'.
    destruct (is_negative bignum), (is_negative bignum'); simpl in H.
    + injection H as H. split; [reflexivity | now apply dec_injective].
    + rewrite <- H in Hd'. discriminate Hd'.
    + rewrite H in Hd. discriminate Hd.
    + split; [reflexivity | now apply dec_injective].
Qed.

Lemma ir_print_int_injective_witness :
  ir_print_const_value sample_irp (Some type_u8)
    (Build_ConstExprValue ConstValSpecialStatic (x_bignum bignum_negative_zero))
  = ("-0", Done tt)
  /\ ir_print_const_value sample_irp (Some type_u8)
       (Build_ConstExprValue ConstValSpecialStatic (x_bignum bignum_zero))
     = ("0", Done tt)
  /\ (is_negative bignum_zero = false /\ x_uint bignum_zero = 0).
Proof.
  split; [ | split].
  - apply (proj1 (proj2 (ir_print_int_injective sample_irp type_u8
                           bignum_negative_zero bignum_negative_zero
                           (or_introl eq_refl) eq_refl eq_refl)));
      reflexivity.
  - apply (proj1 (ir_print_int_injective sample_irp type_u8
                    bignum_zero bignum_zero (or_introl eq_refl) eq_refl eq_refl)).
  - apply (proj2 (proj2 (ir_print_int_injective sample_irp type_u8 bignum_zero
                           {| kind := BigNumKindInt; is_negative := false;
                              x_uint := 0;
                              x_float := {| printf_f := "1.500000" |} |}
                           (or_introl eq_refl) eq_refl eq_refl))).
    reflexivity.
Defined.

(** ** The width of the prefix *)

Lemma dec_length_3 (n : N) : n < 1000 -> (String.length (dec n) <= 3)%nat.
Proof.
  intros Hn.
  assert (Hall : forallb (fun k => (String.length (dec (N.of_nat k)) <=? 3)%nat)
                   (seq 0 1000) = true) by (vm_compute; reflexivity).
  rewrite forallb_forall in Hall.
  specialize (Hall (N.to_nat n)). rewrite N2Nat.id in Hall.
  apply Nat.leb_le, Hall, in_seq. lia.
Qed.

Lemma dec_length_2 (n : N) : n < 100 -> (String.length (dec n) <= 2)%nat.
Proof.
  intros Hn.
  assert (Hall : forallb (fun k => (String.length (dec (N.of_nat k)) <=? 2)%nat)
                   (seq 0 100) = true) by (vm_compute; reflexivity).
  rewrite forallb_forall in Hall.
  specialize (Hall (N.to_nat n)). rewrite N2Nat.id in Hall.
  apply Nat.leb_le, Hall, in_seq. lia.
Qed.

(** X4.  The prefix of a line is never narrower than the indent plus 24
    characters, and it is exactly that wide, so that the bodies of the
    lines start in one column, when the debug id is below 1000, the name
    of the type has at most 12 characters, and the instruction has side
    effects or a use count below 100. *)
Theorem ir_print_prefix_width (irp : IrPrint) (instruction : IrInstruction) :
  let width := String.length (text (ir_print_prefix irp instruction)) in
  (Z.to_nat (indent irp) + 24 <= width)%nat
  /\ (debug_id instruction < 1000 ->
      (forall t, type_entry instruction = Some t ->
                 (String.length (type_name t) <= 12)%nat) ->
      ir_has_side_effects instruction = true \/ ref_count instruction < 100 ->
      width = (Z.to_nat (indent irp) + 24)%nat).
Proof.
  intros width. unfold width. rewrite ir_print_prefix_text.
  unfold text, fprintf, fst.
  repeat (rewrite append_length || rewrite pad_right_length
          || rewrite spaces_length).
  simpl String.length. split; [lia | ].
  intros Hid Htype Hcount.
  apply dec_length_3 in Hid.
  assert (Htype' :
    (String.length match type_entry instruction with
                   | Some type_entry => type_name type_entry
                   | None => "(unknown)"
                   end <= 12)%nat).
  { destruct (type_entry instruction); [now apply Htype | simpl; lia]. }
  assert (Hcount' :
    (String.length (if ir_has_side_effects instruction then "-"
                    else dec (ref_count instruction)) <= 2)%nat).
  { destruct Hcount as [-> | Hcount]; [simpl; lia | ].
    destruct (ir_has_side_effects instruction); [simpl; lia | ].
    now apply dec_length_2. }
  lia.
Qed.

Lemma ir_print_prefix_width_witness :
  String.length (text (ir_print_prefix sample_irp (counted_instruction 5 false)))
  = 26%nat.
Proof.
  apply (ir_print_prefix_width sample_irp (counted_instruction 5 false)).
  - reflexivity.
  - intros t [= <-]. simpl. lia.
  - now right.
Defined.

(** ** Operator tokens *)

(** X5.  The token of a binary operator tells the operator: two
    operators with the same token are the same operator.  Every operator
    but [IrBinOpInvalid] has a token, and [IrBinOpInvalid] stops the
    process at [zig_unreachable()]. *)
Theorem ir_bin_op_id_str_tokens (op_id : IrBinOp) :
  (forall op_id' token,
     ir_bin_op_id_str op_id = ret token ->
     ir_bin_op_id_str op_id' = ret token ->
     op_id = op_id')
  /\ (op_id <> IrBinOpInvalid ->
      exists token, token <> "" /\ ir_bin_op_id_str op_id = ret token)
  /\ (op_id = IrBinOpInvalid -> ir_bin_op_id_str op_id = zig_unreachable).
Proof.
  split; [ | split].
  - intros op_id' token.
    destruct op_id; try discriminate; intros [= <-];
      destruct op_id'; try discriminate; reflexivity.
  - intros Hvalid.
    destruct op_id; try contradiction; eexists; split;
      try reflexivity; discriminate.
  - now intros ->.
Qed.

Lemma ir_bin_op_id_str_tokens_witness :
  IrBinOpAddWrap = IrBinOpAddWrap
  /\ exists token, token <> "" /\ ir_bin_op_id_str IrBinOpMod = ret token.
Proof.
  split.
  - now apply (proj1 (ir_bin_op_id_str_tokens IrBinOpAddWrap) _ "+%").
  - apply (proj1 (proj2 (ir_bin_op_id_str_tokens IrBinOpMod))). discriminate.
Defined.

(** X6.  The token of a unary operator tells the operator: two
    operators with the same token are the same operator.  Every operator
    but [IrUnOpInvalid] has a token, and [IrUnOpInvalid] stops the process
    at [zig_unreachable()]. *)
Theorem ir_un_op_id_str_tokens (op_id : IrUnOp) :
  (forall op_id' token,
     ir_un_op_id_str op_id = ret token ->
     ir_un_op_id_str op_id' = ret token ->
     op_id = op_id')
  /\ (op_id <> IrUnOpInvalid ->
      exists token, token <> "" /\ ir_un_op_id_str op_id = ret token)
  /\ (op_id = IrUnOpInvalid -> ir_un_op_id_str op_id = zig_unreachable).
Proof.
  split; [ | split].
  - intros op_id' token.
    destruct op_id; try discriminate; intros [= <-];
      destruct op_id'; try discriminate; reflexivity.
  - intros Hvalid.
    destruct op_id; try contradiction; eexists; split;
      try reflexivity; discriminate.
  - now intros ->.
Qed.

Lemma ir_un_op_id_str_tokens_witness :
  IrUnOpUnwrapError = IrUnOpUnwrapError
  /\ exists token, token <> "" /\ ir_un_op_id_str IrUnOpError = ret token.
Proof.
  split.
  - now apply (proj1 (ir_un_op_id_str_tokens IrUnOpUnwrapError) _ "%%").
  - apply (proj1 (proj2 (ir_un_op_id_str_tokens IrUnOpError))). discriminate.
Defined.

(** X7.  A binary operation is written as the left operand, the token
    of the operator between two blanks, and the right operand; with the
    invalid operator the left operand is written and the process stops at
    [zig_unreachable()].  A unary operation is written as the token of
    the operator, a blank and the operand; with the invalid operator
    nothing is written. *)
Theorem ir_print_operation_text (irp : IrPrint) :
  (forall (instruction : IrInstructionBinOp) (left right : string),
     ir_print_other_instruction irp (bin_op_op1 instruction) = fprintf left ->
     ir_print_other_instruction irp (bin_op_op2 instruction) = fprintf right ->
     (forall token,
        ir_bin_op_id_str (bin_op_op_id instruction) = ret token ->
        ir_print_bin_op irp instruction
        = fprintf (left ++ " " ++ token ++ " " ++ right))
     /\ (bin_op_op_id instruction = IrBinOpInvalid ->
         ir_print_bin_op irp instruction = (left, Abort Unreachable)))
  /\ (forall (instruction : IrInstructionUnOp) (operand : string),
        ir_print_other_instruction irp (un_op_value instruction)
        = fprintf operand ->
        (forall token,
           ir_un_op_id_str (un_op_op_id instruction) = ret token ->
           ir_print_un_op irp instruction = fprintf (token ++ " " ++ operand))
        /\ (un_op_op_id instruction = IrUnOpInvalid ->
            ir_print_un_op irp instruction = ("", Abort Unreachable))).
Proof.
  split.
  - intros instruction left right Hleft Hright. unfold ir_print_bin_op.
    rewrite Hleft, Hright. split.
    + intros token ->. rewrite bind_ret_l, !fprintf_fprintf.
      now rewrite ?append_assoc.
    + intros ->. unfold bind, fprintf. simpl. now rewrite append_nil_r.
  - intros instruction operand Hoperand. unfold ir_print_un_op.
    rewrite Hoperand. split.
    + intros token ->. rewrite bind_ret_l, !fprintf_fprintf.
      now rewrite ?append_assoc.
    + now intros ->.
Qed.

Lemma ir_print_operation_text_witness :
  ir_print_bin_op sample_irp
    {| bin_op_base := runtime_instruction 3;
       bin_op_op1 := runtime_instruction 1;
       bin_op_op_id := IrBinOpAddWrap;
       bin_op_op2 := zeroed_instruction 2 |}
  = ("#1 +% zeroes", Done tt)
  /\ ir_print_bin_op sample_irp
       {| bin_op_base := runtime_instruction 3;
          bin_op_op1 := runtime_instruction 1;
          bin_op_op_id := IrBinOpInvalid;
          bin_op_op2 := zeroed_instruction 2 |}
     = ("#1", Abort Unreachable).
Proof.
  split.
  - apply (proj1 (proj1 (ir_print_operation_text sample_irp)
                    {| bin_op_base := runtime_instruction 3;
                       bin_op_op1 := runtime_instruction 1;
                       bin_op_op_id := IrBinOpAddWrap;
                       bin_op_op2 := zeroed_instruction 2 |}
                    "#1" "zeroes" eq_refl eq_refl) "+%").
    reflexivity.
  - apply (proj2 (proj1 (ir_print_operation_text sample_irp)
                    {| bin_op_base := runtime_instruction 3;
                       bin_op_op1 := runtime_instruction 1;
                       bin_op_op_id := IrBinOpInvalid;
                       bin_op_op2 := zeroed_instruction 2 |}
                    "#1" "zeroes" eq_refl eq_refl)).
    reflexivity.
Defined.

(** ** The aborts of the printer *)

Lemma outcome_deref_abort {A} (pointer : option A) (e : Fatal) :
  outcome (deref pointer) = Abort e -> e = InvalidAccess.
Proof. destruct pointer; simpl; [discriminate | now intros [= <-]]. Qed.

Lemma outcome_bin_op_abort (op_id : IrBinOp) (e : Fatal) :
  outcome (ir_bin_op_id_str op_id) = Abort e -> e = Unreachable.
Proof. destruct op_id; simpl; try discriminate. now intros [= <-]. Qed.

Lemma outcome_un_op_abort (op_id : IrUnOp) (e : Fatal) :
  outcome (ir_un_op_id_str op_id) = Abort e -> e = Unreachable.
Proof. destruct op_id; simpl; try discriminate. now intros [= <-]. Qed.

Lemma outcome_fprintf_bind {B} (s : string) (m : M B) :
  outcome (fprintf s ;; m) = outcome m.
Proof. now rewrite fprintf_bind. Qed.

Lemma for_loop_abort (count : N) (body : N -> M unit) (e : Fatal) :
  outcome (for_loop count body) = Abort e ->
  exists j, outcome (body j) = Abort e.
Proof. apply for_loop_from_abort. Qed.

Lemma value_fatal_instruction_fatal (e : Fatal) :
  value_fatal e -> instruction_fatal e.
Proof. now left. Qed.

Ltac instruction_fatal_done :=
  subst; unfold instruction_fatal, value_fatal; tauto.

Ltac instruction_fatal_step :=
  match goal with
  | H : Done _ = Abort _ |- _ => discriminate H
  | H : Abort _ = Abort _ |- _ => injection H as <-; instruction_fatal_done
  | H : outcome (fprintf _) = Abort _ |- _ => discriminate H
  | H : outcome (ret _) = Abort _ |- _ => discriminate H
  | H : outcome (abort _) = Abort _ |- _ =>
      injection H as <-; instruction_fatal_done
  | H : outcome zig_unreachable = Abort _ |- _ =>
      injection H as <-; instruction_fatal_done
  | H : outcome (assert _ _) = Abort _ |- _ =>
      apply outcome_assert_abort in H; instruction_fatal_done
  | H : outcome (at_index _ _) = Abort _ |- _ =>
      apply outcome_at_index_abort in H; instruction_fatal_done
  | H : outcome (deref _) = Abort _ |- _ =>
      apply outcome_deref_abort in H; instruction_fatal_done
  | H : outcome (ir_bin_op_id_str _) = Abort _ |- _ =>
      apply outcome_bin_op_abort in H; instruction_fatal_done
  | H : outcome (ir_un_op_id_str _) = Abort _ |- _ =>
      apply outcome_un_op_abort in H; instruction_fatal_done
  | H : outcome (ir_print_other_instruction _ _) = Abort _ |- _ =>
      apply (proj2 ir_print_const_value_fatal) in H;
      now apply value_fatal_instruction_fatal
  | H : outcome (ir_print_const_value _ _ _) = Abort _ |- _ =>
      apply (proj1 ir_print_const_value_fatal) in H;
      now apply value_fatal_instruction_fatal
  | H : outcome (for_loop _ _) = Abort _ |- _ =>
      apply for_loop_abort in H as (? & H)
  | H : outcome (_ <- _ ;; _) = Abort _ |- _ =>
      apply bind_abort_inv in H as [H | (? & _ & H)]
  | H : outcome (if ?b then _ else _) = Abort _ |- _ => destruct b
  | H : outcome (match ?x with _ => _ end) = Abort _ |- _ => destruct x
  end.

Lemma ir_print_instruction_fatal (irp : IrPrint)
    (instruction : IrInstructionNode) (e : Fatal) :
  outcome (ir_print_instruction irp instruction) = Abort e ->
  instruction_fatal e.
Proof.
  unfold ir_print_instruction. rewrite ir_print_prefix_text. intros H.
  apply bind_abort_inv in H as [H | (_ & _ & H)]; [discriminate H | ].
  apply bind_abort_inv in H as [H | (_ & _ & H)]; [ | discriminate H].
  destruct instruction;
    unfold ir_print_return, ir_print_const, ir_print_const_instruction,
      ir_print_bin_op, ir_print_decl_var, ir_print_cast, ir_print_call,
      ir_print_un_op, ir_print_cond_br, ir_print_br, ir_print_phi,
      ir_print_container_init_list, ir_print_container_init_fields,
      ir_print_struct_init, ir_print_unreachable, ir_print_elem_ptr,
      ir_print_var_ptr, ir_print_load_ptr, ir_print_store_ptr, ir_print_typeof,
      ir_print_to_ptr_type, ir_print_ptr_type_child, ir_print_field_ptr,
      ir_print_struct_field_ptr, ir_print_enum_field_ptr, ir_print_set_fn_test,
      ir_print_set_fn_visible, ir_print_set_debug_safety, ir_print_array_type,
      ir_print_slice_type, ir_print_asm, ir_print_compile_var, ir_print_size_of,
      ir_print_test_null, ir_print_unwrap_maybe, ir_print_ctz, ir_print_clz,
      ir_print_switch_br, ir_print_switch_var, ir_print_switch_target,
      ir_print_enum_tag, ir_print_static_eval, ir_print_import,
      ir_print_array_len, ir_print_ref, ir_print_other_block,
      ir_print_var_instruction in H;
    repeat instruction_fatal_step.
Qed.

Lemma value_fatal_reached (irp : IrPrint) (e : Fatal) :
  value_fatal e ->
  exists type_entry const_val,
    outcome (ir_print_const_value irp type_entry const_val) = Abort e.
Proof.
  intros [-> | [-> | [-> | ->]]].
  - exists None, (Build_ConstExprValue ConstValSpecialRuntime (x_bool true)).
    reflexivity.
  - exists None, (Build_ConstExprValue ConstValSpecialStatic (x_bool true)).
    reflexivity.
  - exists (Some (Build_TypeTableEntry TypeTableEntryIdInt "i32" data_none)),
      (Build_ConstExprValue ConstValSpecialStatic
         (x_bignum {| kind := BigNumKindFloat; is_negative := false;
                      x_uint := 0; x_float := {| printf_f := "" |} |})).
    reflexivity.
  - exists (Some (Build_TypeTableEntry TypeTableEntryIdFloat "f32" data_none)),
      (Build_ConstExprValue ConstValSpecialStatic (x_bignum bignum_zero)).
    reflexivity.
Qed.

(** X9.  The printer of an instruction, and so a dump, stops the process
    in nine ways and no other: the four of the constant-value renderer
    (with [zig_unreachable()] also reached by an invalid instruction or
    operator), and the assertions of [ir_print_return], [ir_print_call],
    [ir_print_phi] (two) and [ir_print_asm].  Each of the nine happens for
    some instruction. *)
Theorem ir_print_instruction_aborts (irp : IrPrint) (e : Fatal) :
  ((exists instruction,
      outcome (ir_print_instruction irp instruction) = Abort e)
   <-> instruction_fatal e)
  /\ (forall executable indent_size,
        outcome (ir_print executable indent_size) = Abort e ->
        instruction_fatal e).
Proof.
  split; [split | ].
  - intros (instruction & H). now apply ir_print_instruction_fatal in H.
  - intros [Hvalue | [-> | [-> | [-> | [-> | ->]]]]].
    + destruct (value_fatal_reached irp e Hvalue) as (type_entry & const_val & H).
      exists (IrInstructionIdConst
                {| const_base :=
                     Build_IrInstruction 0 type_entry const_val 0 false
                       sample_node |}).
      unfold ir_print_instruction. rewrite ir_print_prefix_text.
      rewrite outcome_fprintf_bind. now apply outcome_bind_abort.
    + exists (IrInstructionIdReturn
                {| return_base := runtime_instruction 0; return_value := None |}).
      unfold ir_print_instruction.
      now rewrite ir_print_prefix_text, outcome_fprintf_bind.
    + exists (IrInstructionIdCall
                {| call_base := runtime_instruction 0; call_fn_ref := None;
                   call_fn_entry := None; call_arg_count := 0;
                   call_args := [] |}).
      unfold ir_print_instruction.
      now rewrite ir_print_prefix_text, outcome_fprintf_bind.
    + exists (IrInstructionIdPhi
                {| phi_base := runtime_instruction 0; incoming_count := 0;
                   incoming_blocks := []; incoming_values := [] |}).
      unfold ir_print_instruction.
      now rewrite ir_print_prefix_text, outcome_fprintf_bind.
    + exists (IrInstructionIdPhi
                {| phi_base := runtime_instruction 0; incoming_count := SIZE_MAX;
                   incoming_blocks := []; incoming_values := [] |}).
      unfold ir_print_instruction.
      now rewrite ir_print_prefix_text, outcome_fprintf_bind.
    + exists (IrInstructionIdAsm
                {| asm_base := runtime_instruction 0; asm_input_list := [];
                   asm_output_types := []; asm_has_side_effects := false |}).
      unfold ir_print_instruction.
      now rewrite ir_print_prefix_text, outcome_fprintf_bind.
  - intros executable indent_size H. unfold ir_print in H.
    repeat instruction_fatal_step.
    now apply ir_print_instruction_fatal in H.
Qed.

Lemma ir_print_instruction_aborts_witness :
  instruction_fatal Unreachable.
Proof.
  apply (ir_print_instruction_aborts sample_irp).
  exists (IrInstructionIdInvalid (runtime_instruction 0)). reflexivity.
Defined.

(** ** The reads of the constant-value renderer *)

Section readable_value.
Variable print_value : option TypeTableEntry -> ConstExprValue -> M unit.
Variable print_operand : IrInstruction -> M unit.

Let value_read (v : ConstExprValue) : Prop :=
  forall type_entry,
    readable type_entry v ->
    outcome (print_value type_entry v) <> Abort InvalidAccess.

Lemma ir_print_array_elements_readable (child_type : TypeTableEntry) (len : N)
    (elements : list ConstExprValue) :
  Forall value_read elements ->
  forall i,
    len <= i + N.of_nat (length elements) ->
    Forall (readable (Some child_type)) (firstn (N.to_nat (len - i)) elements) ->
    outcome (ir_print_array_elements print_value child_type len i elements)
    <> Abort InvalidAccess.
Proof.
  unfold value_read.
  induction 1 as [|v elements Hv _ IH]; intros i Hlen Hall; simpl.
  - destruct (N.ltb_spec i len) as [Hlt | Hge]; [ | discriminate].
    simpl in Hlen. lia.
  - destruct (N.ltb_spec i len) as [Hlt | Hge]; [ | discriminate].
    rewrite (outcome_bind _ _ tt) by now destruct (negb (i =? 0)).
    replace (N.to_nat (len - i)) with (S (N.to_nat (len - (i + 1)))) in Hall
      by lia.
    simpl firstn in Hall. inversion Hall as [|? ? Hhead Htail]; subst.
    intros H. apply bind_abort_inv in H as [H | (? & _ & H)].
    + now apply (Hv _ Hhead).
    + revert H. apply IH; [simpl in Hlen; lia | exact Htail].
Qed.

Lemma ir_print_static_value_readable (data : ConstExprValueData) :
  (forall pointee, data = x_ptr pointee -> value_read pointee) ->
  (forall elements, data = x_array elements -> Forall value_read elements) ->
  (forall child, data = x_maybe (Some child) -> value_read child) ->
  (forall fn first_arg, data = x_bound_fn fn first_arg ->
     readable (type_entry first_arg) (static_value first_arg) ->
     outcome (print_operand first_arg) <> Abort InvalidAccess) ->
  forall type_entry,
    readable_data type_entry data ->
    outcome (ir_print_static_value print_value print_operand data type_entry)
    <> Abort InvalidAccess.
Proof.
  intros Hptr Harray Hmaybe Hbound type_entry. unfold value_read in *.
  induction type_entry as [id name type_data IH] using TypeTableEntry_alias_ind.
  intros Hread.
  inversion Hread; subst; simpl; try discriminate.
  - (* TypeDecl *) now apply (IH _ eq_refl).
  - (* Int *) now destruct (kind bignum).
  - (* Float *) now destruct (kind bignum).
  - (* Pointer *)
    rewrite outcome_fprintf_bind. now apply (Hptr _ eq_refl).
  - (* Array *)
    rewrite outcome_fprintf_bind. intros H.
    apply bind_abort_inv in H as [H | (? & _ & H)]; [ | discriminate H].
    revert H. apply ir_print_array_elements_readable.
    + now apply Harray.
    + lia.
    + now rewrite N.sub_0_r.
  - (* Array of no element *)
    rewrite outcome_fprintf_bind. intros H.
    apply bind_abort_inv in H as [H | (? & _ & H)]; [ | discriminate H].
    destruct data; try discriminate H.
    destruct elements; discriminate H.
  - (* Maybe *) now apply (Hmaybe _ eq_refl).
  - (* BoundFn *)
    rewrite outcome_fprintf_bind. now apply (Hbound _ _ eq_refl).
Qed.

End readable_value.

Lemma ir_print_const_value_readable :
  (forall v irp type_entry,
     readable type_entry v ->
     outcome (ir_print_const_value irp type_entry v) <> Abort InvalidAccess)
  /\ (forall i irp,
        readable (type_entry i) (static_value i) ->
        outcome (ir_print_other_instruction irp i) <> Abort InvalidAccess).
Proof.
  pose (P := fun v => forall irp type_entry,
               readable type_entry v ->
               outcome (ir_print_const_value irp type_entry v)
               <> Abort InvalidAccess).
  pose (Q := fun i => forall irp,
               readable (type_entry i) (static_value i) ->
               outcome (ir_print_other_instruction irp i) <> Abort InvalidAccess).
  assert (value_step : forall special data,
    (forall pointee, data = x_ptr pointee -> P pointee) ->
    (forall elements, data = x_array elements -> Forall P elements) ->
    (forall child, data = x_maybe (Some child) -> P child) ->
    (forall fn first_arg, data = x_bound_fn fn first_arg -> Q first_arg) ->
    P (Build_ConstExprValue special data)).
  { intros special data Hptr Harray Hmaybe Hbound irp type_entry Hread.
    inversion Hread; subst; try discriminate.
    rewrite ir_print_const_value_static.
    apply ir_print_static_value_readable; try assumption.
    - intros p Hp ty. apply (Hptr p Hp).
    - intros l Hl. specialize (Harray l Hl).
      eapply Forall_impl; [ | exact Harray]. intros v Hv ty. apply Hv.
    - intros c Hc ty. apply (Hmaybe c Hc).
    - intros fn i Hi. apply (Hbound fn i Hi). }
  assert (instruction_step : forall i, P (static_value i) -> Q i).
  { intros i Hv irp Hread. rewrite ir_print_other_instruction_eq.
    unfold ir_print_const_instruction.
    destruct (special (static_value i)); simpl; try discriminate;
      now apply Hv. }
  split.
  - exact (ConstExprValue_nested_ind P Q value_step instruction_step).
  - exact (IrInstruction_nested_ind P Q value_step instruction_step).
Qed.

Lemma readable_value_fatal_reached (irp : IrPrint) (e : Fatal) :
  readable_value_fatal e ->
  exists type_entry const_val,
    readable type_entry const_val
    /\ outcome (ir_print_const_value irp type_entry const_val) = Abort e.
Proof.
  intros [-> | [-> | ->]].
  - exists None, (Build_ConstExprValue ConstValSpecialRuntime (x_bool true)).
    split; [constructor | reflexivity].
  - exists (Some (Build_TypeTableEntry TypeTableEntryIdInt "i32" data_none)),
      (Build_ConstExprValue ConstValSpecialStatic
         (x_bignum {| kind := BigNumKindFloat; is_negative := false;
                      x_uint := 0; x_float := {| printf_f := "" |} |})).
    split; [repeat constructor | reflexivity].
  - exists (Some (Build_TypeTableEntry TypeTableEntryIdFloat "f32" data_none)),
      (Build_ConstExprValue ConstValSpecialStatic (x_bignum bignum_zero)).
    split; [repeat constructor | reflexivity].
Qed.

(** X8.  On a value it can read -- the type is not null where it is
    read, the members read of the unions are the active ones, and an
    array holds the elements its type counts -- the constant-value
    renderer stops the process in three ways and no other: at
    [zig_unreachable()] (a runtime value, at the top or nested), and at
    the two assertions on the kind of a number.  Each of the three
    happens for some value it can read.  A statically known value with a
    null type stops at the read of the type, with nothing written. *)
Theorem ir_print_const_value_aborts (irp : IrPrint) :
  (forall e,
     (exists type_entry const_val,
        readable type_entry const_val
        /\ outcome (ir_print_const_value irp type_entry const_val) = Abort e)
     <-> readable_value_fatal e)
  /\ (forall data,
        ir_print_const_value irp None
          (Build_ConstExprValue ConstValSpecialStatic data)
        = abort InvalidAccess).
Proof.
  split; [ | reflexivity].
  intros e. split.
  - intros (type_entry & const_val & Hread & H).
    pose proof (proj1 ir_print_const_value_fatal _ _ _ _ H) as Hfatal.
    unfold readable_value_fatal.
    destruct Hfatal as [-> | [-> | [-> | ->]]]; try tauto.
    now contradiction (proj1 ir_print_const_value_readable _ irp _ Hread).
  - apply readable_value_fatal_reached.
Qed.

Lemma ir_print_const_value_aborts_witness :
  readable_value_fatal (AssertionFailed "bignum->kind == BigNumKindInt")
  /\ ir_print_const_value sample_irp None
       (Build_ConstExprValue ConstValSpecialStatic (x_bool true))
     = ("", Abort InvalidAccess).
Proof.
  split.
  - apply (proj1 (ir_print_const_value_aborts sample_irp)).
    exists (Some type_u8),
      (Build_ConstExprValue ConstValSpecialStatic
         (x_bignum {| kind := BigNumKindFloat; is_negative := false;
                      x_uint := 0; x_float := {| printf_f := "" |} |})).
    split; [repeat constructor | reflexivity].
  - apply (proj2 (ir_print_const_value_aborts sample_irp)).
Defined.

(** ** Values that fit their type are rendered to the end *)




Section static_value_done.
Variable print_value : option TypeTableEntry -> ConstExprValue -> M unit.
Variable print_operand : IrInstruction -> M unit.





End static_value_done.




(** ** Lists with separators *)

Lemma for_loop_from_at_index_from {A} (before l : list A)
    (f : N -> A -> M unit) :
  for_loop_from (length l) (N.of_nat (length before))
    (fun i => x <- at_index (before ++ l)%list i ;; f i x)
  = for_each_from (N.of_nat (length before)) l f.
Proof.
  revert before. induction l as [|x l IH]; intros before; [reflexivity | ].
  simpl. rewrite at_index_app, bind_ret_l.
  replace (N.of_nat (length before) + 1)
    with (N.of_nat (length (before ++ [x])%list))
    by (rewrite length_app; simpl; lia).
  replace (before ++ x :: l)%list with ((before ++ [x]) ++ l)%list
    by (now rewrite <- app_assoc).
  now rewrite IH.
Qed.

Lemma for_each_from_separated {A} (sep : string) (f : N -> A -> M unit)
    (l : list A) (texts : list string) :
  Forall2 (fun x t => forall i, f i x = fprintf (separator sep i ++ t)) l texts ->
  forall i, i <> 0 ->
    for_each_from i l f
    = fprintf (String.concat "" (map (fun t => sep ++ t) texts)).
Proof.
  induction 1 as [|x t l texts Hx _ IH]; intros i Hi; [reflexivity | ].
  simpl for_each_from. rewrite Hx, IH by lia. unfold separator.
  apply N.eqb_neq in Hi. rewrite Hi.
  rewrite fprintf_fprintf. simpl map. rewrite concat_empty_cons.
  now rewrite ?append_assoc.
Qed.

(** A loop over an array that writes a separator before every element
    but the first writes the texts of the elements with the separator
    between them. *)
Lemma for_loop_separated {A} (sep : string) (f : N -> A -> M unit)
    (l : list A) (texts : list string) :
  Forall2 (fun x t => forall i, f i x = fprintf (separator sep i ++ t)) l texts ->
  for_loop (N.of_nat (length l)) (fun i => x <- at_index l i ;; f i x)
  = fprintf (String.concat sep texts).
Proof.
  intros H. unfold for_loop. rewrite Nat2N.id.
  pose proof (for_loop_from_at_index_from [] l f) as Hloop.
  simpl in Hloop. rewrite Hloop. clear Hloop.
  destruct H as [|x t l texts Hx Hrest]; [reflexivity | ].
  simpl for_each_from. rewrite Hx.
  rewrite (for_each_from_separated sep f l texts Hrest 1) by discriminate.
  now rewrite fprintf_fprintf, concat_separator.
Qed.

Lemma separator_operand (irp : IrPrint) (sep t : string) (i : N)
    (operand : IrInstruction) :
  ir_print_other_instruction irp operand = fprintf t ->
  ((if negb (i =? 0) then fprintf sep else ret tt) ;;
   ir_print_other_instruction irp operand)
  = fprintf (separator sep i ++ t).
Proof.
  intros ->. unfold separator. destruct (i =? 0); simpl.
  - now rewrite bind_ret_l.
  - apply fprintf_fprintf.
Qed.

(** ** Calls *)

(** X11.  A call is written as the callee, an opening parenthesis, the
    arguments with a comma and a blank between two arguments, and a
    closing parenthesis; a call with no argument is written with [()].
    The callee is the symbol name of [fn_entry] when there is one, and
    otherwise the operand [fn_ref]; with neither the process stops at the
    assertion, with nothing written. *)
Theorem ir_print_call_text (irp : IrPrint) (call_instruction : IrInstructionCall)
    (texts : list string) :
  call_arg_count call_instruction
  = N.of_nat (length (call_args call_instruction)) ->
  Forall2 (fun arg t => ir_print_other_instruction irp arg = fprintf t)
    (call_args call_instruction) texts ->
  (forall fn_entry,
     call_fn_entry call_instruction = Some fn_entry ->
     ir_print_call irp call_instruction
     = fprintf (symbol_name fn_entry ++ "(" ++ String.concat ", " texts ++ ")"))
  /\ (forall fn_ref t,
        call_fn_entry call_instruction = None ->
        call_fn_ref call_instruction = Some fn_ref ->
        ir_print_other_instruction irp fn_ref = fprintf t ->
        ir_print_call irp call_instruction
        = fprintf (t ++ "(" ++ String.concat ", " texts ++ ")"))
  /\ (call_fn_entry call_instruction = None ->
      call_fn_ref call_instruction = None ->
      ir_print_call irp call_instruction
      = ("", Abort (AssertionFailed "call_instruction->fn_ref"))).
Proof.
  intros Hcount Hargs.
  assert (Hloop :
    for_loop (call_arg_count call_instruction) (fun i =>
      arg <- at_index (call_args call_instruction) i ;;
      (if negb (i =? 0) then fprintf ", " else ret tt) ;;
      ir_print_other_instruction irp arg)
    = fprintf (String.concat ", " texts)).
  { rewrite Hcount. apply for_loop_separated.
    eapply Forall2_impl; [ | exact Hargs].
    intros arg t Harg i. now apply separator_operand. }
  unfold ir_print_call. rewrite Hloop. split; [ | split].
  - intros fn_entry ->. now rewrite !fprintf_fprintf, ?append_assoc.
  - intros fn_ref t -> -> Href. simpl. rewrite !bind_ret_l, Href.
    now rewrite !fprintf_fprintf, ?append_assoc.
  - now intros -> ->.
Qed.

Lemma Forall2_combine_map {A} (R R' : A -> string -> Prop)
    (g : A * string -> string) (l : list A) (texts : list string) :
  (forall x t, R x t -> R' x (g (x, t))) ->
  Forall2 R l texts ->
  Forall2 R' l (map g (combine l texts)).
Proof.
  intros Hg. induction 1 as [|x t l texts Hx _ IH]; simpl; constructor; auto.
Qed.

Lemma ir_print_call_text_witness :
  ir_print_call sample_irp
    {| call_base := runtime_instruction 9; call_fn_ref := None;
       call_fn_entry := Some {| symbol_name := "foo" |}; call_arg_count := 2;
       call_args := [runtime_instruction 1; zeroed_instruction 2] |}
  = ("foo(#1, zeroes)", Done tt)
  /\ ir_print_call sample_irp
       {| call_base := runtime_instruction 9;
          call_fn_ref := Some (runtime_instruction 3);
          call_fn_entry := None; call_arg_count := 0; call_args := [] |}
     = ("#3()", Done tt).
Proof.
  split.
  - apply (proj1 (ir_print_call_text sample_irp
                    {| call_base := runtime_instruction 9; call_fn_ref := None;
                       call_fn_entry := Some {| symbol_name := "foo" |};
                       call_arg_count := 2;
                       call_args := [runtime_instruction 1; zeroed_instruction 2] |}
                    ["#1"; "zeroes"] eq_refl
                    ltac:(repeat constructor)) {| symbol_name := "foo" |}).
    reflexivity.
  - apply (proj1 (proj2 (ir_print_call_text sample_irp
                    {| call_base := runtime_instruction 9;
                       call_fn_ref := Some (runtime_instruction 3);
                       call_fn_entry := None; call_arg_count := 0;
                       call_args := [] |}
                    [] eq_refl ltac:(constructor)))
             (runtime_instruction 3) "#3"); reflexivity.
Defined.

(** ** Initialisations *)

(** X12.  A container initialisation with a positional list is written
    as the container type, an opening brace, the items with a comma and a
    blank between two items, and a closing brace; with no item it is
    written with [{}]. *)
Theorem ir_print_container_init_list_text (irp : IrPrint)
    (instruction : IrInstructionContainerInitList)
    (type_text : string) (texts : list string) :
  item_count instruction = N.of_nat (length (items instruction)) ->
  ir_print_other_instruction irp (init_list_container_type instruction)
  = fprintf type_text ->
  Forall2 (fun item t => ir_print_other_instruction irp item = fprintf t)
    (items instruction) texts ->
  ir_print_container_init_list irp instruction
  = fprintf (type_text ++ "{" ++ String.concat ", " texts ++ "}").
Proof.
  intros Hcount Htype Hitems. unfold ir_print_container_init_list.
  rewrite Htype, Hcount.
  rewrite (for_loop_separated ", " _ (items instruction) texts).
  - now rewrite !fprintf_fprintf, ?append_assoc.
  - eapply Forall2_impl; [ | exact Hitems].
    intros item t Hitem i. now apply separator_operand.
Qed.

Lemma ir_print_container_init_list_text_witness :
  ir_print_container_init_list sample_irp init_list_of_two
  = ("#1{#2, #3}", Done tt).
Proof.
  apply (ir_print_container_init_list_text sample_irp init_list_of_two "#1"
           ["#2"; "#3"]); [reflexivity | reflexivity | repeat constructor].
Defined.

Lemma separator_field (irp : IrPrint) (name t : string) (i : N)
    (value : IrInstruction) :
  ir_print_other_instruction irp value = fprintf t ->
  (fprintf ((if i =? 0 then "" else ", ") ++ "." ++ name ++ " = ") ;;
   ir_print_other_instruction irp value)
  = fprintf (separator ", " i ++ field_text name t).
Proof.
  intros ->. unfold separator, field_text. rewrite fprintf_fprintf.
  now rewrite ?append_assoc.
Qed.

(** X13.  A container initialisation with named fields is written as the
    container type, an opening brace, the fields, each as
    [.<name> = <value>], with a comma and a blank between two fields, and
    [} // container init]; a struct initialisation is written in the same
    way, behind the name of the struct type and a blank, and ends with
    [} // struct init]. *)
Theorem ir_print_init_fields_text (irp : IrPrint) (texts : list string) :
  (forall (instruction : IrInstructionContainerInitFields) (type_text : string),
     init_fields_field_count instruction
     = N.of_nat (length (init_fields_fields instruction)) ->
     ir_print_other_instruction irp (init_fields_container_type instruction)
     = fprintf type_text ->
     Forall2 (fun field t =>
                ir_print_other_instruction irp (init_field_value field)
                = fprintf t)
       (init_fields_fields instruction) texts ->
     ir_print_container_init_fields irp instruction
     = fprintf (type_text ++ "{"
                ++ String.concat ", "
                     (map (fun field_t =>
                             field_text (init_field_name (fst field_t))
                               (snd field_t))
                        (combine (init_fields_fields instruction) texts))
                ++ "} // container init"))
  /\ (forall instruction : IrInstructionStructInit,
        struct_init_field_count instruction
        = N.of_nat (length (struct_init_fields instruction)) ->
        Forall2 (fun field t =>
                   ir_print_other_instruction irp (struct_init_field_value field)
                   = fprintf t)
          (struct_init_fields instruction) texts ->
        ir_print_struct_init irp instruction
        = fprintf (type_name (struct_init_struct_type instruction) ++ " {"
                   ++ String.concat ", "
                        (map (fun field_t =>
                                field_text
                                  (struct_field_name
                                     (type_struct_field (fst field_t)))
                                  (snd field_t))
                           (combine (struct_init_fields instruction) texts))
                   ++ "} // struct init")).
Proof.
  split.
  - intros instruction type_text Hcount Htype Hfields.
    unfold ir_print_container_init_fields. rewrite Htype, Hcount.
    rewrite (for_loop_separated ", " _ (init_fields_fields instruction)
               (map (fun field_t =>
                       field_text (init_field_name (fst field_t)) (snd field_t))
                  (combine (init_fields_fields instruction) texts))).
    + now rewrite !fprintf_fprintf, ?append_assoc.
    + eapply Forall2_combine_map; [ | exact Hfields].
      intros field t Hfield i. now apply separator_field.
  - intros instruction Hcount Hfields.
    unfold ir_print_struct_init. rewrite Hcount.
    rewrite (for_loop_separated ", " _ (struct_init_fields instruction)
               (map (fun field_t =>
                       field_text
                         (struct_field_name (type_struct_field (fst field_t)))
                         (snd field_t))
                  (combine (struct_init_fields instruction) texts))).
    + now rewrite !fprintf_fprintf, ?append_assoc.
    + eapply Forall2_combine_map; [ | exact Hfields].
      intros field t Hfield i. now apply separator_field.
Qed.

Lemma ir_print_init_fields_text_witness :
  ir_print_container_init_fields sample_irp init_fields_of_one
  = ("#1{.x = #2} // container init", Done tt).
Proof.
  apply (proj1 (ir_print_init_fields_text sample_irp ["#2"])
           init_fields_of_one "#1");
    [reflexivity | reflexivity | repeat constructor].
Defined.

(** ** Switches *)

(** X14.  A switch is written as [switch (<target>) ], behind [inline ]
    when it is inline, then each case as [<value> => <block>, ], in
    order, and last [else => <block>], which is written also when there
    is no case. *)
Theorem ir_print_switch_br_text (irp : IrPrint)
    (instruction : IrInstructionSwitchBr) (target_text : string)
    (texts : list string) :
  switch_br_case_count instruction
  = N.of_nat (length (switch_br_cases instruction)) ->
  ir_print_other_instruction irp (switch_br_target_value instruction)
  = fprintf target_text ->
  Forall2 (fun this_case t =>
             ir_print_other_instruction irp (case_value this_case) = fprintf t)
    (switch_br_cases instruction) texts ->
  ir_print_switch_br irp instruction
  = fprintf ((if switch_br_is_inline instruction then "inline " else "")
             ++ "switch (" ++ target_text ++ ") "
             ++ String.concat ""
                  (map (fun case_t =>
                          case_text (snd case_t) (case_block (fst case_t)))
                     (combine (switch_br_cases instruction) texts))
             ++ "else => $" ++ name_hint (switch_br_else_block instruction)
             ++ "_" ++ dec (block_debug_id (switch_br_else_block instruction))).
Proof.
  intros Hcount Htarget Hcases. unfold ir_print_switch_br.
  rewrite Htarget, Hcount.
  rewrite (for_loop_separated "" _ (switch_br_cases instruction)
             (map (fun case_t => case_text (snd case_t) (case_block (fst case_t)))
                (combine (switch_br_cases instruction) texts))).
  - unfold ir_print_other_block.
    rewrite !fprintf_fprintf, ?append_assoc. reflexivity.
  - eapply Forall2_combine_map; [ | exact Hcases].
    intros this_case t Hcase i. simpl. rewrite Hcase. unfold ir_print_other_block, case_text, separator.
    rewrite !fprintf_fprintf. destruct (i =? 0); now rewrite ?append_assoc.
Qed.

Lemma ir_print_switch_br_text_witness :
  ir_print_switch_br sample_irp
    {| switch_br_base := runtime_instruction 9;
       switch_br_target_value := runtime_instruction 1;
       switch_br_else_block := block_else;
       switch_br_case_count := 1;
       switch_br_cases :=
         [{| case_value := zeroed_instruction 2; case_block := block_then |}];
       switch_br_is_inline := true |}
  = ("inline switch (#1) zeroes => $then_0, else => $else_1", Done tt).
Proof.
  apply (ir_print_switch_br_text sample_irp
           {| switch_br_base := runtime_instruction 9;
              switch_br_target_value := runtime_instruction 1;
              switch_br_else_block := block_else;
              switch_br_case_count := 1;
              switch_br_cases :=
                [{| case_value := zeroed_instruction 2;
                    case_block := block_then |}];
              switch_br_is_inline := true |}
           "#1" ["zeroes"]); [reflexivity | reflexivity | repeat constructor].
Defined.

(** ** Dumps of several blocks *)

Lemma for_each_app {A} (l1 l2 : list A) (f : A -> M unit) :
  for_each (l1 ++ l2)%list f = (for_each l1 f ;; for_each l2 f).
Proof.
  induction l1 as [|x l1 IH]; simpl.
  - now rewrite bind_ret_l.
  - now rewrite IH, bind_assoc.
Qed.

Lemma ir_print_for_each (executable : IrExecutable) (indent_size : Z) :
  ir_print executable indent_size
  = for_each (basic_block_list executable) (fun current_block =>
      fprintf (label_text current_block) ;;
      for_each (instruction_list current_block)
        (ir_print_instruction
           {| indent := indent_size; indent_size := indent_size |})).
Proof.
  unfold ir_print. rewrite for_loop_at_index.
  apply for_each_ext. intros current_block.
  now rewrite for_loop_at_index.
Qed.

Lemma ir_print_blocks_app (blocks blocks' : list IrBasicBlock) (indent_size : Z) :
  ir_print {| basic_block_list := blocks ++ blocks' |} indent_size
  = (ir_print {| basic_block_list := blocks |} indent_size ;;
     ir_print {| basic_block_list := blocks' |} indent_size).
Proof. rewrite !ir_print_for_each. simpl. apply for_each_app. Qed.

(** X15.  The dump of the blocks of two lists, one after the other, is
    the dump of the first list followed by the dump of the second: the
    texts follow each other when the first dump is rendered to the end,
    and nothing of the second list is written when the first dump
    aborts. *)
Theorem ir_print_append (blocks blocks' : list IrBasicBlock) (indent_size : Z) :
  ir_print {| basic_block_list := blocks ++ blocks' |} indent_size
  = (ir_print {| basic_block_list := blocks |} indent_size ;;
     ir_print {| basic_block_list := blocks' |} indent_size)
  /\ (outcome (ir_print {| basic_block_list := blocks |} indent_size) = Done tt ->
      text (ir_print {| basic_block_list := blocks ++ blocks' |} indent_size)
      = text (ir_print {| basic_block_list := blocks |} indent_size)
        ++ text (ir_print {| basic_block_list := blocks' |} indent_size))
  /\ (forall e,
        outcome (ir_print {| basic_block_list := blocks |} indent_size) = Abort e ->
        ir_print {| basic_block_list := blocks ++ blocks' |} indent_size
        = ir_print {| basic_block_list := blocks |} indent_size).
Proof.
  pose proof (ir_print_blocks_app blocks blocks' indent_size) as Happ.
  split; [exact Happ | split].
  - intros Hdone. rewrite Happ. now rewrite (text_bind _ _ tt Hdone).
  - intros e Habort. rewrite Happ.
    destruct (ir_print {| basic_block_list := blocks |} indent_size)
      as [s [[] | e']]; [discriminate Habort | reflexivity].
Qed.

Lemma ir_print_append_witness :
  text (ir_print sample_executable 2)
  = text (ir_print {| basic_block_list :=
                       firstn 1 (basic_block_list sample_executable) |} 2)
    ++ text (ir_print {| basic_block_list :=
                          skipn 1 (basic_block_list sample_executable) |} 2).
Proof.
  apply (proj1 (proj2 (ir_print_append
                         (firstn 1 (basic_block_list sample_executable))
                         (skipn 1 (basic_block_list sample_executable)) 2))).
  reflexivity.
Defined.

Lemma bind_stops {A B} (m : M A) (k k' : A -> M B) (e : Fatal) :
  outcome m = Abort e -> (x <- m ;; k x) = (x <- m ;; k' x).
Proof. destruct m as [s [a | e']]; [discriminate | reflexivity]. Qed.

Lemma for_each_all_done {A} (l : list A) (f : A -> M unit) :
  Forall (fun x => outcome (f x) = Done tt) l -> outcome (for_each l f) = Done tt.
Proof.
  induction 1 as [|x l Hx _ IH]; [reflexivity | ].
  simpl. now rewrite (outcome_bind _ _ tt Hx).
Qed.

Lemma for_each_stops {A} (l : list A) (x : A) (rest rest' : list A)
    (f : A -> M unit) (e : Fatal) :
  outcome (for_each l f) = Done tt ->
  outcome (f x) = Abort e ->
  outcome (for_each (l ++ x :: rest) f) = Abort e
  /\ for_each (l ++ x :: rest') f = for_each (l ++ x :: rest) f.
Proof.
  intros Hdone Habort. rewrite !for_each_app. simpl for_each. split.
  - rewrite (outcome_bind _ _ tt Hdone). now apply outcome_bind_abort.
  - apply bind_ext; [reflexivity | intros _]. now apply (bind_stops _ _ _ e).
Qed.

(** X16.  A dump stops at the first instruction that aborts: it ends in
    the abort of that instruction, and it is the same dump, in the text
    passed to [fprintf] and in the abort, whatever instructions follow in
    the block and whatever blocks follow the block: none of them is
    visited. *)
Theorem ir_print_stops_at_abort (indent_size : Z)
    (before after : list IrBasicBlock) (block : IrBasicBlock)
    (done rest : list IrInstructionNode) (instruction : IrInstructionNode)
    (e : Fatal) :
  let irp := {| indent := indent_size; indent_size := indent_size |} in
  instruction_list block = (done ++ instruction :: rest)%list ->
  outcome (ir_print {| basic_block_list := before |} indent_size) = Done tt ->
  Forall (fun i => outcome (ir_print_instruction irp i) = Done tt) done ->
  outcome (ir_print_instruction irp instruction) = Abort e ->
  outcome (ir_print {| basic_block_list := before ++ block :: after |} indent_size)
  = Abort e
  /\ (forall rest' after',
        ir_print
          {| basic_block_list :=
               before
               ++ with_instruction_list block (done ++ instruction :: rest')
               :: after' |} indent_size
        = ir_print {| basic_block_list := before ++ block :: after |}
            indent_size).
Proof.
  intros irp Hlist Hbefore Hdone Habort.
  apply for_each_all_done in Hdone.
  rewrite ir_print_for_each in Hbefore. simpl in Hbefore. fold irp in Hbefore.
  assert (Hblock : forall rest',
    (fprintf (label_text block) ;;
     for_each (done ++ instruction :: rest') (ir_print_instruction irp))
    = (fprintf (label_text block) ;;
       for_each (instruction_list block) (ir_print_instruction irp))
    /\ outcome (fprintf (label_text block) ;;
                for_each (instruction_list block) (ir_print_instruction irp))
       = Abort e).
  { intros rest'. rewrite Hlist, outcome_fprintf_bind.
    destruct (for_each_stops done instruction rest rest'
                (ir_print_instruction irp) e Hdone Habort) as [Hout Heq].
    split; [now rewrite Heq | exact Hout]. }
  split.
  - rewrite ir_print_for_each. simpl basic_block_list. fold irp.
    apply (for_each_stops before block after after _ e Hbefore).
    apply (Hblock rest).
  - intros rest' after'. rewrite !ir_print_for_each. simpl basic_block_list.
    fold irp. rewrite !for_each_app. simpl for_each.
    apply bind_ext; [reflexivity | intros _].
    change (label_text (with_instruction_list block
                          (done ++ instruction :: rest')%list))
      with (label_text block).
    simpl instruction_list.
    rewrite (proj1 (Hblock rest')).
    apply (bind_stops _ _ _ e). apply (Hblock rest).
Qed.

Lemma ir_print_stops_at_abort_witness :
  outcome
    (ir_print
       {| basic_block_list :=
            [{| block_ref := block_then;
                instruction_list :=
                  [IrInstructionIdPhi phi_then_else;
                   IrInstructionIdInvalid (runtime_instruction 6);
                   IrInstructionIdStorePtr store_to_zeroed] |};
             {| block_ref := block_else; instruction_list := [] |}] |} 0)
  = Abort Unreachable
  /\ ir_print
       {| basic_block_list :=
            [{| block_ref := block_then;
                instruction_list :=
                  [IrInstructionIdPhi phi_then_else;
                   IrInstructionIdInvalid (runtime_instruction 6)] |}] |} 0
     = ir_print
         {| basic_block_list :=
              [{| block_ref := block_then;
                  instruction_list :=
                    [IrInstructionIdPhi phi_then_else;
                     IrInstructionIdInvalid (runtime_instruction 6);
                     IrInstructionIdStorePtr store_to_zeroed] |};
               {| block_ref := block_else; instruction_list := [] |}] |} 0.
Proof.
  split.
  - apply (ir_print_stops_at_abort 0 []
             [{| block_ref := block_else; instruction_list := [] |}]
             {| block_ref := block_then;
                instruction_list :=
                  [IrInstructionIdPhi phi_then_else;
                   IrInstructionIdInvalid (runtime_instruction 6);
                   IrInstructionIdStorePtr store_to_zeroed] |}
             [IrInstructionIdPhi phi_then_else]
             [IrInstructionIdStorePtr store_to_zeroed]
             (IrInstructionIdInvalid (runtime_instruction 6)) Unreachable);
      solve [reflexivity | repeat constructor].
  - refine (proj2 (ir_print_stops_at_abort 0 []
             [{| block_ref := block_else; instruction_list := [] |}]
             {| block_ref := block_then;
                instruction_list :=
                  [IrInstructionIdPhi phi_then_else;
                   IrInstructionIdInvalid (runtime_instruction 6);
                   IrInstructionIdStorePtr store_to_zeroed] |}
             [IrInstructionIdPhi phi_then_else]
             [IrInstructionIdStorePtr store_to_zeroed]
             (IrInstructionIdInvalid (runtime_instruction 6)) Unreachable
             _ _ _ _) [] []);
      solve [reflexivity | repeat constructor].
Defined.

(** ** Safety comments *)

(** X17.  An element pointer that is rendered to the end is written as
    [&], the array pointer, the element index between brackets, and the
    comment [ // no safety] when its safety check is off.  So it ends
    with the comment exactly when the check is off, and with the closing
    bracket when the check is on. *)
Theorem ir_print_elem_ptr_no_safety (irp : IrPrint)
    (instruction : IrInstructionElemPtr) :
  outcome (ir_print_elem_ptr irp instruction) = Done tt ->
  text (ir_print_elem_ptr irp instruction)
  = "&"
    ++ text (ir_print_other_instruction irp (elem_ptr_array_ptr instruction))
    ++ "["
    ++ text (ir_print_other_instruction irp (elem_ptr_elem_index instruction))
    ++ "]"
    ++ (if elem_ptr_safety_check_on instruction then "" else " // no safety")
  /\ (ends_with " // no safety" (text (ir_print_elem_ptr irp instruction))
      <-> elem_ptr_safety_check_on instruction = false)
  /\ (elem_ptr_safety_check_on instruction = true ->
      ends_with "]" (text (ir_print_elem_ptr irp instruction))).
Proof.
  unfold ir_print_elem_ptr. intros Hdone.
  assert (Htext :
    text (fprintf "&" ;;
          ir_print_other_instruction irp (elem_ptr_array_ptr instruction) ;;
          fprintf "[" ;;
          ir_print_other_instruction irp (elem_ptr_elem_index instruction) ;;
          fprintf "]" ;;
          (if negb (elem_ptr_safety_check_on instruction)
           then fprintf " // no safety" else ret tt))
    = "&"
      ++ text (ir_print_other_instruction irp (elem_ptr_array_ptr instruction))
      ++ "["
      ++ text (ir_print_other_instruction irp (elem_ptr_elem_index instruction))
      ++ "]"
      ++ (if elem_ptr_safety_check_on instruction then "" else " // no safety")).
  { rewrite outcome_fprintf_bind in Hdone.
    apply bind_done in Hdone as ([] & Harray & Hdone).
    rewrite outcome_fprintf_bind in Hdone.
    apply bind_done in Hdone as ([] & Hindex & _).
    destruct (ir_print_other_instruction irp (elem_ptr_array_ptr instruction))
      as [array_text array_outcome].
    destruct (ir_print_other_instruction irp (elem_ptr_elem_index instruction))
      as [index_text index_outcome].
    simpl in Harray, Hindex. subst array_outcome index_outcome.
    now destruct (elem_ptr_safety_check_on instruction). }
  split; [exact Htext | ].
  rewrite Htext. clear Htext Hdone.
  set (array_text :=
         text (ir_print_other_instruction irp (elem_ptr_array_ptr instruction))).
  set (index_text :=
         text (ir_print_other_instruction irp (elem_ptr_elem_index instruction))).
  assert (Hbracket : ends_with "]" ("&" ++ array_text ++ "[" ++ index_text ++ "]")).
  { exists ("&" ++ array_text ++ "[" ++ index_text).
    now rewrite !append_assoc. }
  destruct (elem_ptr_safety_check_on instruction).
  - change ("]" ++ "") with "]".
    split; [split; [ | discriminate] | intros _; exact Hbracket].
    intros Hcomment.
    apply ends_with_last_char in Hcomment; [ | discriminate].
    apply ends_with_last_char in Hbracket; [ | discriminate].
    rewrite Hbracket in Hcomment. discriminate Hcomment.
  - split; [split; [reflexivity | intros _] | discriminate].
    exists ("&" ++ array_text ++ "[" ++ index_text ++ "]").
    now rewrite !append_assoc.
Qed.

Lemma ir_print_elem_ptr_no_safety_witness :
  text (ir_print_elem_ptr sample_irp
          {| elem_ptr_base := runtime_instruction 3;
             elem_ptr_array_ptr := runtime_instruction 1;
             elem_ptr_elem_index := zeroed_instruction 2;
             elem_ptr_safety_check_on := false |})
  = "&#1[zeroes] // no safety"
  /\ ends_with "]"
       (text (ir_print_elem_ptr sample_irp
                {| elem_ptr_base := runtime_instruction 3;
                   elem_ptr_array_ptr := runtime_instruction 1;
                   elem_ptr_elem_index := runtime_instruction 2;
                   elem_ptr_safety_check_on := true |})).
Proof.
  split.
  - apply (proj1 (ir_print_elem_ptr_no_safety sample_irp
                    {| elem_ptr_base := runtime_instruction 3;
                       elem_ptr_array_ptr := runtime_instruction 1;
                       elem_ptr_elem_index := zeroed_instruction 2;
                       elem_ptr_safety_check_on := false |} eq_refl)).
  - apply (proj2 (proj2 (ir_print_elem_ptr_no_safety sample_irp
                    {| elem_ptr_base := runtime_instruction 3;
                       elem_ptr_array_ptr := runtime_instruction 1;
                       elem_ptr_elem_index := runtime_instruction 2;
                       elem_ptr_safety_check_on := true |} eq_refl))).
    reflexivity.
Defined.

(** ** Inline assembly *)

Lemma bind_at_index_ext {A B} (l : list A) (i : N) (k k' : A -> M B) :
  (forall x, In x l -> k x = k' x) ->
  (x <- at_index l i ;; k x) = (x <- at_index l i ;; k' x).
Proof.
  intros H. unfold at_index.
  destruct (nth_error l (N.to_nat i)) as [x|] eqn:Hnth; [ | reflexivity].
  rewrite !bind_ret_l. apply H. eapply nth_error_In; eauto.
Qed.

(** X18.  Inline assembly reads [output_types] only for the outputs
    that have a return type: when no output has one, the instruction is
    written the same whatever [output_types] holds, null entries
    included. *)
Theorem ir_print_asm_output_types_unread (irp : IrPrint)
    (instruction : IrInstructionAsm)
    (output_types : list (option IrInstruction)) :
  (forall asm_output,
     In asm_output (output_list (asm_expr (source_node (asm_base instruction)))) ->
     return_type asm_output = false) ->
  ir_print_asm irp (with_output_types instruction output_types)
  = ir_print_asm irp instruction.
Proof.
  intros Hno_return. unfold ir_print_asm, with_output_types. simpl.
  apply bind_ext; [reflexivity | intros _].
  apply bind_ext; [reflexivity | intros _].
  apply bind_ext; [ | reflexivity].
  apply for_loop_ext. intros i.
  apply bind_at_index_ext. intros asm_output Hin.
  now rewrite (Hno_return asm_output Hin).
Qed.

Lemma ir_print_asm_output_types_unread_witness :
  ir_print_asm sample_irp (with_output_types sample_asm [None])
  = ir_print_asm sample_irp sample_asm
  /\ ir_print_asm sample_irp sample_asm
     = ("asm volatile (" ++ quote ++ "nop" ++ quote ++ ") : [ret] " ++ quote
        ++ "=r" ++ quote ++ " (x) :  : " ++ quote ++ "memory" ++ quote ++ ")",
        Done tt).
Proof.
  split; [ | reflexivity].
  apply (ir_print_asm_output_types_unread sample_irp sample_asm [None]).
  intros asm_output [<- | []]. reflexivity.
Defined.

(** ** The print context *)

(** X19.  What the constant-value renderer and the operand renderer
    write, and how they end, does not depend on the print context: a
    value is written the same at every indent. *)
Theorem ir_print_const_value_context_free (irp irp' : IrPrint) :
  (forall const_val type_entry,
     ir_print_const_value irp type_entry const_val
     = ir_print_const_value irp' type_entry const_val)
  /\ (forall instruction,
        ir_print_other_instruction irp instruction
        = ir_print_other_instruction irp' instruction).
Proof. apply ir_print_const_value_any_irp. Qed.
